(** * Space-BioLens knowledge graph: layout and rendering engine

    A shallow embedding of [static/js/knowledge-graph.js] and the
    properties of its data adapter, category filter, three layouts,
    render pipeline, drag handlers and detail view.

    Conventions of the embedding.
    - The module-level variables of the script ([nodes], [links],
      [currentFilter], [currentLayout], [simulation], [g]) are the fields
      of one [State] record which every function takes and returns.
    - Node objects are shared and mutated in place: [nodes] is the store,
      a node object is identified by its position in that array, and
      [filteredNodes] is a list of such references.
    - Values read from the JSON records whose falsiness the script tests
      are [JsVal]s; JSON numbers are rationals.
    - Coordinates are JavaScript numbers computed with division, [cos]
      and [sin]; they are idealised as real numbers. A missing or [null]
      coordinate is [None] (d3 tests both with [== null]).
    - [Math.random] is an oracle: the state carries the sequence of
      values the host returns and a cursor into it.
    - d3 itself is not part of the script. Its data join
      ([selectAll(..).data(xs).enter().append(..)] on a fresh group) is
      modelled as one element per datum, in order; the physics of the
      simulation is not modelled, only the handle the script keeps.
    - An [Edge] names an edge by the ids of its endpoints; the [links]
      array, the simulation handle and the lines of the scene hold edges
      under these names. What the [source] and [target] fields of the edge
      objects hold once [d3.forceLink] has been given them, and what the
      category filter then selects, is modelled on [LinkObject]s.
    - Ids, titles and categories are strings, as in the records of the
      data source; the zoom behaviour, constant styling and the hover
      handlers play no part in the properties and are left out. *)

From Stdlib Require Import String Ascii List Bool Arith ZArith QArith Lia.
From Stdlib Require Import Reals Lra DecimalString Permutation Sorted.
Import ListNotations.

Close Scope Q_scope.
Close Scope R_scope.
Close Scope Z_scope.
Open Scope string_scope.
Open Scope list_scope.

(** ** JavaScript values and operators *)

Inductive JsVal : Type :=
| JUndefined
| JNull
| JBool (b : bool)
| JNum (q : Q)
| JStr (s : string).

(** ToBoolean: [undefined], [null], [false], [0] and [""] are falsy. *)
Definition truthy (v : JsVal) : bool :=
  match v with
  | JUndefined | JNull => false
  | JBool b => b
  | JNum q => negb (Qeq_bool q 0%Q)
  | JStr s => negb (s =? "")
  end.

(** [a || b] *)
Definition js_or (a b : JsVal) : JsVal := if truthy a then a else b.

(** [o?.f] on an object that may be missing *)
Definition opt_chain {A : Type} (o : option A) (f : A -> JsVal) : JsVal :=
  match o with Some x => f x | None => JUndefined end.

(** [xs.forEach((x, i) => ...)] with the mutated state threaded through *)
Fixpoint forEach_from {A S : Type} (i : nat) (xs : list A)
  (body : A -> nat -> S -> S) (s : S) : S :=
  match xs with
  | [] => s
  | x :: rest => forEach_from (Datatypes.S i) rest body (body x i s)
  end.

Definition forEach {A S : Type} (xs : list A) (body : A -> nat -> S -> S)
  (s : S) : S := forEach_from 0 xs body s.

(** [xs.find(p)] *)
Definition js_find {A : Type} (p : A -> bool) (xs : list A) : option A :=
  List.find p xs.

(** [new Set(xs)] spread back into an array: insertion order, an element
    already present is not added again. *)
Definition set_add (seen : list string) (x : string) : list string :=
  if existsb (String.eqb x) seen then seen else seen ++ [x].

Definition array_from_set (xs : list string) : list string :=
  fold_left set_add xs [].

(** [xs.indexOf(x)]: the first position of [x], [-1] when absent. *)
Fixpoint indexOf_from (i : Z) (xs : list string) (x : string) : Z :=
  match xs with
  | [] => (-1)%Z
  | y :: rest => if String.eqb y x then i else indexOf_from (i + 1)%Z rest x
  end.

Definition indexOf (xs : list string) (x : string) : Z := indexOf_from 0 xs x.

(** ** Data model *)

Record Links : Type := mkLinks {
  publications : option (list string);
  datasets : option (list string);
  related : option (list string)
}.

(** The object literal of [exp.links || {}]. *)
Definition empty_links : Links := mkLinks None None None.

Record GraphData : Type := mkGraphData {
  gd_size : JsVal;
  gd_connections : JsVal
}.

Record Experiment : Type := mkExperiment {
  exp_id : string;
  exp_title : string;
  exp_category : string;
  exp_status : string;
  exp_duration : string;
  exp_mission : option string;
  exp_summary : JsVal;
  exp_description : JsVal;
  exp_graphData : option GraphData;
  exp_links : option Links
}.

Record Node : Type := mkNode {
  id : string;
  title : string;
  category : string;
  status : string;
  duration : string;
  mission : option string;
  description : JsVal;
  size : JsVal;
  connections : JsVal;
  links_of : Links;
  (* written by d3's simulation *)
  x : option R;
  y : option R;
  (* pinned position *)
  fx : option R;
  fy : option R
}.

Record Edge : Type := mkEdge {
  source : string;
  target : string
}.

Definition set_pin (px py : option R) (n : Node) : Node :=
  mkNode (id n) (title n) (category n) (status n) (duration n) (mission n)
    (description n) (size n) (connections n) (links_of n) (x n) (y n) px py.

(** ** Data adapter ([initializeGraph], lines 30-52) *)

Definition node_of_experiment (exp : Experiment) : Node :=
  mkNode (exp_id exp) (exp_title exp) (exp_category exp) (exp_status exp)
    (exp_duration exp) (exp_mission exp)
    (js_or (js_or (exp_summary exp) (exp_description exp))
       (JStr "No description available."))
    (js_or (opt_chain (exp_graphData exp) gd_size) (JNum 15%Q))
    (js_or (opt_chain (exp_graphData exp) gd_connections) (JNum 3%Q))
    (match exp_links exp with Some l => l | None => empty_links end)
    None None None None.

Definition build_nodes (experiments : list Experiment) : list Node :=
  map node_of_experiment experiments.

(** [exp.links?.related] *)
Definition related_of (exp : Experiment) : option (list string) :=
  match exp_links exp with Some l => related l | None => None end.

Definition build_links (experiments : list Experiment) : list Edge :=
  forEach experiments (fun exp _ links =>
    match related_of exp with
    | Some rel =>
        forEach rel (fun relatedId _ links =>
          match js_find (fun e => String.eqb (exp_id e) relatedId) experiments with
          | Some _ => links ++ [mkEdge (exp_id exp) relatedId]
          | None => links
          end) links
    | None => links
    end) [].

(** ** The node store and references into it *)

(** A node object is referred to by its position in the [nodes] array. *)
Definition ref : Type := nat.

(** Mutation of the object behind a reference. *)
Fixpoint update (st : list Node) (r : ref) (f : Node -> Node) : list Node :=
  match st, r with
  | [], _ => []
  | n :: rest, O => f n :: rest
  | n :: rest, S r' => n :: update rest r' f
  end.

(** The array holding every node object of the store, in order. *)
Definition all_refs (st : list Node) : list ref := seq 0 (length st).

(** [xs.filter(n => p(n))] on an array of node objects. *)
Definition filter_refs (st : list Node) (p : Node -> bool) (xs : list ref)
  : list ref :=
  filter (fun r => match nth_error st r with Some n => p n | None => false end) xs.

(** [xs.map(n => f(n))] on an array of node objects. *)
Definition map_refs {A : Type} (st : list Node) (f : Node -> A) (xs : list ref)
  : list A :=
  flat_map (fun r => match nth_error st r with Some n => [f n] | None => [] end) xs.

(** ** Scene, simulation handle and program state *)

Inductive Element : Type :=
| Line (datum : Edge)
| Circle (datum : ref) (r : JsVal) (cx cy : option R) (draggable : bool)
| Text (datum : ref) (text : string) (tx ty : option R).

(** The children of [g]: one list of elements per appended group. *)
Definition Scene : Type := list (list Element).

Record Simulation : Type := mkSimulation {
  sim_nodes : list ref;
  sim_links : list Edge;
  sim_center : R * R;
  sim_alphaTarget : R;
  sim_running : bool
}.

Record State : Type := mkState {
  nodes : list Node;
  links : list Edge;
  currentFilter : string;
  currentLayout : string;
  simulation : option Simulation;
  g : Scene;
  (* the container's clientWidth and clientHeight *)
  clientWidth : Z;
  clientHeight : Z;
  (* Math.random: the values the host returns, and how many were drawn *)
  random_source : nat -> R;
  random_calls : nat
}.

Definition with_nodes (st : list Node) (s : State) : State :=
  mkState st (links s) (currentFilter s) (currentLayout s) (simulation s) (g s)
    (clientWidth s) (clientHeight s) (random_source s) (random_calls s).

Definition with_links (ls : list Edge) (s : State) : State :=
  mkState (nodes s) ls (currentFilter s) (currentLayout s) (simulation s) (g s)
    (clientWidth s) (clientHeight s) (random_source s) (random_calls s).

Definition with_filter (f : string) (s : State) : State :=
  mkState (nodes s) (links s) f (currentLayout s) (simulation s) (g s)
    (clientWidth s) (clientHeight s) (random_source s) (random_calls s).

Definition with_layout (l : string) (s : State) : State :=
  mkState (nodes s) (links s) (currentFilter s) l (simulation s) (g s)
    (clientWidth s) (clientHeight s) (random_source s) (random_calls s).

Definition with_simulation (sim : option Simulation) (s : State) : State :=
  mkState (nodes s) (links s) (currentFilter s) (currentLayout s) sim (g s)
    (clientWidth s) (clientHeight s) (random_source s) (random_calls s).

Definition with_scene (sc : Scene) (s : State) : State :=
  mkState (nodes s) (links s) (currentFilter s) (currentLayout s) (simulation s)
    sc (clientWidth s) (clientHeight s) (random_source s) (random_calls s).

Definition with_viewport (w h : Z) (s : State) : State :=
  mkState (nodes s) (links s) (currentFilter s) (currentLayout s) (simulation s)
    (g s) w h (random_source s) (random_calls s).

(** [Math.random()] *)
Definition Math_random (s : State) : R * State :=
  (random_source s (random_calls s),
   mkState (nodes s) (links s) (currentFilter s) (currentLayout s)
     (simulation s) (g s) (clientWidth s) (clientHeight s) (random_source s)
     (S (random_calls s))).

(** [g.selectAll("*").remove()] *)
Definition remove_all (s : State) : State := with_scene [] s.

(** [g.append("g")...] with the elements the data join creates *)
Definition append_group (els : list Element) (s : State) : State :=
  with_scene (g s ++ [els]) s.

Definition is_line (e : Element) : bool :=
  match e with Line _ => true | _ => false end.
Definition is_circle (e : Element) : bool :=
  match e with Circle _ _ _ _ _ => true | _ => false end.
Definition is_text (e : Element) : bool :=
  match e with Text _ _ _ _ => true | _ => false end.

Definition count_elements (p : Element -> bool) (sc : Scene) : nat :=
  length (filter p (concat sc)).

(** ** Filter engine (lines 75-81 and its copies at 126-127, 151-152) *)

Definition select_nodes (st : list Node) (flt : string) : list ref :=
  if negb (flt =? "all")
  then filter_refs st (fun n => category n =? flt) (all_refs st)
  else all_refs st.

(** [nodeIds.has(i)] on [new Set(ids)] *)
Definition set_has (ids : list string) (i : string) : bool :=
  existsb (String.eqb i) ids.

Definition select_links (st : list Node) (ls : list Edge) (flt : string)
  : list Edge :=
  if negb (flt =? "all")
  then
    let filteredNodes := filter_refs st (fun n => category n =? flt) (all_refs st) in
    let nodeIds := array_from_set (map_refs st id filteredNodes) in
    filter (fun l => set_has nodeIds (source l) && set_has nodeIds (target l)) ls
  else ls.

(** The pair the first lines of [createForceLayout] compute. *)
Definition select (st : list Node) (ls : list Edge) (flt : string)
  : list ref * list Edge :=
  (select_nodes st flt, select_links st ls flt).

(** ** Render pipeline *)

(** [d.title.substring(0,30)+(d.title.length>30?'...':'')] *)
Definition label_text (t : string) : string :=
  (substring 0 30 t ++ (if Nat.ltb 30 (String.length t) then "..." else ""))%string.

(** [selectAll(..).data(xs).enter().append(..)] on a fresh group, for an
    array of node objects: one element per node, built from the node. *)
Definition enter_nodes (st : list Node) (mk : ref -> Node -> Element)
  (xs : list ref) : list Element :=
  flat_map (fun i => match nth_error st i with Some d => [mk i d] | None => [] end) xs.

(** Lines 93-109: the three groups of the force layout. Positions are
    issued by the tick handler, so the elements carry none yet; only these
    circles get the drag behaviour. *)
Definition drawForceLayout (filteredNodes : list ref) (filteredLinks : list Edge)
  (s : State) : State :=
  let s1 := append_group (map Line filteredLinks) s in
  let s2 := append_group
    (enter_nodes (nodes s1) (fun i d => Circle i (size d) None None true)
       filteredNodes) s1 in
  append_group
    (enter_nodes (nodes s2) (fun i d => Text i (label_text (title d)) None None)
       filteredNodes) s2.

(** [drawStaticLayout] (lines 173-195): circles and labels at the pinned
    positions. *)
Definition drawStaticLayout (filteredNodes : list ref) (s : State) : State :=
  let s1 := append_group
    (enter_nodes (nodes s) (fun i d => Circle i (size d) (fx d) (fy d) false)
       filteredNodes) s in
  append_group
    (enter_nodes (nodes s1) (fun i d => Text i (label_text (title d)) (fx d) (fy d))
       filteredNodes) s1.

(** ** Layout engine *)

(** [createForceLayout] (lines 70-116) *)
Definition createForceLayout (s : State) : State :=
  let width := IZR (clientWidth s) in
  let height := IZR (clientHeight s) in
  let filteredNodes := select_nodes (nodes s) (currentFilter s) in
  let filteredLinks := select_links (nodes s) (links s) (currentFilter s) in
  let s1 := remove_all s in
  let s2 := with_nodes
    (forEach filteredNodes (fun node _ st => update st node (set_pin None None))
       (nodes s1)) s1 in
  let s3 := with_simulation
    (Some (mkSimulation filteredNodes filteredLinks
             (width / 2, height / 2)%R 0%R true)) s2 in
  drawForceLayout filteredNodes filteredLinks s3.

(** [[...new Set(filteredNodes.map(n => n.category))]] *)
Definition categories_of (st : list Node) (filteredNodes : list ref) : list string :=
  array_from_set (map_refs st category filteredNodes).

(** The local [angle] of the radial loop body (lines 135-136). *)
Definition radial_angle (categories : list string) (node : Node) : R :=
  let angleStep := (2 * PI / INR (length categories))%R in
  let categoryIndex := indexOf categories (category node) in
  (IZR categoryIndex * angleStep)%R.

(** Lines 137-139 of the loop body, for the value [rnd] that
    [Math.random()] returned. *)
Definition radial_position (centerX centerY : R) (categories : list string)
  (rnd : R) (node : Node) : Node :=
  let angle := radial_angle categories node in
  let radius := (200 + rnd * 100)%R in
  set_pin (Some (centerX + radius * cos angle)%R)
          (Some (centerY + radius * sin angle)%R) node.

(** [createRadialLayout] (lines 119-143) *)
Definition createRadialLayout (s : State) : State :=
  let width := IZR (clientWidth s) in
  let height := IZR (clientHeight s) in
  let centerX := (width / 2)%R in
  let centerY := (height / 2)%R in
  let filteredNodes := select_nodes (nodes s) (currentFilter s) in
  let s1 := remove_all s in
  let categories := categories_of (nodes s1) filteredNodes in
  let s2 := forEach filteredNodes (fun node _ s' =>
    let '(rnd, s'') := Math_random s' in
    with_nodes
      (update (nodes s'') node (radial_position centerX centerY categories rnd))
      s'') s1 in
  drawStaticLayout filteredNodes s2.

(** [createHierarchicalLayout] (lines 146-170) *)
Definition createHierarchicalLayout (s : State) : State :=
  let width := IZR (clientWidth s) in
  let height := IZR (clientHeight s) in
  let filteredNodes := select_nodes (nodes s) (currentFilter s) in
  let s1 := remove_all s in
  let categories := categories_of (nodes s1) filteredNodes in
  let columnWidth := (width / INR (length categories + 1))%R in
  let s2 := with_nodes
    (forEach categories (fun cat catIndex st =>
       let categoryNodes := filter_refs st (fun n => category n =? cat) filteredNodes in
       let rowHeight := (height / INR (length categoryNodes + 1))%R in
       forEach categoryNodes (fun node nodeIndex st' =>
         update st' node
           (set_pin (Some (columnWidth * INR (catIndex + 1))%R)
                    (Some (rowHeight * INR (nodeIndex + 1))%R))) st)
       (nodes s1)) s1 in
  drawStaticLayout filteredNodes s2.

(** ** View state manager *)

(** [simulation.stop()] *)
Definition sim_stop (sim : Simulation) : Simulation :=
  mkSimulation (sim_nodes sim) (sim_links sim) (sim_center sim)
    (sim_alphaTarget sim) false.

(** [simulation.alphaTarget(a)] *)
Definition sim_set_alphaTarget (a : R) (sim : Simulation) : Simulation :=
  mkSimulation (sim_nodes sim) (sim_links sim) (sim_center sim) a (sim_running sim).

(** [simulation.restart()] *)
Definition sim_restart (sim : Simulation) : Simulation :=
  mkSimulation (sim_nodes sim) (sim_links sim) (sim_center sim)
    (sim_alphaTarget sim) true.

(** [if (simulation) simulation.stop();] *)
Definition stop_simulation (s : State) : State :=
  match simulation s with
  | Some sim => with_simulation (Some (sim_stop sim)) s
  | None => s
  end.

(** [updateLayout] (lines 250-257) *)
Definition updateLayout (s : State) : State :=
  let s1 := stop_simulation s in
  if currentLayout s1 =? "force" then createForceLayout s1
  else if currentLayout s1 =? "radial" then createRadialLayout s1
  else if currentLayout s1 =? "hierarchical" then createHierarchicalLayout s1
  else s1.

(** The listeners of [setupEventListeners] (lines 225-226, 235-239). *)
Definition on_filter_change (value : string) (s : State) : State :=
  updateLayout (with_filter value s).

Definition on_layout_change (value : string) (s : State) : State :=
  updateLayout (with_layout value s).

Definition on_resize (w h : Z) (s : State) : State :=
  updateLayout (with_viewport w h s).

(** [initializeGraph] (lines 29-67) on the script's initial globals, in a
    container of the given size. *)
Definition initial_state (w h : Z) (rnd : nat -> R) : State :=
  mkState [] [] "all" "force" None [] w h rnd 0.

Definition initializeGraph (experiments : list Experiment) (s : State) : State :=
  let s1 := with_nodes (build_nodes experiments) s in
  let s2 := with_links (build_links experiments) s1 in
  let s3 := with_scene [] s2 in
  createForceLayout s3.

(** ** Interaction controller *)

Record DragEvent : Type := mkDragEvent {
  active : nat;
  ev_x : R;
  ev_y : R
}.

(** [if (!event.active && simulation) simulation.f()] *)
Definition when_idle (event : DragEvent) (f : Simulation -> Simulation)
  (s : State) : State :=
  match active event, simulation s with
  | O, Some sim => with_simulation (Some (f sim)) s
  | _, _ => s
  end.

(** [dragstarted] (line 260) *)
Definition dragstarted (event : DragEvent) (d : ref) (s : State) : State :=
  let s1 := when_idle event
    (fun sim => sim_restart (sim_set_alphaTarget (3 / 10)%R sim)) s in
  with_nodes (update (nodes s1) d (fun n => set_pin (x n) (y n) n)) s1.

(** [dragged] (line 261) *)
Definition dragged (event : DragEvent) (d : ref) (s : State) : State :=
  with_nodes
    (update (nodes s) d (set_pin (Some (ev_x event)) (Some (ev_y event)))) s.

(** [dragended] (line 262) *)
Definition dragended (event : DragEvent) (d : ref) (s : State) : State :=
  when_idle event (sim_set_alphaTarget 0%R) s.

(** The detail view's link button and panel after [showNodeDetails]
    (lines 198-221). The mission text goes through [toUpperCase] and is
    not modelled. *)
Record DetailView : Type := mkDetailView {
  dv_title : string;
  dv_description : JsVal;
  dv_status : string;
  dv_duration : string;
  btn_text : string;
  (* the URL the click handler opens, [None] for [onclick = null] *)
  btn_onclick : option JsVal;
  btn_disabled : bool;
  panel_display : string
}.

(** [o?.[0]] on an array of URLs that may be missing *)
Definition first_entry (o : option (list string)) : JsVal :=
  match o with
  | Some (u :: _) => JStr u
  | _ => JUndefined
  end.

Definition linkToOpen (node : Node) : JsVal :=
  js_or (first_entry (publications (links_of node)))
        (first_entry (datasets (links_of node))).

Definition showNodeDetails (node : Node) : DetailView :=
  let l := linkToOpen node in
  if truthy l
  then mkDetailView (title node) (description node) (status node) (duration node)
         "View Publication" (Some l) false "block"
  else mkDetailView (title node) (description node) (status node) (duration node)
         "View Publication" None true "block".

(** ** Vocabulary of the proofs

    The loop bodies of the layouts under names of their own, so that the
    lemmas about the loops can be stated once; each layout is shown equal
    to its loop written with these names. *)

(** A loop body that rewrites the node it is given, by its index. *)
Definition pin_loop (G : nat -> Node -> Node) : ref -> nat -> list Node -> list Node :=
  fun node k st => update st node (G k).

(** The loop of lines 134-140, for any way [F] of placing a node from the
    random value drawn for it. *)
Definition random_pin_loop (F : R -> Node -> Node) : ref -> nat -> State -> State :=
  fun node _ s' =>
    let '(rnd, s'') := Math_random s' in
    with_nodes (update (nodes s'') node (F rnd)) s''.

(** The nested loops of lines 159-167. *)
Definition column_loop (width height : R) (k : nat) (filteredNodes : list ref)
  : string -> nat -> list Node -> list Node :=
  fun cat catIndex st =>
    let categoryNodes := filter_refs st (fun n => category n =? cat) filteredNodes in
    forEach categoryNodes
      (pin_loop (fun nodeIndex =>
         set_pin (Some (width / INR (k + 1) * INR (catIndex + 1))%R)
                 (Some (height / INR (length categoryNodes + 1)
                        * INR (nodeIndex + 1))%R))) st.

(** A node with its pin fields blanked: what no layout changes. *)
Definition erase (n : Node) : Node := set_pin None None n.

(** A record with one of its optional fields replaced. *)
Definition set_graphData (gd : option GraphData) (exp : Experiment) : Experiment :=
  mkExperiment (exp_id exp) (exp_title exp) (exp_category exp) (exp_status exp)
    (exp_duration exp) (exp_mission exp) (exp_summary exp) (exp_description exp)
    gd (exp_links exp).

Definition set_summary (v : JsVal) (exp : Experiment) : Experiment :=
  mkExperiment (exp_id exp) (exp_title exp) (exp_category exp) (exp_status exp)
    (exp_duration exp) (exp_mission exp) v (exp_description exp)
    (exp_graphData exp) (exp_links exp).

(** ** First-seen order

    The order in which distinct values first occur in a list, written
    directly: the head comes first and is struck from what follows. The
    category arrays of the layouts are compared with it. *)
Fixpoint first_seen (xs : list string) : list string :=
  match xs with
  | [] => []
  | x :: rest => x :: filter (fun y => negb (String.eqb y x)) (first_seen rest)
  end.

(** ** Sample data

    The three records of the filter example: ids 1 and 3 in category A,
    id 2 in category B, and record 1 related to 2 and 3. *)

Definition sample_experiment (i c : string) (rel : option (list string))
  : Experiment :=
  mkExperiment i ("Experiment " ++ i)%string c "completed" "30 days" (Some "iss")
    JUndefined JUndefined None (Some (mkLinks None None rel)).

Definition sample_experiments : list Experiment :=
  [ sample_experiment "1" "A" (Some ["2"; "3"]);
    sample_experiment "2" "B" None;
    sample_experiment "3" "A" None ].

Definition sample_nodes : list Node := build_nodes sample_experiments.
Definition sample_links : list Edge := build_links sample_experiments.

Definition sample_node_with_links (l : Links) : Node :=
  mkNode "1" "Experiment 1" "A" "completed" "30 days" (Some "iss")
    (JStr "No description available.") (JNum 15%Q) (JNum 3%Q) l
    None None None None.

(** The script after loading the sample records into an 800 by 600
    container: force layout, filter "all". *)
Definition sample_state : State :=
  initializeGraph sample_experiments (initial_state 800 600 (fun _ => 0%R)).

(** Radial layout, then the filter set to "B", then back to the force
    layout. *)
Definition sample_after_filter : State :=
  on_layout_change "force"
    (on_filter_change "B" (on_layout_change "radial" sample_state)).

(** Node 0 dragged to (5,7) and still held. *)
Definition sample_held : State :=
  dragged (mkDragEvent 0 5 7) 0 (dragstarted (mkDragEvent 0 0 0) 0 sample_state).

(** The window is resized while the drag is in progress. *)
Definition sample_mid_drag : State := on_resize 1024 768 sample_held.

(** ** Event traces

    The listeners the script installs on the graph page, as events; a
    trace is the sequence in which the browser delivers them. *)

Inductive Event : Type :=
| FilterChange (value : string)
| LayoutChange (value : string)
| Resize (w h : Z)
| DragStart (event : DragEvent) (d : ref)
| DragMove (event : DragEvent) (d : ref)
| DragEnd (event : DragEvent) (d : ref).

Definition handle (e : Event) (s : State) : State :=
  match e with
  | FilterChange value => on_filter_change value s
  | LayoutChange value => on_layout_change value s
  | Resize w h => on_resize w h s
  | DragStart event d => dragstarted event d s
  | DragMove event d => dragged event d s
  | DragEnd event d => dragended event d s
  end.

Definition run (trace : list Event) (s : State) : State :=
  fold_left (fun t e => handle e t) trace s.

(** The elements of a scene in document order, and the data bound to its
    circles and to its labels. *)
Definition elements (sc : Scene) : list Element := concat sc.

Definition circle_datum (e : Element) : list ref :=
  match e with Circle d _ _ _ _ => [d] | _ => [] end.

Definition text_datum (e : Element) : list ref :=
  match e with Text d _ _ _ => [d] | _ => [] end.

Definition line_datum (e : Element) : list Edge :=
  match e with Line l => [l] | _ => [] end.

(** Whether some record carries the id. *)
Definition known_id (experiments : list Experiment) (i : string) : bool :=
  existsb (fun e => String.eqb (exp_id e) i) experiments.

(** ** The edge objects and [d3.forceLink] (lines 48, 76-80, 88)

    The adapter writes each edge as an object with two id strings.
    [d3.forceLink(filteredLinks).id(d => d.id)], registered with the
    simulation at line 88, replaces in each of the objects it is given a
    [source] or [target] that is not an object by the node of the
    simulation with that id, and throws when there is none; the tick
    handler of line 112 reads [d.source.x] from the result. The objects
    stay in the [links] array, so the filter expression of lines 79-80,
    which looks an endpoint up in a set of id strings, meets node objects
    from then on. An [Edge] names an edge by the two ids; a [LinkObject]
    is what the object holds. *)

(** The value of [l.source] or [l.target]. *)
Inductive Endpoint : Type :=
| IdString (i : string)
| NodeObject (r : ref).

Record LinkObject : Type := mkLinkObject {
  source_value : Endpoint;
  target_value : Endpoint
}.

(** [{ source: exp.id, target: relatedId }] (line 48) *)
Definition link_object (l : Edge) : LinkObject :=
  mkLinkObject (IdString (source l)) (IdString (target l)).

(** [nodeIds.has(v)] on a set of id strings: membership is by
    SameValueZero, under which an object equals no string. *)
Definition set_has_value (ids : list string) (v : Endpoint) : bool :=
  match v with
  | IdString i => set_has ids i
  | NodeObject _ => false
  end.

(** A link object is referred to by its position in the [links] array. *)
Definition all_link_refs (store : list LinkObject) : list ref :=
  seq 0 (length store).

(** Lines 76-80 on the link objects. *)
Definition select_link_objects (st : list Node) (store : list LinkObject)
  (flt : string) : list ref :=
  if negb (flt =? "all")
  then
    let filteredNodes := filter_refs st (fun n => category n =? flt) (all_refs st) in
    let nodeIds := array_from_set (map_refs st id filteredNodes) in
    filter (fun r => match nth_error store r with
                     | Some l => set_has_value nodeIds (source_value l)
                                 && set_has_value nodeIds (target_value l)
                     | None => false
                     end) (all_link_refs store)
  else all_link_refs store.

(** Mutation of the link object behind a reference. *)
Fixpoint update_link (store : list LinkObject) (r : ref)
  (f : LinkObject -> LinkObject) : list LinkObject :=
  match store, r with
  | [], _ => []
  | l :: rest, O => f l :: rest
  | l :: rest, S r' => l :: update_link rest r' f
  end.

(** [new Map(nodes.map(d => [d.id, d])).get(i)]: an entry replaces an
    earlier one with the same key, so the node found is the last node of
    the simulation with that id. *)
Definition node_by_id (st : list Node) (simNodes : list ref) (i : string)
  : option ref :=
  find (fun r => match nth_error st r with
                 | Some n => id n =? i
                 | None => false
                 end) (rev simNodes).

(** [if (typeof v !== "object") v = find(nodeById, v)]; [None] when
    [find] throws "node not found". *)
Definition resolve (st : list Node) (simNodes : list ref) (v : Endpoint)
  : option Endpoint :=
  match v with
  | NodeObject r => Some (NodeObject r)
  | IdString i => option_map NodeObject (node_by_id st simNodes i)
  end.

(** The initialisation of [d3.forceLink] over the objects of
    [filteredLinks], in order; [None] when an id is not found. *)
Definition forceLink_step (st : list Node) (simNodes : list ref)
  (acc : option (list LinkObject)) (r : ref) : option (list LinkObject) :=
  match acc with
  | None => None
  | Some cur =>
      match nth_error cur r with
      | None => Some cur
      | Some l =>
          match resolve st simNodes (source_value l),
                resolve st simNodes (target_value l) with
          | Some a, Some b => Some (update_link cur r (fun _ => mkLinkObject a b))
          | _, _ => None
          end
      end
  end.

Definition forceLink (st : list Node) (simNodes filteredLinks : list ref)
  (store : list LinkObject) : option (list LinkObject) :=
  fold_left (forceLink_step st simNodes) filteredLinks (Some store).

(** What [createForceLayout] (lines 75-88) does to the link objects, in
    the state it is called in. *)
Definition createForceLayout_links (s : State) (store : list LinkObject)
  : option (list LinkObject) :=
  let filteredNodes := select_nodes (nodes s) (currentFilter s) in
  let filteredLinks := select_link_objects (nodes s) store (currentFilter s) in
  forceLink (nodes s) filteredNodes filteredLinks store.

(** [updateLayout] (lines 250-257): only the force layout touches them. *)
Definition updateLayout_links (s : State) (store : list LinkObject)
  : option (list LinkObject) :=
  let s1 := stop_simulation s in
  if currentLayout s1 =? "force" then createForceLayout_links s1 store
  else Some store.

(** [initializeGraph] (lines 43-52 and 66): the link objects after the
    load. *)
Definition initializeGraph_links (experiments : list Experiment) (s : State)
  : option (list LinkObject) :=
  let s1 := with_nodes (build_nodes experiments) s in
  let s2 := with_links (build_links experiments) s1 in
  let s3 := with_scene [] s2 in
  createForceLayout_links s3 (map link_object (build_links experiments)).

(** The link objects along a trace of events. *)
Definition handle_links (e : Event) (s : State) (store : list LinkObject)
  : option (list LinkObject) :=
  match e with
  | FilterChange value => updateLayout_links (with_filter value s) store
  | LayoutChange value => updateLayout_links (with_layout value s) store
  | Resize w h => updateLayout_links (with_viewport w h s) store
  | DragStart _ _ | DragMove _ _ | DragEnd _ _ => Some store
  end.

Fixpoint run_links (trace : list Event) (s : State) (store : list LinkObject)
  : option (list LinkObject) :=
  match trace with
  | [] => Some store
  | e :: rest =>
      match handle_links e s store with
      | Some store' => run_links rest (handle e s) store'
      | None => None
      end
  end.

(** Both endpoints have been replaced by node objects. *)
Definition resolved (l : LinkObject) : bool :=
  match source_value l, target_value l with
  | NodeObject _, NodeObject _ => true
  | _, _ => false
  end.

(** An object of the load after [d3.forceLink]: its endpoints are nodes
    of the array, with the ids the adapter wrote. *)
Definition resolved_as (st : list Node) (l : LinkObject) (e : Edge) : Prop :=
  exists a b na nb,
    l = mkLinkObject (NodeObject a) (NodeObject b) /\
    nth_error st a = Some na /\ id na = source e /\
    nth_error st b = Some nb /\ id nb = target e.

(** * The research list page

    A shallow embedding of the script of the browsing page (search box,
    filter checkboxes, sorting, pagination of cards).

    Conventions of the embedding.
    - The module-level variables ([currentPage], [allExperiments],
      [filteredExperiments]) and the parts of the document the script
      reads and writes are the fields of one [State].
    - A record carries the fields the script dereferences without a
      guard; [relevanceScore] and [links], which it guards, are optional.
    - An element looked up with a guard ([if (!grid) return], [?.value])
      may be missing: it is an [option].
    - [grid.innerHTML] is the no-results message or the cards of a page of
      records; the cards are kept as the records they are made from. The
      buttons and ellipses of [pagination.innerHTML] are kept as items.
    - [toLowerCase] and [localeCompare] are the host's; the functions that
      use them take them as arguments.
    - The 300 ms debounce of the search box only delays [handleSearch]; an
      event of a trace is delivered when its handler runs. *)

Module Research.

(** ** JavaScript arrays and strings *)

(** [xs.slice(start, end)], with negative indices counted from the end *)
Definition js_slice {A : Type} (xs : list A) (start stop : Z) : list A :=
  let len := Z.of_nat (length xs) in
  let k := if (start <? 0)%Z then Z.max (len + start) 0 else Z.min start len in
  let final := if (stop <? 0)%Z then Z.max (len + stop) 0 else Z.min stop len in
  firstn (Z.to_nat (final - k)) (skipn (Z.to_nat k) xs).

(** [xs.includes(x)] on an array of strings *)
Definition array_includes (xs : list string) (x : string) : bool :=
  existsb (String.eqb x) xs.

(** [s.includes(sub)] on strings *)
Definition includes (s sub : string) : bool :=
  match index 0 sub s with Some _ => true | None => false end.

(** [xs.sort(compare)], for a comparator that orders consistently: the
    sort is stable, so the result is the one an insertion from the right
    gives, [after a b] telling that [compare(a, b) > 0]. *)
Fixpoint sort_insert {A : Type} (after : A -> A -> bool) (a : A) (xs : list A)
  : list A :=
  match xs with
  | [] => [a]
  | b :: rest => if after a b then b :: sort_insert after a rest else a :: b :: rest
  end.

Fixpoint js_sort {A : Type} (after : A -> A -> bool) (xs : list A) : list A :=
  match xs with
  | [] => []
  | a :: rest => sort_insert after a (js_sort after rest)
  end.

(** [Math.ceil(n / itemsPerPage)] for a length [n] *)
Definition itemsPerPage : Z := 8.

Definition ceil_div (n : nat) : Z := ((Z.of_nat n + (itemsPerPage - 1)) / itemsPerPage)%Z.

(** The decimal digits of a count, as a template literal prints them. *)
Definition show_nat (n : nat) : string :=
  NilZero.string_of_uint (Nat.to_uint n).

(** ** Data model and document *)

Record Exp : Type := mkExp {
  title : string;
  description : string;
  summary : string;
  organism : string;
  mission : string;
  duration : string;
  tags : list string;
  category : string;
  status : string;
  year : Z;
  relevanceScore : option Q;
  links : option Links
}.

Inductive GridContent : Type :=
| NoResults
| Cards (page : list Exp).

Inductive PagItem : Type :=
| Previous (disabled : bool) (target : Z)
| PageButton (active : bool) (page : Z)
| Ellipsis
| Next (disabled : bool) (target : Z).

Record Checkbox : Type := mkCheckbox {
  value : string;
  checked : bool
}.

Record State : Type := mkState {
  currentPage : Z;
  allExperiments : list Exp;
  filteredExperiments : list Exp;
  (* the document *)
  researchGrid : option GridContent;
  pagination : option (list PagItem);
  resultsCount : option string;
  researchSearchInput : option string;
  categoryFilter : list Checkbox;
  organismFilter : list Checkbox;
  missionFilter : list Checkbox;
  statusFilter : list Checkbox;
  sortSelect : option string
}.

Definition with_page (p : Z) (s : State) : State :=
  mkState p (allExperiments s) (filteredExperiments s) (researchGrid s)
    (pagination s) (resultsCount s) (researchSearchInput s) (categoryFilter s)
    (organismFilter s) (missionFilter s) (statusFilter s) (sortSelect s).

Definition with_all (xs : list Exp) (s : State) : State :=
  mkState (currentPage s) xs (filteredExperiments s) (researchGrid s)
    (pagination s) (resultsCount s) (researchSearchInput s) (categoryFilter s)
    (organismFilter s) (missionFilter s) (statusFilter s) (sortSelect s).

Definition with_filtered (xs : list Exp) (s : State) : State :=
  mkState (currentPage s) (allExperiments s) xs (researchGrid s)
    (pagination s) (resultsCount s) (researchSearchInput s) (categoryFilter s)
    (organismFilter s) (missionFilter s) (statusFilter s) (sortSelect s).

Definition with_grid (c : GridContent) (s : State) : State :=
  mkState (currentPage s) (allExperiments s) (filteredExperiments s) (Some c)
    (pagination s) (resultsCount s) (researchSearchInput s) (categoryFilter s)
    (organismFilter s) (missionFilter s) (statusFilter s) (sortSelect s).

Definition with_pagination (items : list PagItem) (s : State) : State :=
  mkState (currentPage s) (allExperiments s) (filteredExperiments s)
    (researchGrid s) (Some items) (resultsCount s) (researchSearchInput s)
    (categoryFilter s) (organismFilter s) (missionFilter s) (statusFilter s)
    (sortSelect s).

Definition with_count (text : string) (s : State) : State :=
  mkState (currentPage s) (allExperiments s) (filteredExperiments s)
    (researchGrid s) (pagination s) (Some text) (researchSearchInput s)
    (categoryFilter s) (organismFilter s) (missionFilter s) (statusFilter s)
    (sortSelect s).

Definition with_search (text : option string) (s : State) : State :=
  mkState (currentPage s) (allExperiments s) (filteredExperiments s)
    (researchGrid s) (pagination s) (resultsCount s) text
    (categoryFilter s) (organismFilter s) (missionFilter s) (statusFilter s)
    (sortSelect s).

Definition with_boxes (c o m st : list Checkbox) (s : State) : State :=
  mkState (currentPage s) (allExperiments s) (filteredExperiments s)
    (researchGrid s) (pagination s) (resultsCount s) (researchSearchInput s)
    c o m st (sortSelect s).

Definition with_sort (v : option string) (s : State) : State :=
  mkState (currentPage s) (allExperiments s) (filteredExperiments s)
    (researchGrid s) (pagination s) (resultsCount s) (researchSearchInput s)
    (categoryFilter s) (organismFilter s) (missionFilter s) (statusFilter s) v.

(** ** Pagination (lines 201-235) *)

(** The items the loop of lines 215-221 adds for page [i]. *)
Definition page_items (currentPage totalPages i : Z) : list PagItem :=
  if ((i =? 1) || (i =? totalPages) ||
      ((currentPage - 1 <=? i) && (i <=? currentPage + 1)))%Z
  then [PageButton (i =? currentPage)%Z i]
  else if ((i =? currentPage - 2) || (i =? currentPage + 2))%Z
       then [Ellipsis]
       else [].

(** [for (let i = 1; i <= totalPages; i++)] *)
Definition pages_upto (totalPages : Z) : list Z :=
  map Z.of_nat (seq 1 (Z.to_nat totalPages)).

(** [renderPagination] (lines 201-226) *)
Definition renderPagination (s : State) : State :=
  match pagination s with
  | None => s
  | Some _ =>
      let totalPages := ceil_div (length (filteredExperiments s)) in
      if (totalPages <=? 1)%Z then with_pagination [] s
      else
        with_pagination
          ([Previous (currentPage s =? 1)%Z (currentPage s - 1)%Z]
           ++ flat_map (page_items (currentPage s) totalPages) (pages_upto totalPages)
           ++ [Next (currentPage s =? totalPages)%Z (currentPage s + 1)%Z]) s
  end.

(** [renderExperiments] (lines 144-160) *)
Definition renderExperiments (s : State) : State :=
  match researchGrid s with
  | None => s
  | Some _ =>
      let startIndex := ((currentPage s - 1) * itemsPerPage)%Z in
      let endIndex := (startIndex + itemsPerPage)%Z in
      let pageExperiments := js_slice (filteredExperiments s) startIndex endIndex in
      if Nat.eqb (length pageExperiments) 0
      then
        let s1 := with_grid NoResults s in
        match pagination s1 with
        | Some _ => with_pagination [] s1
        | None => s1
        end
      else renderPagination (with_grid (Cards pageExperiments) s)
  end.

(** [changePage] (lines 228-235); the scrolling is not modelled. *)
Definition changePage (page : Z) (s : State) : State :=
  let totalPages := ceil_div (length (filteredExperiments s)) in
  if ((page <? 1) || (totalPages <? page))%Z then s
  else renderExperiments (with_page page s).

(** [updateResultsCount] (lines 238-242) *)
Definition updateResultsCount (s : State) : State :=
  let count := length (filteredExperiments s) in
  match resultsCount s with
  | Some _ =>
      with_count ("Showing " ++ show_nat count ++ " experiment"
                  ++ (if negb (Nat.eqb count 1) then "s" else ""))%string s
  | None => s
  end.

(** ** Search, filters, reset and sorting (lines 72-141) *)

(** [...querySelectorAll(".x:checked")].map(cb => cb.value) *)
Definition checked_values (boxes : list Checkbox) : list string :=
  map value (filter checked boxes).

(** [applyFilters] (lines 89-106) *)
Definition applyFilters (fromSearch : bool) (s : State) : State :=
  let categoryFilters := checked_values (categoryFilter s) in
  let organismFilters := checked_values (organismFilter s) in
  let missionFilters := checked_values (missionFilter s) in
  let statusFilters := checked_values (statusFilter s) in
  let source := if fromSearch then filteredExperiments s else allExperiments s in
  let source := if Nat.ltb 0 (length categoryFilters)
    then filter (fun exp => array_includes categoryFilters (category exp)) source
    else source in
  let source := if Nat.ltb 0 (length organismFilters)
    then filter (fun exp => array_includes organismFilters (organism exp)) source
    else source in
  let source := if Nat.ltb 0 (length missionFilters)
    then filter (fun exp => array_includes missionFilters (mission exp)) source
    else source in
  let source := if Nat.ltb 0 (length statusFilters)
    then filter (fun exp => array_includes statusFilters (status exp)) source
    else source in
  updateResultsCount (renderExperiments (with_page 1 (with_filtered source s))).

(** The search term of line 73. *)
Definition searchTerm (toLowerCase : string -> string) (s : State) : string :=
  match researchSearchInput s with
  | Some v => if (toLowerCase v =? "")%string then "" else toLowerCase v
  | None => ""
  end.

(** The predicate of lines 76-82. *)
Definition matches_term (toLowerCase : string -> string) (term : string)
  (exp : Exp) : bool :=
  includes (toLowerCase (title exp)) term ||
  includes (toLowerCase (description exp)) term ||
  includes (toLowerCase (organism exp)) term ||
  includes (toLowerCase (mission exp)) term ||
  existsb (fun tag => includes (toLowerCase tag) term) (tags exp).

(** [handleSearch] (lines 72-86) *)
Definition handleSearch (toLowerCase : string -> string) (s : State) : State :=
  let term := searchTerm toLowerCase s in
  applyFilters true
    (with_filtered (filter (matches_term toLowerCase term) (allExperiments s)) s).

Definition uncheck (boxes : list Checkbox) : list Checkbox :=
  map (fun cb => mkCheckbox (value cb) false) boxes.

(** [resetFilters] (lines 109-118) *)
Definition resetFilters (s : State) : State :=
  let s1 := with_boxes (uncheck (categoryFilter s)) (uncheck (organismFilter s))
              (uncheck (missionFilter s)) (uncheck (statusFilter s)) s in
  let s2 := match researchSearchInput s1 with
            | Some _ => with_search (Some "") s1
            | None => s1
            end in
  updateResultsCount
    (renderExperiments (with_page 1 (with_filtered (allExperiments s2) s2))).

(** [(x.relevanceScore || 0)] *)
Definition relevance (exp : Exp) : Q :=
  match relevanceScore exp with
  | Some q => if Qeq_bool q 0%Q then 0%Q else q
  | None => 0%Q
  end.

(** [handleSort] (lines 121-141) *)
Definition sort_by_relevance (xs : list Exp) : list Exp :=
  js_sort (fun a b => negb (Qle_bool (relevance b - relevance a)%Q 0%Q)) xs.

Definition handleSort (localeCompare : string -> string -> Z) (s : State) : State :=
  let sorted :=
    match sortSelect s with
    | Some sortValue =>
        if (sortValue =? "year-desc")%string
        then js_sort (fun a b => (0 <? year b - year a)%Z) (filteredExperiments s)
        else if (sortValue =? "year-asc")%string
        then js_sort (fun a b => (0 <? year a - year b)%Z) (filteredExperiments s)
        else if (sortValue =? "title")%string
        then js_sort (fun a b => (0 <? localeCompare (title a) (title b))%Z)
               (filteredExperiments s)
        else sort_by_relevance (filteredExperiments s)
    | None => sort_by_relevance (filteredExperiments s)
    end in
  renderExperiments (with_filtered sorted s).

(** ** Loading (lines 7-25) *)

(** [fetchExperiments]: the response is [None] when the request fails or
    is not ok, and otherwise holds [data.experiments], if any. *)
Definition fetchExperiments (response : option (option (list Exp))) (s : State)
  : State :=
  match response with
  | Some data =>
      let all := match data with Some xs => xs | None => [] end in
      with_filtered all (with_all all s)
  | None => s
  end.

(** The script's initial variables in a given document. *)
Definition initial (doc : State) : State :=
  with_filtered [] (with_all [] (with_page 1 doc)).

(** The [DOMContentLoaded] listener (lines 21-25). *)
Definition load (response : option (option (list Exp))) (doc : State) : State :=
  updateResultsCount (renderExperiments (fetchExperiments response (initial doc))).

(** ** Events *)

Inductive Group : Type := CategoryGroup | OrganismGroup | MissionGroup | StatusGroup.

Fixpoint flip (i : nat) (boxes : list Checkbox) : list Checkbox :=
  match boxes, i with
  | [], _ => []
  | cb :: rest, O => mkCheckbox (value cb) (negb (checked cb)) :: rest
  | cb :: rest, S i' => cb :: flip i' rest
  end.

Definition toggle (grp : Group) (i : nat) (s : State) : State :=
  match grp with
  | CategoryGroup =>
      with_boxes (flip i (categoryFilter s)) (organismFilter s) (missionFilter s)
        (statusFilter s) s
  | OrganismGroup =>
      with_boxes (categoryFilter s) (flip i (organismFilter s)) (missionFilter s)
        (statusFilter s) s
  | MissionGroup =>
      with_boxes (categoryFilter s) (organismFilter s) (flip i (missionFilter s))
        (statusFilter s) s
  | StatusGroup =>
      with_boxes (categoryFilter s) (organismFilter s) (missionFilter s)
        (flip i (statusFilter s)) s
  end.

(** What the user does to an element of the page. [setupEventListeners]
    (lines 53-69) attaches a listener to the elements that exist when the
    page is loaded, so an event on a missing search box, checkbox or sort
    menu reaches no handler; [ResetClicked] is a click on the reset button
    and [PageClicked] a click on a button of the pagination bar. *)
Inductive Event : Type :=
| Typed (text : string)
| Toggled (grp : Group) (i : nat)
| ResetClicked
| SortChosen (v : string)
| PageClicked (page : Z).

Definition boxes_of (grp : Group) (s : State) : list Checkbox :=
  match grp with
  | CategoryGroup => categoryFilter s
  | OrganismGroup => organismFilter s
  | MissionGroup => missionFilter s
  | StatusGroup => statusFilter s
  end.

Section Host.

Variable toLowerCase : string -> string.
Variable localeCompare : string -> string -> Z.

Definition handle (e : Event) (s : State) : State :=
  match e with
  | Typed text =>
      match researchSearchInput s with
      | Some _ => handleSearch toLowerCase (with_search (Some text) s)
      | None => s
      end
  | Toggled grp i =>
      if Nat.ltb i (length (boxes_of grp s))
      then applyFilters false (toggle grp i s)
      else s
  | ResetClicked => resetFilters s
  | SortChosen v =>
      match sortSelect s with
      | Some _ => handleSort localeCompare (with_sort (Some v) s)
      | None => s
      end
  | PageClicked page => changePage page s
  end.

Definition run (trace : list Event) (s : State) : State :=
  fold_left (fun t e => handle e t) trace s.

End Host.

(** The link of the card's button (line 177) and the button itself
    (line 194): the URL it opens, if the button is rendered. *)
Definition card_linkToOpen (exp : Exp) : JsVal :=
  js_or (js_or (first_entry (match links exp with
                             | Some l => publications l
                             | None => None
                             end))
               (first_entry (match links exp with
                             | Some l => datasets l
                             | None => None
                             end)))
        (JStr "#").

Definition card_button (exp : Exp) : option JsVal :=
  match card_linkToOpen exp with
  | JStr u => if (u =? "#")%string then None else Some (JStr u)
  | l => Some l
  end.

(** ** Vocabulary of the proofs *)

(** The records of the current page. *)
Definition page_of (s : State) : list Exp :=
  js_slice (filteredExperiments s) ((currentPage s - 1) * itemsPerPage)%Z
    ((currentPage s - 1) * itemsPerPage + itemsPerPage)%Z.

(** What the grid, the pagination bar and the counter hold when they show
    the current variables. *)
Definition grid_shown (s : State) : GridContent :=
  match page_of s with
  | [] => NoResults
  | page => Cards page
  end.

Definition pagination_shown (s : State) : list PagItem :=
  let totalPages := ceil_div (length (filteredExperiments s)) in
  match page_of s with
  | [] => []
  | _ =>
      if (totalPages <=? 1)%Z then []
      else [Previous (currentPage s =? 1)%Z (currentPage s - 1)%Z]
           ++ flat_map (page_items (currentPage s) totalPages) (pages_upto totalPages)
           ++ [Next (currentPage s =? totalPages)%Z (currentPage s + 1)%Z]
  end.

Definition count_shown (s : State) : string :=
  ("Showing " ++ show_nat (length (filteredExperiments s)) ++ " experiment"
   ++ (if Nat.eqb (length (filteredExperiments s)) 1 then "" else "s"))%string.

(** The document shows the variables: every element that exists holds
    what a rendering of the current variables writes into it. The
    pagination bar is only written through the grid, so it is tied to the
    variables when the grid exists. *)
Definition in_sync (s : State) : Prop :=
  (forall c, researchGrid s = Some c -> c = grid_shown s) /\
  (forall items, pagination s = Some items -> researchGrid s <> None ->
     items = pagination_shown s) /\
  (forall text, resultsCount s = Some text -> text = count_shown s).

(** The current page number is 1 or a page of the result list. *)
Definition in_range (s : State) : Prop :=
  (1 <= currentPage s)%Z /\
  (currentPage s = 1 \/
   currentPage s <= ceil_div (length (filteredExperiments s)))%Z.

(** A group of checkboxes lets a value through when none is checked or
    the value is among the checked ones. *)
Definition group_ok (boxes : list Checkbox) (v : string) : bool :=
  negb (Nat.ltb 0 (length (checked_values boxes)))
  || array_includes (checked_values boxes) v.

(** The field of a record a group of checkboxes is compared with. *)
Definition field_of (grp : Group) (exp : Exp) : string :=
  match grp with
  | CategoryGroup => category exp
  | OrganismGroup => organism exp
  | MissionGroup => mission exp
  | StatusGroup => status exp
  end.

Definition passes (s : State) (exp : Exp) : bool :=
  group_ok (categoryFilter s) (category exp) &&
  group_ok (organismFilter s) (organism exp) &&
  group_ok (missionFilter s) (mission exp) &&
  group_ok (statusFilter s) (status exp).

(** The list a response loads: [data.experiments || []], and nothing
    when the request fails. *)
Definition loaded (response : option (option (list Exp))) : list Exp :=
  match response with
  | Some (Some xs) => xs
  | _ => []
  end.

(** The result list is a selection of the loaded list, reordered. *)
Definition selection_of (all : list Exp) (s : State) : Prop :=
  allExperiments s = all /\
  exists keep, Permutation (filteredExperiments s) (filter keep all).

(** ** Sample data: ten records of two categories. *)

Definition sample_exp (y : Z) (cat org : string) : Exp :=
  mkExp ("Study " ++ cat)%string "Effects of spaceflight" "Summary" org "iss"
    "30 days" ["microgravity"; org] cat "Completed" y None None.

Definition sample_list : list Exp :=
  [ sample_exp 2019 "microbiology" "E. coli";
    sample_exp 2021 "plant-studies" "Arabidopsis";
    sample_exp 2015 "microbiology" "Yeast";
    sample_exp 2022 "plant-studies" "Wheat";
    sample_exp 2018 "microbiology" "E. coli";
    sample_exp 2020 "plant-studies" "Arabidopsis";
    sample_exp 2017 "microbiology" "Yeast";
    sample_exp 2023 "plant-studies" "Wheat";
    sample_exp 2016 "microbiology" "E. coli";
    sample_exp 2014 "plant-studies" "Arabidopsis" ].

(** A document with every element present and two category checkboxes. *)
Definition sample_doc : State :=
  mkState 1 [] [] (Some NoResults) (Some []) (Some "") (Some "")
    [mkCheckbox "microbiology" false; mkCheckbox "plant-studies" false]
    [] [] [] (Some "relevance").

Definition sample_page : State := load (Some (Some sample_list)) sample_doc.

End Research.

(** * Properties *)

(** ** Loops, sets and the store *)

Lemma forEach_from_inv {A S : Type} (P : S -> Prop) (xs : list A)
  (body : A -> nat -> S -> S) :
  (forall a i s, In a xs -> P s -> P (body a i s)) ->
  forall i s, P s -> P (forEach_from i xs body s).
Proof.
  induction xs as [|a rest IH]; intros Hbody i s Hs; simpl.
  - exact Hs.
  - apply IH.
    + intros b j t Hb. apply Hbody. now right.
    + apply Hbody; [now left | exact Hs].
Qed.

Lemma forEach_inv {A S : Type} (P : S -> Prop) (xs : list A)
  (body : A -> nat -> S -> S) (s : S) :
  (forall a i t, In a xs -> P t -> P (body a i t)) ->
  P s -> P (forEach xs body s).
Proof. intros Hbody Hs. unfold forEach. now apply forEach_from_inv. Qed.

Lemma set_has_In (ids : list string) (i : string) :
  set_has ids i = true <-> In i ids.
Proof.
  unfold set_has. rewrite existsb_exists. split.
  - intros [y [Hy Heq]]. apply String.eqb_eq in Heq. now subst.
  - intros Hi. exists i. split; [exact Hi | apply String.eqb_refl].
Qed.

Lemma set_add_In (seen : list string) (a b : string) :
  In b (set_add seen a) <-> In b seen \/ b = a.
Proof.
  unfold set_add. destruct (existsb (String.eqb a) seen) eqn:E.
  - apply (set_has_In seen a) in E. split; [tauto|]. intros [H | ->]; assumption.
  - rewrite in_app_iff. simpl. intuition congruence.
Qed.

Lemma set_add_NoDup (seen : list string) (a : string) :
  NoDup seen -> NoDup (set_add seen a).
Proof.
  intros Hnd. unfold set_add. destruct (existsb (String.eqb a) seen) eqn:E.
  - exact Hnd.
  - apply NoDup_app; [exact Hnd | repeat constructor; intros [] | ].
    intros b Hb [Heq | []]. subst b.
    apply (set_has_In seen a) in Hb. unfold set_has in Hb. congruence.
Qed.

Lemma fold_set_add_In (xs seen : list string) (b : string) :
  In b (fold_left set_add xs seen) <-> In b seen \/ In b xs.
Proof.
  revert seen. induction xs as [|a rest IH]; intros seen; simpl.
  - tauto.
  - rewrite IH, set_add_In. intuition congruence.
Qed.

Lemma fold_set_add_NoDup (xs seen : list string) :
  NoDup seen -> NoDup (fold_left set_add xs seen).
Proof.
  revert seen. induction xs as [|a rest IH]; intros seen Hnd; simpl.
  - exact Hnd.
  - apply IH. now apply set_add_NoDup.
Qed.

Lemma array_from_set_In (xs : list string) (b : string) :
  In b (array_from_set xs) <-> In b xs.
Proof. unfold array_from_set. rewrite fold_set_add_In. simpl. tauto. Qed.

Lemma array_from_set_NoDup (xs : list string) : NoDup (array_from_set xs).
Proof. apply fold_set_add_NoDup. constructor. Qed.

Lemma update_length (st : list Node) (i : ref) (f : Node -> Node) :
  length (update st i f) = length st.
Proof.
  revert i. induction st as [|n rest IH]; intros [|i]; simpl; auto.
Qed.

Lemma update_same (st : list Node) (i : ref) (f : Node -> Node) :
  nth_error (update st i f) i = option_map f (nth_error st i).
Proof.
  revert i. induction st as [|n rest IH]; intros [|i]; simpl; auto.
Qed.

Lemma update_other (st : list Node) (i j : ref) (f : Node -> Node) :
  i <> j -> nth_error (update st i f) j = nth_error st j.
Proof.
  revert i j. induction st as [|n rest IH]; intros [|i] [|j] Hij; simpl; auto.
  congruence.
Qed.

Lemma filter_refs_In (st : list Node) (p : Node -> bool) (xs : list ref) (i : ref) :
  In i (filter_refs st p xs) <->
  In i xs /\ exists n, nth_error st i = Some n /\ p n = true.
Proof.
  unfold filter_refs. rewrite filter_In. split.
  - intros [Hi Hp]. split; [exact Hi|].
    destruct (nth_error st i) as [n|]; [now exists n | discriminate].
  - intros [Hi [n [Hn Hp]]]. split; [exact Hi|]. now rewrite Hn.
Qed.

Lemma filter_refs_NoDup (st : list Node) (p : Node -> bool) (xs : list ref) :
  NoDup xs -> NoDup (filter_refs st p xs).
Proof. intros H. unfold filter_refs. now apply NoDup_filter. Qed.

Lemma all_refs_In (st : list Node) (i : ref) :
  In i (all_refs st) <-> i < length st.
Proof. unfold all_refs. rewrite in_seq. lia. Qed.

Lemma all_refs_NoDup (st : list Node) : NoDup (all_refs st).
Proof. apply seq_NoDup. Qed.

Lemma select_nodes_NoDup (st : list Node) (flt : string) :
  NoDup (select_nodes st flt).
Proof.
  unfold select_nodes. destruct (negb (flt =? "all")).
  - apply filter_refs_NoDup, all_refs_NoDup.
  - apply all_refs_NoDup.
Qed.

Lemma select_nodes_valid (st : list Node) (flt : string) (i : ref) :
  In i (select_nodes st flt) -> i < length st.
Proof.
  unfold select_nodes. destruct (negb (flt =? "all")).
  - intros H. apply filter_refs_In in H. now apply all_refs_In.
  - apply all_refs_In.
Qed.

(** Reading the filtered array back through the store gives the
    filtered node list itself. *)
Lemma map_filter_refs_offset {A : Type} (f : Node -> A) (p : Node -> bool)
  (st pre : list Node) :
  map_refs (pre ++ st) f
    (filter_refs (pre ++ st) p (seq (length pre) (length st)))
  = map f (filter p st).
Proof.
  revert pre. induction st as [|n rest IH]; intros pre; simpl.
  - reflexivity.
  - assert (Hn : nth_error (pre ++ n :: rest) (length pre) = Some n).
    { rewrite nth_error_app2 by lia. now rewrite Nat.sub_diag. }
    assert (Hshift : pre ++ n :: rest = (pre ++ [n]) ++ rest).
    { now rewrite <- app_assoc. }
    assert (Hlen : S (length pre) = length (pre ++ [n])).
    { rewrite length_app. simpl. lia. }
    rewrite Hn. destruct (p n); simpl.
    + rewrite Hn. simpl. f_equal. rewrite Hshift, Hlen. apply IH.
    + rewrite Hshift, Hlen. apply IH.
Qed.

Lemma map_filter_refs {A : Type} (f : Node -> A) (p : Node -> bool)
  (st : list Node) :
  map_refs st f (filter_refs st p (all_refs st)) = map f (filter p st).
Proof. exact (map_filter_refs_offset f p st []). Qed.

Lemma map_all_refs_offset {A : Type} (f : Node -> A) (st pre : list Node) :
  map_refs (pre ++ st) f (seq (length pre) (length st)) = map f st.
Proof.
  revert pre. induction st as [|n rest IH]; intros pre; simpl.
  - reflexivity.
  - rewrite nth_error_app2 by lia. rewrite Nat.sub_diag. simpl. f_equal.
    replace (pre ++ n :: rest) with ((pre ++ [n]) ++ rest)
      by now rewrite <- app_assoc.
    replace (S (length pre)) with (length (pre ++ [n]))
      by (rewrite length_app; simpl; lia).
    apply IH.
Qed.

Lemma map_all_refs {A : Type} (f : Node -> A) (st : list Node) :
  map_refs st f (all_refs st) = map f st.
Proof. exact (map_all_refs_offset f st []). Qed.

(** ** Data adapter *)

Lemma build_nodes_ids (experiments : list Experiment) :
  map id (build_nodes experiments) = map exp_id experiments.
Proof. unfold build_nodes. rewrite map_map. reflexivity. Qed.

(** [C2] Every edge the data adapter emits has its source id and its
    target id among the ids of the nodes built from the same records; a
    related id that matches no record is the target of no edge. The
    adapter is a total function, so such ids are dropped without error. *)
Theorem adapter_edges_not_dangling (experiments : list Experiment) :
  (forall e, In e (build_links experiments) ->
     In (source e) (map id (build_nodes experiments)) /\
     In (target e) (map id (build_nodes experiments)))
  /\ (forall relatedId,
        ~ In relatedId (map id (build_nodes experiments)) ->
        forall e, In e (build_links experiments) -> target e <> relatedId).
Proof.
  assert (Hall : forall e, In e (build_links experiments) ->
            In (source e) (map exp_id experiments) /\
            In (target e) (map exp_id experiments)).
  { unfold build_links.
    apply (forEach_inv (fun ls : list Edge => forall e, In e ls ->
             In (source e) (map exp_id experiments) /\
             In (target e) (map exp_id experiments))).
    - intros exp i ls Hexp Hls.
      destruct (related_of exp) as [rel|]; [|exact Hls].
      apply forEach_inv; [|exact Hls].
      intros relatedId j ls' _ Hls'.
      destruct (js_find _ experiments) as [found|] eqn:Hfind; [|exact Hls'].
      intros e [He | [<- | []]]%in_app_iff; [now apply Hls'|]. simpl.
      apply find_some in Hfind. destruct Hfind as [Hin Heq].
      apply String.eqb_eq in Heq. split.
      + now apply in_map.
      + rewrite <- Heq. now apply in_map.
    - intros e []. }
  rewrite build_nodes_ids. split.
  - exact Hall.
  - intros relatedId Hnot e He Heq. apply Hnot. rewrite <- Heq.
    now apply Hall.
Qed.

Lemma zero_is_falsy (q : Q) : Qeq q 0%Q -> truthy (JNum q) = false.
Proof.
  intros H. simpl. apply Qeq_bool_iff in H. now rewrite H.
Qed.

Lemma js_or_falsy (a b : JsVal) : truthy a = false -> js_or a b = b.
Proof. intros H. unfold js_or. now rewrite H. Qed.

(** [C10] The adapter's defaults trigger on falsy values: a
    [graphData.size] of 0 gives size 15, a [graphData.connections] of 0
    gives connections 3, and an empty-string summary falls through to the
    description, or to the fallback text when the description is falsy
    too; in each case the node built is the one built from the record
    with that field omitted. *)
Theorem adapter_defaults_on_falsy (exp : Experiment) :
  (forall gd q, exp_graphData exp = Some gd -> gd_size gd = JNum q ->
     Qeq q 0%Q ->
     size (node_of_experiment exp) = JNum 15%Q /\
     node_of_experiment exp =
     node_of_experiment
       (set_graphData (Some (mkGraphData JUndefined (gd_connections gd))) exp))
  /\ (forall gd q, exp_graphData exp = Some gd -> gd_connections gd = JNum q ->
        Qeq q 0%Q ->
        connections (node_of_experiment exp) = JNum 3%Q /\
        node_of_experiment exp =
        node_of_experiment
          (set_graphData (Some (mkGraphData (gd_size gd) JUndefined)) exp))
  /\ (exp_summary exp = JStr "" ->
        (truthy (exp_description exp) = true ->
         description (node_of_experiment exp) = exp_description exp) /\
        (truthy (exp_description exp) = false ->
         description (node_of_experiment exp) = JStr "No description available.") /\
        node_of_experiment exp = node_of_experiment (set_summary JUndefined exp)).
Proof.
  split; [|split].
  - intros gd q Hgd Hsize Hq. apply zero_is_falsy in Hq.
    unfold node_of_experiment, set_graphData, opt_chain.
    cbn [exp_id exp_title exp_category exp_status exp_duration exp_mission
         exp_summary exp_description exp_graphData exp_links
         gd_size gd_connections size].
    rewrite Hgd, Hsize, (js_or_falsy _ _ Hq). split; reflexivity.
  - intros gd q Hgd Hconn Hq. apply zero_is_falsy in Hq.
    unfold node_of_experiment, set_graphData, opt_chain.
    cbn [exp_id exp_title exp_category exp_status exp_duration exp_mission
         exp_summary exp_description exp_graphData exp_links
         gd_size gd_connections connections].
    rewrite Hgd, Hconn, (js_or_falsy _ _ Hq). split; reflexivity.
  - intros Hsum. unfold node_of_experiment, set_summary.
    cbn [exp_id exp_title exp_category exp_status exp_duration exp_mission
         exp_summary exp_description exp_graphData exp_links description].
    rewrite Hsum.
    replace (js_or (JStr "") (exp_description exp)) with (exp_description exp)
      by reflexivity.
    replace (js_or JUndefined (exp_description exp)) with (exp_description exp)
      by reflexivity.
    repeat split.
    + intros Ht. unfold js_or. now rewrite Ht.
    + intros Ht. now apply js_or_falsy.
Qed.

(** ** Filter engine *)

Lemma set_has_array_from_set (xs : list string) (i : string) :
  set_has (array_from_set xs) i = set_has xs i.
Proof.
  apply eq_true_iff_eq. rewrite !set_has_In. apply array_from_set_In.
Qed.

(** What lines 75-81 compute on edges whose endpoints are the id strings
    the adapter wrote, as they are until [d3.forceLink] is first given
    them: with filter "all" the full node array and the full edge array,
    unchanged; with a category filter exactly the nodes of that category,
    in order, and exactly the edges whose source and target are both ids
    of nodes of the filtered set. The selection of nodes is the same in
    every state of the program; for the edge objects of the loaded page
    see [category_filter_selects_no_edge]. *)
Lemma select_filter_engine (st : list Node) (ls : list Edge) (flt : string) :
  (flt = "all" ->
     select st ls flt = (all_refs st, ls) /\
     map_refs st (fun n => n) (fst (select st ls flt)) = st)
  /\ (flt <> "all" ->
        let kept := filter (fun n => category n =? flt) st in
        map_refs st (fun n => n) (fst (select st ls flt)) = kept /\
        snd (select st ls flt) =
          filter (fun l => set_has (map id kept) (source l) &&
                           set_has (map id kept) (target l)) ls /\
        forall l, In l (snd (select st ls flt)) <->
                  In l ls /\ In (source l) (map id kept) /\
                  In (target l) (map id kept)).
Proof.
  split.
  - intros ->. unfold select, select_nodes, select_links. simpl.
    split; [reflexivity|]. rewrite map_all_refs. apply map_id.
  - intros Hflt kept. apply String.eqb_neq in Hflt.
    unfold select, select_nodes, select_links. rewrite Hflt. simpl.
    assert (Hfilter : filter (fun l =>
               set_has (array_from_set (map_refs st id
                 (filter_refs st (fun n => category n =? flt) (all_refs st))))
                 (source l) &&
               set_has (array_from_set (map_refs st id
                 (filter_refs st (fun n => category n =? flt) (all_refs st))))
                 (target l)) ls
             = filter (fun l => set_has (map id kept) (source l) &&
                                set_has (map id kept) (target l)) ls).
    { apply filter_ext. intros l.
      now rewrite !set_has_array_from_set, map_filter_refs. }
    split; [|split].
    + rewrite map_filter_refs. apply map_id.
    + exact Hfilter.
    + intros l. rewrite Hfilter, filter_In, andb_true_iff, !set_has_In. tauto.
Qed.

Lemma select_filter_engine_witness :
  "A" <> "all" /\
  map_refs sample_nodes (fun n => n) (fst (select sample_nodes sample_links "A"))
    = [node_of_experiment (sample_experiment "1" "A" (Some ["2"; "3"]));
       node_of_experiment (sample_experiment "3" "A" None)] /\
  snd (select sample_nodes sample_links "A") = [mkEdge "1" "3"].
Proof.
  assert (H : "A" <> "all") by discriminate.
  split; [exact H|].
  destruct (select_filter_engine sample_nodes sample_links "A") as [_ Hcat].
  destruct (Hcat H) as (Hn & Hl & _).
  split; [rewrite Hn | rewrite Hl]; reflexivity.
Defined.

(** ** Drag *)

Lemma dragended_nodes (event : DragEvent) (d : ref) (s : State) :
  nodes (dragended event d s) = nodes s.
Proof.
  unfold dragended, when_idle.
  destruct (active event); [destruct (simulation s)|]; reflexivity.
Qed.

Lemma dragstarted_length (event : DragEvent) (d : ref) (s : State) :
  length (nodes (dragstarted event d s)) = length (nodes s).
Proof.
  unfold dragstarted, when_idle. simpl. rewrite update_length.
  destruct (active event); [destruct (simulation s)|]; reflexivity.
Qed.

Lemma dragged_pins (event : DragEvent) (d : ref) (s : State) (n : Node) :
  nth_error (nodes s) d = Some n ->
  nth_error (nodes (dragged event d s)) d
  = Some (set_pin (Some (ev_x event)) (Some (ev_y event)) n).
Proof.
  intros Hn. unfold dragged. simpl. now rewrite update_same, Hn.
Qed.

(** [C7] Drag-start, drag-move to (px,py) and drag-end on a node leave its
    pin fields at exactly fx = px and fy = py: the drag-end handler
    changes no field of any node. *)
Theorem drag_pin_persists (s : State) (d : ref) (n : Node)
  (start move release : DragEvent) :
  nth_error (nodes s) d = Some n ->
  let s2 := dragged move d (dragstarted start d s) in
  let s3 := dragended release d s2 in
  (forall t, nodes (dragended release d t) = nodes t) /\
  exists n', nth_error (nodes s3) d = Some n' /\
             fx n' = Some (ev_x move) /\ fy n' = Some (ev_y move).
Proof.
  intros Hn s2 s3. split.
  - intros t. apply dragended_nodes.
  - unfold s3. rewrite dragended_nodes.
    assert (Hlt : d < length (nodes (dragstarted start d s))).
    { rewrite dragstarted_length. apply nth_error_Some. congruence. }
    apply nth_error_Some in Hlt.
    destruct (nth_error (nodes (dragstarted start d s)) d) as [n1|] eqn:Hn1;
      [|congruence].
    exists (set_pin (Some (ev_x move)) (Some (ev_y move)) n1).
    split; [|split]; try reflexivity.
    unfold s2. now apply dragged_pins.
Qed.

(** ** Detail view *)

Lemma first_entry_falsy (o : option (list string)) :
  truthy (first_entry o) = false <->
  o = None \/ o = Some [] \/ exists rest, o = Some ("" :: rest).
Proof.
  destruct o as [[|u rest]|]; simpl.
  - split; auto.
  - destruct (String.eqb_spec u ""); simpl; split.
    + intros _. subst. right. right. now exists rest.
    + reflexivity.
    + discriminate.
    + intros [H | [H | [r H]]]; congruence.
  - split; auto.
Qed.

(** [C8], as the code has it: the link action opens the first entry of
    [links.publications] when that entry is a non-empty string; otherwise
    the first entry of [links.datasets] when that one is a non-empty
    string; and when neither list has a non-empty first entry (list
    missing, empty, or starting with the empty string) the button is
    disabled and its handler cleared. *)
Theorem detail_link_resolution (node : Node) :
  (forall u rest, publications (links_of node) = Some (u :: rest) -> u <> "" ->
     btn_onclick (showNodeDetails node) = Some (JStr u) /\
     btn_disabled (showNodeDetails node) = false)
  /\ (forall u rest,
        truthy (first_entry (publications (links_of node))) = false ->
        datasets (links_of node) = Some (u :: rest) -> u <> "" ->
        btn_onclick (showNodeDetails node) = Some (JStr u) /\
        btn_disabled (showNodeDetails node) = false)
  /\ (truthy (first_entry (publications (links_of node))) = false ->
      truthy (first_entry (datasets (links_of node))) = false ->
      btn_onclick (showNodeDetails node) = None /\
      btn_disabled (showNodeDetails node) = true).
Proof.
  unfold showNodeDetails, linkToOpen. split; [|split].
  - intros u rest Hp Hu. apply String.eqb_neq in Hu.
    rewrite Hp. unfold js_or. simpl. rewrite Hu. simpl. rewrite Hu. simpl.
    split; reflexivity.
  - intros u rest Hp Hd Hu. apply String.eqb_neq in Hu.
    rewrite (js_or_falsy _ _ Hp), Hd. simpl. rewrite Hu. simpl.
    split; reflexivity.
  - intros Hp Hd. rewrite (js_or_falsy _ _ Hp), Hd. simpl. split; reflexivity.
Qed.

Lemma detail_link_resolution_witness :
  btn_onclick (showNodeDetails
    (sample_node_with_links
       (mkLinks (Some ["https://pub.example/1"]) (Some ["https://data.example/1"]) None)))
  = Some (JStr "https://pub.example/1").
Proof.
  destruct (detail_link_resolution
              (sample_node_with_links
                 (mkLinks (Some ["https://pub.example/1"])
                    (Some ["https://data.example/1"]) None))) as [Hpub _].
  apply (Hpub "https://pub.example/1" []).
  - reflexivity.
  - discriminate.
Defined.

(** [C8], as stated, fails: a publications list whose first entry is the
    empty string has a first entry, yet the action resolves to the
    dataset link; and with no dataset the button is disabled. *)
Lemma detail_link_empty_publication :
  let node := sample_node_with_links
    (mkLinks (Some [""]) (Some ["https://data.example/1"]) None) in
  let lonely := sample_node_with_links (mkLinks (Some [""]) None None) in
  publications (links_of node) = Some [""] /\
  btn_onclick (showNodeDetails node) = Some (JStr "https://data.example/1") /\
  btn_onclick (showNodeDetails node) <> Some (JStr "") /\
  publications (links_of lonely) = Some [""] /\
  btn_disabled (showNodeDetails lonely) = true.
Proof. simpl. repeat split. discriminate. Qed.

(** ** Loops that mutate the store *)

Section PinLoop.

Variable G : nat -> Node -> Node.

Lemma pin_loop_length (xs : list ref) (i : nat)
  (st : list Node) :
  length (forEach_from i xs (pin_loop G) st) = length st.
Proof.
  apply (forEach_from_inv (fun t => length t = length st)); [|reflexivity].
  intros a k t _ Ht. unfold pin_loop. now rewrite update_length.
Qed.

Lemma pin_loop_other (xs : list ref) (i : nat)
  (st : list Node) (j : ref) :
  ~ In j xs ->
  nth_error (forEach_from i xs (pin_loop G) st) j = nth_error st j.
Proof.
  revert i st. induction xs as [|a rest IH]; intros i st Hj; simpl.
  - reflexivity.
  - rewrite IH by (intros H; apply Hj; now right).
    unfold pin_loop. apply update_other. intros ->. apply Hj. now left.
Qed.

Lemma pin_loop_nth (xs : list ref) (i : nat)
  (st : list Node) (k : nat) (j : ref) :
  NoDup xs -> nth_error xs k = Some j ->
  nth_error (forEach_from i xs (pin_loop G) st) j
  = option_map (G (i + k)) (nth_error st j).
Proof.
  revert i st k. induction xs as [|a rest IH]; intros i st k Hnd Hk.
  - destruct k; discriminate.
  - inversion Hnd as [|? ? Ha Hrest]; subst. destruct k as [|k]; simpl in *.
    + injection Hk as ->. rewrite pin_loop_other by exact Ha.
      unfold pin_loop. rewrite update_same. now rewrite Nat.add_0_r.
    + rewrite (IH (S i) _ k Hrest Hk).
      unfold pin_loop. rewrite update_other.
      * f_equal. f_equal. lia.
      * intros ->. apply Ha. eapply nth_error_In, Hk.
Qed.

End PinLoop.

Lemma set_pin_set_pin (a b c d : option R) (n : Node) :
  set_pin a b (set_pin c d n) = set_pin a b n.
Proof. reflexivity. Qed.

(** The loop of line 85: every listed node loses its pin, no other node
    is touched. *)
Lemma clear_loop_in (xs : list ref) (st : list Node) (j : ref) :
  In j xs ->
  nth_error (forEach xs (fun node _ t => update t node (set_pin None None)) st) j
  = option_map (set_pin None None) (nth_error st j).
Proof.
  unfold forEach. generalize 0. revert st.
  induction xs as [|a rest IH]; intros st i Hj; [destruct Hj|]. simpl.
  destruct (in_dec Nat.eq_dec j rest) as [Hin | Hout].
  - rewrite (IH _ _ Hin). destruct (Nat.eq_dec a j) as [-> | Hne].
    + rewrite update_same. now destruct (nth_error st j).
    + now rewrite update_other.
  - destruct Hj as [-> | Hin]; [|contradiction].
    rewrite (pin_loop_other (fun _ => set_pin None None) rest (S i) _ j Hout).
    apply update_same.
Qed.

Lemma clear_loop_out (xs : list ref) (st : list Node) (j : ref) :
  ~ In j xs ->
  nth_error (forEach xs (fun node _ t => update t node (set_pin None None)) st) j
  = nth_error st j.
Proof. apply (pin_loop_other (fun _ => set_pin None None)). Qed.

Lemma clear_loop_length (xs : list ref) (st : list Node) :
  length (forEach xs (fun node _ t => update t node (set_pin None None)) st)
  = length st.
Proof. apply (pin_loop_length (fun _ => set_pin None None)). Qed.

(** ** Rendered element counts *)

Lemma filter_all (A : Type) (p : A -> bool) (l : list A) :
  (forall a, In a l -> p a = true) -> filter p l = l.
Proof.
  induction l as [|a rest IH]; intros H; simpl; [reflexivity|].
  rewrite (H a) by now left. f_equal. apply IH. intros b Hb. apply H. now right.
Qed.

Lemma filter_none (A : Type) (p : A -> bool) (l : list A) :
  (forall a, In a l -> p a = false) -> filter p l = [].
Proof.
  induction l as [|a rest IH]; intros H; simpl; [reflexivity|].
  rewrite (H a) by now left. apply IH. intros b Hb. apply H. now right.
Qed.

Lemma enter_nodes_In (st : list Node) (mk : ref -> Node -> Element)
  (xs : list ref) (e : Element) :
  In e (enter_nodes st mk xs) -> exists i d, e = mk i d.
Proof.
  unfold enter_nodes. rewrite in_flat_map. intros [i [_ He]].
  destruct (nth_error st i) as [d|]; [|destruct He].
  destruct He as [<- | []]. now exists i, d.
Qed.

Lemma enter_nodes_length (st : list Node) (mk : ref -> Node -> Element)
  (xs : list ref) :
  (forall i, In i xs -> i < length st) ->
  length (enter_nodes st mk xs) = length xs.
Proof.
  induction xs as [|a rest IH]; intros Hvalid; simpl; [reflexivity|].
  assert (Ha : a < length st) by (apply Hvalid; now left).
  apply nth_error_Some in Ha.
  destruct (nth_error st a); [|congruence]. simpl. f_equal.
  apply IH. intros i Hi. apply Hvalid. now right.
Qed.

Lemma count_enter_nodes (p : Element -> bool) (b : bool) (st : list Node)
  (mk : ref -> Node -> Element) (xs : list ref) :
  (forall i d, p (mk i d) = b) ->
  (forall i, In i xs -> i < length st) ->
  length (filter p (enter_nodes st mk xs)) = if b then length xs else 0.
Proof.
  intros Hp Hvalid. destruct b.
  - rewrite filter_all; [now apply enter_nodes_length|].
    intros e He. apply enter_nodes_In in He. destruct He as (i & d & ->). apply Hp.
  - rewrite filter_none; [reflexivity|].
    intros e He. apply enter_nodes_In in He. destruct He as (i & d & ->). apply Hp.
Qed.

Lemma count_lines (p : Element -> bool) (b : bool) (ls : list Edge) :
  (forall l, p (Line l) = b) ->
  length (filter p (map Line ls)) = if b then length ls else 0.
Proof.
  intros Hp. destruct b.
  - rewrite filter_all; [apply length_map|].
    intros e He. apply in_map_iff in He. destruct He as (l & <- & _). apply Hp.
  - rewrite filter_none; [reflexivity|].
    intros e He. apply in_map_iff in He. destruct He as (l & <- & _). apply Hp.
Qed.

Lemma count_groups (p : Element -> bool) (sc : Scene) :
  count_elements p sc = list_sum (map (fun grp => length (filter p grp)) sc).
Proof.
  unfold count_elements. induction sc as [|grp rest IH]; simpl; [reflexivity|].
  now rewrite filter_app, length_app, IH.
Qed.

(** ** What each layout leaves in the state *)

Lemma createForceLayout_nodes (s : State) :
  nodes (createForceLayout s)
  = forEach (select_nodes (nodes s) (currentFilter s))
      (fun node _ t => update t node (set_pin None None)) (nodes s).
Proof. reflexivity. Qed.

Lemma createForceLayout_scene (s : State) :
  let filteredNodes := select_nodes (nodes s) (currentFilter s) in
  let st := nodes (createForceLayout s) in
  g (createForceLayout s)
  = [ map Line (select_links (nodes s) (links s) (currentFilter s));
      enter_nodes st (fun i d => Circle i (size d) None None true) filteredNodes;
      enter_nodes st (fun i d => Text i (label_text (title d)) None None)
        filteredNodes ].
Proof. reflexivity. Qed.

Lemma createForceLayout_simulation (s : State) :
  simulation (createForceLayout s)
  = Some (mkSimulation (select_nodes (nodes s) (currentFilter s))
            (select_links (nodes s) (links s) (currentFilter s))
            (IZR (clientWidth s) / 2, IZR (clientHeight s) / 2)%R 0%R true).
Proof. reflexivity. Qed.

Lemma drawStaticLayout_nodes (xs : list ref) (s : State) :
  nodes (drawStaticLayout xs s) = nodes s.
Proof. reflexivity. Qed.

Lemma drawStaticLayout_scene (xs : list ref) (s : State) :
  g (drawStaticLayout xs s)
  = g s ++
    [ enter_nodes (nodes s) (fun i d => Circle i (size d) (fx d) (fy d) false) xs;
      enter_nodes (nodes s) (fun i d => Text i (label_text (title d)) (fx d) (fy d)) xs ].
Proof.
  unfold drawStaticLayout, append_group. simpl. now rewrite <- app_assoc.
Qed.

Section RandomPinLoop.

Variable F : R -> Node -> Node.

Lemma random_pin_loop_frame (xs : list ref) (i : nat)
  (s : State) :
  let s' := forEach_from i xs (random_pin_loop F) s in
  g s' = g s /\ links s' = links s /\ currentFilter s' = currentFilter s /\
  currentLayout s' = currentLayout s /\ simulation s' = simulation s /\
  random_source s' = random_source s /\
  random_calls s' = random_calls s + length xs /\
  length (nodes s') = length (nodes s).
Proof.
  revert i s. induction xs as [|a rest IH]; intros i s; simpl.
  - repeat split; lia.
  - destruct (IH (S i) (random_pin_loop F a i s))
      as (Hg & Hl & Hf & Hm & Hsim & Hsrc & Hc & Hn).
    simpl in *. rewrite Hg, Hl, Hf, Hm, Hsim, Hsrc, Hc, Hn, update_length.
    repeat split; lia.
Qed.

Lemma random_pin_loop_other (xs : list ref) (i : nat)
  (s : State) (j : ref) :
  ~ In j xs ->
  nth_error (nodes (forEach_from i xs (random_pin_loop F) s)) j
  = nth_error (nodes s) j.
Proof.
  revert i s. induction xs as [|a rest IH]; intros i s Hj; simpl.
  - reflexivity.
  - rewrite IH by (intros H; apply Hj; now right).
    simpl. apply update_other. intros ->. apply Hj. now left.
Qed.

Lemma random_pin_loop_nth (xs : list ref) (i : nat)
  (s : State) (k : nat) (j : ref) :
  NoDup xs -> nth_error xs k = Some j ->
  nth_error (nodes (forEach_from i xs (random_pin_loop F) s)) j
  = option_map (F (random_source s (random_calls s + k))) (nth_error (nodes s) j).
Proof.
  revert i s k. induction xs as [|a rest IH]; intros i s k Hnd Hk.
  - destruct k; discriminate.
  - inversion Hnd as [|? ? Ha Hrest]; subst. destruct k as [|k]; simpl in *.
    + injection Hk as ->. rewrite random_pin_loop_other by exact Ha.
      simpl. rewrite update_same. now rewrite Nat.add_0_r.
    + rewrite (IH (S i) _ k Hrest Hk). simpl.
      rewrite update_other.
      * f_equal. f_equal. f_equal. lia.
      * intros ->. apply Ha. eapply nth_error_In, Hk.
Qed.

End RandomPinLoop.

Lemma createRadialLayout_nodes (s : State) :
  nodes (createRadialLayout s)
  = nodes (forEach (select_nodes (nodes s) (currentFilter s))
             (random_pin_loop
                (radial_position (IZR (clientWidth s) / 2) (IZR (clientHeight s) / 2)
                   (categories_of (nodes s)
                      (select_nodes (nodes s) (currentFilter s)))))
             (remove_all s)).
Proof. reflexivity. Qed.

Lemma createRadialLayout_scene (s : State) :
  let filteredNodes := select_nodes (nodes s) (currentFilter s) in
  let st := nodes (createRadialLayout s) in
  g (createRadialLayout s)
  = [ enter_nodes st (fun i d => Circle i (size d) (fx d) (fy d) false) filteredNodes;
      enter_nodes st (fun i d => Text i (label_text (title d)) (fx d) (fy d))
        filteredNodes ].
Proof.
  intros filteredNodes st. unfold createRadialLayout.
  rewrite drawStaticLayout_scene.
  match goal with |- g (forEach ?xs ?body ?s0) ++ _ = _ =>
    destruct (random_pin_loop_frame
                (radial_position (IZR (clientWidth s) / 2) (IZR (clientHeight s) / 2)
                   (categories_of (nodes s) filteredNodes)) xs 0 s0) as [Hg _];
    unfold forEach; change body with (random_pin_loop
                (radial_position (IZR (clientWidth s) / 2) (IZR (clientHeight s) / 2)
                   (categories_of (nodes s) filteredNodes)));
    rewrite Hg
  end.
  reflexivity.
Qed.

Lemma createHierarchicalLayout_nodes (s : State) :
  let filteredNodes := select_nodes (nodes s) (currentFilter s) in
  let categories := categories_of (nodes s) filteredNodes in
  nodes (createHierarchicalLayout s)
  = forEach categories
      (column_loop (IZR (clientWidth s)) (IZR (clientHeight s))
         (length categories) filteredNodes) (nodes s).
Proof. reflexivity. Qed.

Lemma createHierarchicalLayout_scene (s : State) :
  let filteredNodes := select_nodes (nodes s) (currentFilter s) in
  let st := nodes (createHierarchicalLayout s) in
  g (createHierarchicalLayout s)
  = [ enter_nodes st (fun i d => Circle i (size d) (fx d) (fy d) false) filteredNodes;
      enter_nodes st (fun i d => Text i (label_text (title d)) (fx d) (fy d))
        filteredNodes ].
Proof. reflexivity. Qed.

Lemma createForceLayout_length (s : State) :
  length (nodes (createForceLayout s)) = length (nodes s).
Proof. rewrite createForceLayout_nodes. apply clear_loop_length. Qed.

Lemma createRadialLayout_length (s : State) :
  length (nodes (createRadialLayout s)) = length (nodes s).
Proof.
  rewrite createRadialLayout_nodes. unfold forEach.
  match goal with |- length (nodes (forEach_from 0 ?xs (random_pin_loop ?F) ?s0)) = _ =>
    destruct (random_pin_loop_frame F xs 0 s0) as (_ & _ & _ & _ & _ & _ & _ & H)
  end.
  exact H.
Qed.

Lemma column_loop_length (w h : R) (k : nat) (xs : list ref) (cat : string)
  (i : nat) (st : list Node) :
  length (column_loop w h k xs cat i st) = length st.
Proof. unfold column_loop, forEach. apply pin_loop_length. Qed.

Lemma createHierarchicalLayout_length (s : State) :
  length (nodes (createHierarchicalLayout s)) = length (nodes s).
Proof.
  rewrite createHierarchicalLayout_nodes.
  apply (forEach_inv (fun t => length t = length (nodes s))); [|reflexivity].
  intros cat i t _ Ht. now rewrite column_loop_length.
Qed.

Lemma updateLayout_dispatch (s : State) :
  updateLayout s =
  if currentLayout s =? "force" then createForceLayout (stop_simulation s)
  else if currentLayout s =? "radial" then createRadialLayout (stop_simulation s)
  else if currentLayout s =? "hierarchical"
       then createHierarchicalLayout (stop_simulation s)
  else stop_simulation s.
Proof.
  unfold updateLayout, stop_simulation. destruct (simulation s); reflexivity.
Qed.

Lemma stop_simulation_frame (s : State) :
  nodes (stop_simulation s) = nodes s /\ links (stop_simulation s) = links s /\
  currentFilter (stop_simulation s) = currentFilter s /\
  clientWidth (stop_simulation s) = clientWidth s /\
  clientHeight (stop_simulation s) = clientHeight s /\
  random_source (stop_simulation s) = random_source s /\
  random_calls (stop_simulation s) = random_calls s.
Proof. unfold stop_simulation. destruct (simulation s); repeat split. Qed.

Lemma force_counts (s : State) :
  let s' := createForceLayout s in
  count_elements is_line (g s')
    = length (select_links (nodes s) (links s) (currentFilter s)) /\
  count_elements is_circle (g s')
    = length (select_nodes (nodes s) (currentFilter s)) /\
  count_elements is_text (g s')
    = length (select_nodes (nodes s) (currentFilter s)).
Proof.
  intros s'. unfold s'. rewrite !count_groups, createForceLayout_scene.
  assert (Hvalid : forall i, In i (select_nodes (nodes s) (currentFilter s)) ->
                     i < length (nodes (createForceLayout s))).
  { intros i Hi. rewrite createForceLayout_length.
    now apply select_nodes_valid in Hi. }
  cbn [map list_sum].
  rewrite (count_lines is_line true), (count_lines is_circle false),
    (count_lines is_text false) by reflexivity.
  rewrite (count_enter_nodes is_line false), (count_enter_nodes is_line false),
    (count_enter_nodes is_circle true), (count_enter_nodes is_circle false),
    (count_enter_nodes is_text false), (count_enter_nodes is_text true)
    by (assumption || reflexivity).
  unfold list_sum. cbn [fold_right]. repeat split; lia.
Qed.

Lemma static_scene_counts (st : list Node) (xs : list ref) :
  (forall i, In i xs -> i < length st) ->
  let sc := [ enter_nodes st (fun i d => Circle i (size d) (fx d) (fy d) false) xs;
              enter_nodes st (fun i d => Text i (label_text (title d)) (fx d) (fy d)) xs ] in
  count_elements is_line sc = 0 /\
  count_elements is_circle sc = length xs /\
  count_elements is_text sc = length xs.
Proof.
  intros Hvalid sc. unfold sc. rewrite !count_groups. cbn [map list_sum].
  rewrite (count_enter_nodes is_line false), (count_enter_nodes is_line false),
    (count_enter_nodes is_circle true), (count_enter_nodes is_circle false),
    (count_enter_nodes is_text false), (count_enter_nodes is_text true)
    by (assumption || reflexivity).
  unfold list_sum. cbn [fold_right]. repeat split; lia.
Qed.

Lemma radial_counts (s : State) :
  let s' := createRadialLayout s in
  count_elements is_line (g s') = 0 /\
  count_elements is_circle (g s')
    = length (select_nodes (nodes s) (currentFilter s)) /\
  count_elements is_text (g s')
    = length (select_nodes (nodes s) (currentFilter s)).
Proof.
  intros s'. unfold s'. rewrite createRadialLayout_scene.
  apply static_scene_counts. intros i Hi.
  rewrite createRadialLayout_length. now apply select_nodes_valid in Hi.
Qed.

Lemma hierarchical_counts (s : State) :
  let s' := createHierarchicalLayout s in
  count_elements is_line (g s') = 0 /\
  count_elements is_circle (g s')
    = length (select_nodes (nodes s) (currentFilter s)) /\
  count_elements is_text (g s')
    = length (select_nodes (nodes s) (currentFilter s)).
Proof.
  intros s'. unfold s'. rewrite createHierarchicalLayout_scene.
  apply static_scene_counts. intros i Hi.
  rewrite createHierarchicalLayout_length. now apply select_nodes_valid in Hi.
Qed.

(** ** Layouts write pin fields only *)

Lemma erase_nth (st st' : list Node) (i : ref) :
  map erase st = map erase st' ->
  option_map erase (nth_error st i) = option_map erase (nth_error st' i).
Proof. intros H. rewrite <- !nth_error_map. now rewrite H. Qed.

Lemma erase_length (st st' : list Node) :
  map erase st = map erase st' -> length st = length st'.
Proof. intros H. apply (f_equal (@length Node)) in H. now rewrite !length_map in H. Qed.

Lemma filter_refs_erase (st st' : list Node) (p : Node -> bool) (xs : list ref) :
  map erase st = map erase st' ->
  (forall a b, erase a = erase b -> p a = p b) ->
  filter_refs st p xs = filter_refs st' p xs.
Proof.
  intros H Hp. unfold filter_refs. apply filter_ext. intros i.
  pose proof (erase_nth st st' i H) as Hi.
  destruct (nth_error st i) as [a|], (nth_error st' i) as [b|];
    simpl in Hi; try discriminate; [|reflexivity].
  apply Hp. congruence.
Qed.

Lemma category_erase (c : string) (a b : Node) :
  erase a = erase b -> (category a =? c) = (category b =? c).
Proof. intros H. apply (f_equal category) in H. simpl in H. now rewrite H. Qed.

Lemma select_nodes_erase (st st' : list Node) (flt : string) :
  map erase st = map erase st' -> select_nodes st flt = select_nodes st' flt.
Proof.
  intros H. unfold select_nodes, all_refs. rewrite (erase_length _ _ H).
  destruct (negb (flt =? "all")); [|reflexivity].
  apply filter_refs_erase; [exact H | apply category_erase].
Qed.

Lemma update_erase (st : list Node) (i : ref) (f : Node -> Node) :
  (forall n, erase (f n) = erase n) ->
  map erase (update st i f) = map erase st.
Proof.
  intros Hf. revert i. induction st as [|n rest IH]; intros [|i]; simpl;
    try reflexivity.
  - now rewrite Hf.
  - now rewrite IH.
Qed.

Lemma pin_loop_erase (G : nat -> Node -> Node) (xs : list ref) (i : nat)
  (st : list Node) :
  (forall k n, erase (G k n) = erase n) ->
  map erase (forEach_from i xs (pin_loop G) st) = map erase st.
Proof.
  intros HG.
  apply (forEach_from_inv (fun t => map erase t = map erase st)); [|reflexivity].
  intros a k t _ Ht. unfold pin_loop. rewrite update_erase; [exact Ht | apply HG].
Qed.

Lemma createForceLayout_erase (s : State) :
  map erase (nodes (createForceLayout s)) = map erase (nodes s).
Proof.
  rewrite createForceLayout_nodes.
  apply (pin_loop_erase (fun _ => set_pin None None)). reflexivity.
Qed.

Lemma createRadialLayout_erase (s : State) :
  map erase (nodes (createRadialLayout s)) = map erase (nodes s).
Proof.
  rewrite createRadialLayout_nodes. unfold forEach.
  apply (forEach_from_inv (fun t => map erase (nodes t) = map erase (nodes s)));
    [|reflexivity].
  intros a k t _ Ht. simpl. rewrite update_erase; [exact Ht | reflexivity].
Qed.

Lemma column_loop_erase (w h : R) (k : nat) (xs : list ref) (cat : string)
  (i : nat) (st : list Node) :
  map erase (column_loop w h k xs cat i st) = map erase st.
Proof. unfold column_loop, forEach. apply pin_loop_erase. reflexivity. Qed.

Lemma createHierarchicalLayout_erase (s : State) :
  map erase (nodes (createHierarchicalLayout s)) = map erase (nodes s).
Proof.
  rewrite createHierarchicalLayout_nodes.
  apply (forEach_inv (fun t => map erase t = map erase (nodes s))); [|reflexivity].
  intros cat i t _ Ht. now rewrite column_loop_erase.
Qed.

Lemma updateLayout_erase (s : State) :
  map erase (nodes (updateLayout s)) = map erase (nodes s).
Proof.
  rewrite updateLayout_dispatch.
  destruct (stop_simulation_frame s) as (Hn & _).
  destruct (currentLayout s =? "force");
    [rewrite createForceLayout_erase; now rewrite Hn|].
  destruct (currentLayout s =? "radial");
    [rewrite createRadialLayout_erase; now rewrite Hn|].
  destruct (currentLayout s =? "hierarchical");
    [rewrite createHierarchicalLayout_erase; now rewrite Hn|].
  now rewrite Hn.
Qed.

Lemma updateLayout_filter (s : State) :
  currentFilter (updateLayout s) = currentFilter s /\
  links (updateLayout s) = links s.
Proof.
  rewrite updateLayout_dispatch.
  destruct (stop_simulation_frame s) as (_ & Hl & Hf & _).
  destruct (currentLayout s =? "force"); [now split|].
  destruct (currentLayout s =? "radial").
  - unfold createRadialLayout.
    match goal with |- context [forEach ?xs ?body ?s0] =>
      destruct (random_pin_loop_frame
                  (radial_position (IZR (clientWidth (stop_simulation s)) / 2)
                     (IZR (clientHeight (stop_simulation s)) / 2)
                     (categories_of (nodes (stop_simulation s)) xs)) xs 0 s0)
        as (_ & Hl' & Hf' & _)
    end.
    split; [exact (eq_trans Hf' Hf) | exact (eq_trans Hl' Hl)].
  - destruct (currentLayout s =? "hierarchical"); now split.
Qed.

(** ** Render pipeline on a layout switch *)

Lemma on_layout_change_counts (mode : string) (s : State) :
  let s' := on_layout_change mode s in
  let filteredNodes := select_nodes (nodes s) (currentFilter s) in
  let filteredLinks := select_links (nodes s) (links s) (currentFilter s) in
  (mode = "force" ->
     count_elements is_line (g s') = length filteredLinks /\
     count_elements is_circle (g s') = length filteredNodes /\
     count_elements is_text (g s') = length filteredNodes)
  /\ (mode = "radial" \/ mode = "hierarchical" ->
        count_elements is_line (g s') = 0 /\
        count_elements is_circle (g s') = length filteredNodes /\
        count_elements is_text (g s') = length filteredNodes).
Proof.
  intros s' filteredNodes filteredLinks. unfold s', on_layout_change.
  rewrite updateLayout_dispatch.
  destruct (stop_simulation_frame (with_layout mode s)) as (Hn & Hl & Hf & _).
  change (nodes (with_layout mode s)) with (nodes s) in Hn.
  change (links (with_layout mode s)) with (links s) in Hl.
  change (currentFilter (with_layout mode s)) with (currentFilter s) in Hf.
  change (currentLayout (with_layout mode s)) with mode.
  unfold filteredNodes, filteredLinks. rewrite <- Hn, <- Hl, <- Hf.
  split.
  - intros ->. apply force_counts.
  - intros [-> | ->]; [apply radial_counts | apply hierarchical_counts].
Qed.

(** [C4] evaluated on the sample data: the force layout renders the two
    filtered edges, and after a switch to the radial or to the
    hierarchical layout the scene holds three circles and three labels
    but no edge element, although the filtered edge set still has two
    edges. *)
Theorem static_layouts_render_no_edges :
  let radial := on_layout_change "radial" sample_state in
  let hierarchical := on_layout_change "hierarchical" sample_state in
  length (select_links (nodes sample_state) (links sample_state)
            (currentFilter sample_state)) = 2 /\
  count_elements is_line (g (on_layout_change "force" sample_state)) = 2 /\
  (count_elements is_line (g radial) = 0 /\
   count_elements is_circle (g radial) = 3 /\
   count_elements is_text (g radial) = 3) /\
  (count_elements is_line (g hierarchical) = 0 /\
   count_elements is_circle (g hierarchical) = 3 /\
   count_elements is_text (g hierarchical) = 3).
Proof.
  intros radial hierarchical.
  assert (Hl : length (select_links (nodes sample_state) (links sample_state)
                         (currentFilter sample_state)) = 2) by reflexivity.
  assert (Hn : length (select_nodes (nodes sample_state)
                         (currentFilter sample_state)) = 3) by reflexivity.
  split; [exact Hl|]. split; [|split].
  - destruct (on_layout_change_counts "force" sample_state) as [Hforce _].
    destruct (Hforce eq_refl) as (H & _). now rewrite H.
  - destruct (on_layout_change_counts "radial" sample_state) as [_ Hstatic].
    destruct (Hstatic (or_introl eq_refl)) as (H0 & H1 & H2).
    unfold radial. now rewrite H0, H1, H2.
  - destruct (on_layout_change_counts "hierarchical" sample_state) as [_ Hstatic].
    destruct (Hstatic (or_intror eq_refl)) as (H0 & H1 & H2).
    unfold hierarchical. now rewrite H0, H1, H2.
Qed.

(** ** Empty filtered set *)

Lemma select_links_empty (st : list Node) (ls : list Edge) (flt : string) :
  select_nodes st flt = [] ->
  (forall l, In l ls -> In (source l) (map id st)) ->
  select_links st ls flt = [].
Proof.
  unfold select_nodes, select_links. intros Hempty Hclosed.
  destruct (negb (flt =? "all")).
  - rewrite Hempty. simpl. apply filter_none. reflexivity.
  - unfold all_refs in Hempty. destruct st as [|n rest]; [|discriminate].
    destruct ls as [|l rest]; [reflexivity|].
    destruct (Hclosed l (or_introl eq_refl)).
Qed.

(** [C9] When the filtered node set is empty, each of the three layouts
    leaves every node as it was (no node is positioned) and draws a scene
    with no circle and no label; the static layouts draw no edge either,
    and neither does the force layout when every edge starts at a node of
    the store, as the adapter's edges do. The category array is then
    empty, so the radial angle step divides by zero; the layouts are
    total functions and the value is never used. *)
Theorem empty_filter_empty_layout (s : State) :
  select_nodes (nodes s) (currentFilter s) = [] ->
  categories_of (nodes s) (select_nodes (nodes s) (currentFilter s)) = [] /\
  (nodes (createForceLayout s) = nodes s /\
   count_elements is_circle (g (createForceLayout s)) = 0 /\
   count_elements is_text (g (createForceLayout s)) = 0 /\
   ((forall l, In l (links s) -> In (source l) (map id (nodes s))) ->
    count_elements is_line (g (createForceLayout s)) = 0)) /\
  (nodes (createRadialLayout s) = nodes s /\
   count_elements is_line (g (createRadialLayout s)) = 0 /\
   count_elements is_circle (g (createRadialLayout s)) = 0 /\
   count_elements is_text (g (createRadialLayout s)) = 0) /\
  (nodes (createHierarchicalLayout s) = nodes s /\
   count_elements is_line (g (createHierarchicalLayout s)) = 0 /\
   count_elements is_circle (g (createHierarchicalLayout s)) = 0 /\
   count_elements is_text (g (createHierarchicalLayout s)) = 0).
Proof.
  intros Hempty.
  destruct (force_counts s) as (F0 & F1 & F2).
  destruct (radial_counts s) as (R0 & R1 & R2).
  destruct (hierarchical_counts s) as (H0 & H1 & H2).
  rewrite Hempty in *. simpl in F1, F2, R1, R2, H1, H2.
  split; [reflexivity|]. split; [|split].
  - split; [|split; [exact F1|split; [exact F2|]]].
    + rewrite createForceLayout_nodes, Hempty. reflexivity.
    + intros Hclosed. rewrite F0.
      now rewrite (select_links_empty _ _ _ Hempty Hclosed).
  - split; [|split; [exact R0|split; [exact R1|exact R2]]].
    rewrite createRadialLayout_nodes, Hempty. reflexivity.
  - split; [|split; [exact H0|split; [exact H1|exact H2]]].
    rewrite createHierarchicalLayout_nodes, Hempty. reflexivity.
Qed.

Lemma empty_filter_empty_layout_witness :
  let s := with_filter "other" sample_state in
  select_nodes (nodes s) (currentFilter s) = [] /\
  nodes (createRadialLayout s) = nodes s /\
  count_elements is_circle (g (createHierarchicalLayout s)) = 0 /\
  count_elements is_line (g (createForceLayout s)) = 0.
Proof.
  intros s.
  assert (Hempty : select_nodes (nodes s) (currentFilter s) = []) by reflexivity.
  assert (Hclosed : forall l, In l (links s) -> In (source l) (map id (nodes s))).
  { intros l [<- | [<- | []]]; simpl; tauto. }
  destruct (empty_filter_empty_layout s Hempty)
    as (_ & (_ & _ & _ & Hf) & (Hr & _) & (_ & _ & Hh & _)).
  split; [exact Hempty|]. split; [exact Hr|]. split; [exact Hh|].
  exact (Hf Hclosed).
Defined.

(** ** Frame equations of the state setters *)

Lemma nodes_with_layout (l : string) (t : State) :
  nodes (with_layout l t) = nodes t.
Proof. reflexivity. Qed.

Lemma currentFilter_with_layout (l : string) (t : State) :
  currentFilter (with_layout l t) = currentFilter t.
Proof. reflexivity. Qed.

Lemma nodes_with_filter (f : string) (t : State) :
  nodes (with_filter f t) = nodes t.
Proof. reflexivity. Qed.

Lemma nodes_with_viewport (w h : Z) (t : State) :
  nodes (with_viewport w h t) = nodes t.
Proof. reflexivity. Qed.

Lemma currentFilter_with_viewport (w h : Z) (t : State) :
  currentFilter (with_viewport w h t) = currentFilter t.
Proof. reflexivity. Qed.

Lemma nodes_stop_simulation (t : State) : nodes (stop_simulation t) = nodes t.
Proof. apply stop_simulation_frame. Qed.

Lemma currentFilter_stop_simulation (t : State) :
  currentFilter (stop_simulation t) = currentFilter t.
Proof. apply stop_simulation_frame. Qed.

Lemma on_layout_change_filter (mode : string) (t : State) :
  currentFilter (on_layout_change mode t) = currentFilter t.
Proof. unfold on_layout_change. now destruct (updateLayout_filter (with_layout mode t)). Qed.

Lemma on_layout_change_erase (mode : string) (t : State) :
  map erase (nodes (on_layout_change mode t)) = map erase (nodes t).
Proof. unfold on_layout_change. now rewrite updateLayout_erase. Qed.

Lemma on_filter_change_erase (f : string) (t : State) :
  map erase (nodes (on_filter_change f t)) = map erase (nodes t).
Proof. unfold on_filter_change. now rewrite updateLayout_erase. Qed.

Lemma on_filter_change_filter (f : string) (t : State) :
  currentFilter (on_filter_change f t) = f.
Proof. unfold on_filter_change. now destruct (updateLayout_filter (with_filter f t)). Qed.

Lemma sample_state_erase : map erase (nodes sample_state) = map erase sample_nodes.
Proof. reflexivity. Qed.

(** ** Restart of the force layout *)

(** [C3], as the code has it: on every (re)start of the force layout,
    also when [updateLayout] is reached by a switch of the layout mode to
    force, every node of the current filtered set has fx and fy set to
    null and these nodes are the ones handed to the new, running
    simulation. There is no exception for a node that is being dragged;
    its next drag-move event pins it again at the pointer. A node outside
    the filtered set keeps its pin fields. *)
Theorem force_restart_clears_filtered_pins (s : State) :
  currentLayout s = "force" ->
  let filteredNodes := select_nodes (nodes s) (currentFilter s) in
  let s' := updateLayout s in
  (forall i n, In i filteredNodes -> nth_error (nodes s) i = Some n ->
     nth_error (nodes s') i = Some (set_pin None None n))
  /\ (forall i, ~ In i filteredNodes ->
        nth_error (nodes s') i = nth_error (nodes s) i)
  /\ (exists sim, simulation s' = Some sim /\ sim_nodes sim = filteredNodes /\
                  sim_running sim = true)
  /\ (forall move d n, nth_error (nodes s') d = Some n ->
        nth_error (nodes (dragged move d s')) d
        = Some (set_pin (Some (ev_x move)) (Some (ev_y move)) n)).
Proof.
  intros Hmode filteredNodes s'. unfold s', filteredNodes.
  rewrite updateLayout_dispatch, Hmode, String.eqb_refl.
  destruct (stop_simulation_frame s) as (Hn & _ & Hf & _).
  rewrite createForceLayout_nodes, createForceLayout_simulation, Hn, Hf.
  split; [|split; [|split]].
  - intros i n Hi Hnode. now rewrite clear_loop_in, Hnode.
  - intros i Hi. now apply clear_loop_out.
  - eexists. repeat split.
  - intros move d n Hnode. rewrite <- Hn, <- Hf, <- createForceLayout_nodes in Hnode.
    now apply dragged_pins.
Qed.

Lemma force_restart_clears_filtered_pins_witness :
  let s := with_layout "force" (on_layout_change "radial" sample_state) in
  currentLayout s = "force" /\
  exists n, nth_error (nodes (updateLayout s)) 0 = Some n /\
            fx n = None /\ fy n = None.
Proof.
  intros s. split; [reflexivity|].
  destruct (force_restart_clears_filtered_pins s eq_refl) as (Hin & _).
  assert (Hlen : 0 < length (nodes s)).
  { unfold s. rewrite nodes_with_layout.
    rewrite (erase_length _ _ (on_layout_change_erase _ _)).
    rewrite (erase_length _ _ sample_state_erase). simpl. lia. }
  apply nth_error_Some in Hlen.
  destruct (nth_error (nodes s) 0) as [n|] eqn:Hn; [|congruence].
  exists (set_pin None None n). repeat split.
  apply (Hin 0 n); [|exact Hn].
  unfold s. rewrite nodes_with_layout, currentFilter_with_layout.
  rewrite (select_nodes_erase _ _ _ (on_layout_change_erase _ _)).
  rewrite (select_nodes_erase _ _ _ sample_state_erase).
  rewrite on_layout_change_filter.
  replace (currentFilter sample_state) with "all" by reflexivity.
  simpl. tauto.
Defined.

(** ** Category arrays *)

Lemma filter_filter (A : Type) (p q : A -> bool) (l : list A) :
  filter p (filter q l) = filter (fun a => q a && p a) l.
Proof.
  induction l as [|a rest IH]; simpl; [reflexivity|].
  destruct (q a); simpl; [destruct (p a)|]; now rewrite IH.
Qed.

Lemma fold_set_add_first_seen (xs seen : list string) :
  fold_left set_add xs seen
  = seen ++ filter (fun y => negb (set_has seen y)) (first_seen xs).
Proof.
  revert seen. induction xs as [|a rest IH]; intros seen; simpl.
  - now rewrite app_nil_r.
  - rewrite IH, filter_filter. unfold set_add.
    fold (set_has seen a). destruct (set_has seen a) eqn:Ha; simpl.
    + f_equal. apply filter_ext. intros y.
      destruct (String.eqb_spec y a) as [-> | Hne]; simpl.
      * now rewrite Ha.
      * reflexivity.
    + rewrite <- app_assoc. simpl. f_equal. f_equal. apply filter_ext. intros y.
      unfold set_has. rewrite existsb_app. simpl. rewrite orb_false_r.
      rewrite negb_orb, andb_comm. reflexivity.
Qed.

(** The spread of [new Set(xs)] lists the distinct values of [xs] in
    first-seen order. *)
Lemma array_from_set_first_seen (xs : list string) :
  array_from_set xs = first_seen xs.
Proof.
  unfold array_from_set. rewrite fold_set_add_first_seen. simpl.
  apply filter_all. reflexivity.
Qed.

Lemma indexOf_from_nth (xs : list string) (i : Z) (k : nat) (c : string) :
  NoDup xs -> nth_error xs k = Some c ->
  indexOf_from i xs c = (i + Z.of_nat k)%Z.
Proof.
  revert i k. induction xs as [|a rest IH]; intros i k Hnd Hk.
  - destruct k; discriminate.
  - inversion Hnd as [|? ? Ha Hrest]; subst. destruct k as [|k]; simpl in *.
    + injection Hk as ->. rewrite String.eqb_refl. lia.
    + destruct (String.eqb_spec a c) as [-> | Hne].
      * exfalso. apply Ha. eapply nth_error_In, Hk.
      * rewrite (IH (i + 1)%Z k Hrest Hk). lia.
Qed.

Lemma map_refs_In {A : Type} (st : list Node) (f : Node -> A) (xs : list ref)
  (a : A) :
  In a (map_refs st f xs) <->
  exists i n, In i xs /\ nth_error st i = Some n /\ a = f n.
Proof.
  unfold map_refs. rewrite in_flat_map. split.
  - intros [i [Hi Ha]]. destruct (nth_error st i) as [n|] eqn:Hn; [|destruct Ha].
    destruct Ha as [<- | []]. now exists i, n.
  - intros (i & n & Hi & Hn & ->). exists i. split; [exact Hi|].
    rewrite Hn. now left.
Qed.

Lemma categories_of_NoDup (st : list Node) (xs : list ref) :
  NoDup (categories_of st xs).
Proof. apply array_from_set_NoDup. Qed.

Lemma categories_of_In (st : list Node) (xs : list ref) (c : string) :
  In c (categories_of st xs) <->
  exists i n, In i xs /\ nth_error st i = Some n /\ category n = c.
Proof.
  unfold categories_of. rewrite array_from_set_In, map_refs_In.
  split; intros (i & n & Hi & Hn & Hc); exists i, n; repeat split; congruence.
Qed.

(** ** Radial layout *)

Lemma createRadialLayout_placed (s : State) (k : nat) (i : ref) :
  let filteredNodes := select_nodes (nodes s) (currentFilter s) in
  nth_error filteredNodes k = Some i ->
  nth_error (nodes (createRadialLayout s)) i
  = option_map
      (radial_position (IZR (clientWidth s) / 2) (IZR (clientHeight s) / 2)
         (categories_of (nodes s) filteredNodes)
         (random_source s (random_calls s + k)))
      (nth_error (nodes s) i).
Proof.
  intros filteredNodes Hk. rewrite createRadialLayout_nodes. unfold forEach.
  rewrite (random_pin_loop_nth _ _ 0 _ k i); [reflexivity | | exact Hk].
  apply select_nodes_NoDup.
Qed.

Lemma createRadialLayout_unplaced (s : State) (i : ref) :
  ~ In i (select_nodes (nodes s) (currentFilter s)) ->
  nth_error (nodes (createRadialLayout s)) i = nth_error (nodes s) i.
Proof.
  intros Hi. rewrite createRadialLayout_nodes. unfold forEach.
  now rewrite random_pin_loop_other.
Qed.

Lemma radial_angle_index (cats : list string) (n : Node) (c : nat) :
  NoDup cats -> nth_error cats c = Some (category n) ->
  radial_angle cats n = (INR c * (2 * PI / INR (length cats)))%R.
Proof.
  intros Hnd Hc. unfold radial_angle, indexOf.
  rewrite (indexOf_from_nth cats 0 c _ Hnd Hc). simpl.
  now rewrite <- INR_IZR_INZ.
Qed.

Lemma angle_step_nonzero (k : nat) : 0 < k -> (2 * PI / INR k)%R <> 0%R.
Proof.
  intros Hk. apply Rgt_not_eq. apply Rdiv_lt_0_compat.
  - pose proof PI_RGT_0. lra.
  - now apply lt_0_INR.
Qed.

(** [C6] The radial layout numbers the distinct categories of the filtered
    set in first-seen order, gives a node of the category with index c the
    angle c * (2π/k), and pins it at the viewport centre plus
    (distance·cos(angle), distance·sin(angle)) with distance = 200 +
    jitter, jitter in [0,100) being 100 times the value [Math.random]
    returned for that node. The angles assigned are exactly the k values
    c * (2π/k) for c < k; they are pairwise distinct and consecutive ones
    differ by 2π/k, however many nodes share a category. *)
Theorem radial_layout_angles (s : State) :
  (forall m, (0 <= random_source s m < 1)%R) ->
  let filteredNodes := select_nodes (nodes s) (currentFilter s) in
  let categories := categories_of (nodes s) filteredNodes in
  let k := length categories in
  let angleStep := (2 * PI / INR k)%R in
  let centerX := (IZR (clientWidth s) / 2)%R in
  let centerY := (IZR (clientHeight s) / 2)%R in
  let s' := createRadialLayout s in
  categories = first_seen (map_refs (nodes s) category filteredNodes)
  /\ (forall j i n,
        nth_error filteredNodes j = Some i -> nth_error (nodes s) i = Some n ->
        exists c jitter n',
          nth_error categories c = Some (category n) /\
          radial_angle categories n = (INR c * angleStep)%R /\
          (0 <= jitter < 100)%R /\
          nth_error (nodes s') i = Some n' /\
          fx n' = Some (centerX + (200 + jitter) * cos (INR c * angleStep))%R /\
          fy n' = Some (centerY + (200 + jitter) * sin (INR c * angleStep))%R)
  /\ (forall a,
        In a (map_refs (nodes s) (radial_angle categories) filteredNodes) <->
        exists c, c < k /\ a = (INR c * angleStep)%R)
  /\ (forall c c', c < k -> c' < k ->
        (INR c * angleStep)%R = (INR c' * angleStep)%R -> c = c')
  /\ (forall c, (INR (S c) * angleStep - INR c * angleStep)%R = angleStep).
Proof.
  intros Hrandom filteredNodes categories k angleStep centerX centerY s'.
  pose proof (categories_of_NoDup (nodes s) filteredNodes) as Hnd.
  fold categories in Hnd.
  assert (Hindex : forall i n, In i filteredNodes -> nth_error (nodes s) i = Some n ->
            exists c, nth_error categories c = Some (category n) /\
                      radial_angle categories n = (INR c * angleStep)%R).
  { intros i n Hi Hn.
    assert (Hc : In (category n) categories).
    { apply categories_of_In. now exists i, n. }
    apply In_nth_error in Hc. destruct Hc as [c Hc]. exists c.
    split; [exact Hc | now apply radial_angle_index]. }
  split; [apply array_from_set_first_seen|]. split; [|split; [|split]].
  - intros j i n Hj Hn.
    destruct (Hindex i n (nth_error_In _ _ Hj) Hn) as (c & Hc & Hangle).
    exists c, (random_source s (random_calls s + j) * 100)%R.
    eexists. split; [exact Hc|]. split; [exact Hangle|].
    split; [specialize (Hrandom (random_calls s + j)); lra|].
    split.
    + unfold s'. rewrite (createRadialLayout_placed s j i Hj), Hn. reflexivity.
    + unfold radial_position. fold filteredNodes. fold categories.
      rewrite Hangle. split; reflexivity.
  - intros a. rewrite map_refs_In. split.
    + intros (i & n & Hi & Hn & ->).
      destruct (Hindex i n Hi Hn) as (c & Hc & Hangle).
      exists c. split; [|exact Hangle].
      apply nth_error_Some. unfold categories in Hc. fold categories in Hc. congruence.
    + intros (c & Hc & ->).
      apply nth_error_Some in Hc.
      destruct (nth_error categories c) as [cat|] eqn:Hcat; [|congruence].
      assert (Hin : In cat categories) by (eapply nth_error_In, Hcat).
      apply categories_of_In in Hin. destruct Hin as (i & n & Hi & Hn & <-).
      exists i, n. repeat split; try assumption.
      symmetry. now apply radial_angle_index.
  - intros c c' Hc _ Heq.
    apply Rmult_eq_reg_r in Heq; [now apply INR_eq|].
    apply angle_step_nonzero. lia.
  - intros c. rewrite S_INR. ring.
Qed.

Lemma radial_layout_angles_witness :
  (forall m, (0 <= random_source sample_state m < 1)%R) /\
  exists c jitter n',
    nth_error (categories_of (nodes sample_state)
                 (select_nodes (nodes sample_state) (currentFilter sample_state))) c
      = Some "B" /\
    (0 <= jitter < 100)%R /\
    nth_error (nodes (createRadialLayout sample_state)) 1 = Some n' /\
    fx n' = Some (IZR (clientWidth sample_state) / 2
                  + (200 + jitter)
                    * cos (INR c * (2 * PI / INR (length
                        (categories_of (nodes sample_state)
                           (select_nodes (nodes sample_state)
                              (currentFilter sample_state)))))))%R.
Proof.
  assert (Hrandom : forall m, (0 <= random_source sample_state m < 1)%R).
  { intros m. replace (random_source sample_state m) with 0%R by reflexivity. lra. }
  split; [exact Hrandom|].
  destruct (radial_layout_angles sample_state Hrandom) as (_ & Hplaced & _).
  destruct (Hplaced 1 1 _ eq_refl eq_refl)
    as (c & jitter & n' & Hc & _ & Hj & Hn & Hfx & _).
  exists c, jitter, n'. repeat split; try assumption; apply Hj.
Defined.

(** ** Hierarchical layout *)

Lemma erase_lookup (st st0 : list Node) (i : ref) (n0 : Node) :
  map erase st = map erase st0 -> nth_error st0 i = Some n0 ->
  exists n, nth_error st i = Some n /\ erase n = erase n0.
Proof.
  intros H Hn0. pose proof (erase_nth st st0 i H) as Hi. rewrite Hn0 in Hi.
  destruct (nth_error st i) as [n|]; [|discriminate].
  exists n. split; [reflexivity|]. simpl in Hi. congruence.
Qed.

(** The outer loop over the categories [cs] still to be laid out, started
    at column [i] on a store [st] that differs from the original store
    [st0] in pin fields only. *)
Lemma column_loops (w h : R) (k : nat) (xs : list ref) (st0 : list Node)
  (cs : list string) :
  NoDup xs ->
  forall i st, NoDup cs -> map erase st = map erase st0 ->
  let st' := forEach_from i cs (column_loop w h k xs) st in
  (forall j r n0 row,
     nth_error cs j = Some (category n0) -> nth_error st0 r = Some n0 ->
     nth_error (filter_refs st0 (fun n => category n =? category n0) xs) row = Some r ->
     exists n', nth_error st' r = Some n' /\
       fx n' = Some (w / INR (k + 1) * INR (i + j + 1))%R /\
       fy n' = Some (h / INR (length (filter_refs st0
                                        (fun n => category n =? category n0) xs) + 1)
                     * INR (row + 1))%R)
  /\ (forall r,
        ~ In r xs \/ (forall n0, nth_error st0 r = Some n0 -> ~ In (category n0) cs) ->
        nth_error st' r = nth_error st r).
Proof.
  intros Hxs. induction cs as [|c cs' IH]; intros i st Hcs Hst st'.
  - split.
    + intros [|j] r n0 row Hj; discriminate.
    + reflexivity.
  - inversion Hcs as [|? ? Hc Hcs']; subst.
    set (st1 := column_loop w h k xs c i st).
    assert (Hst1 : map erase st1 = map erase st0).
    { unfold st1. now rewrite column_loop_erase. }
    assert (Hmembers : filter_refs st (fun n => category n =? c) xs
                       = filter_refs st0 (fun n => category n =? c) xs).
    { apply filter_refs_erase; [exact Hst | apply category_erase]. }
    destruct (IH (S i) st1 Hcs' Hst1) as [IHplaced IHother].
    unfold st'. simpl. fold st1. split.
    + intros [|j] r n0 row Hj Hn0 Hrow; simpl in Hj.
      * injection Hj as ->.
        rewrite (IHother r) by (right; intros m Hm; congruence).
        destruct (erase_lookup st st0 r n0 Hst Hn0) as (n & Hn & _).
        unfold st1, column_loop, forEach. rewrite Hmembers.
        rewrite (pin_loop_nth _ _ 0 st row r);
          [ | now apply filter_refs_NoDup | exact Hrow ].
        rewrite Hn. simpl. eexists. split; [reflexivity|].
        split; simpl; rewrite ?Nat.add_0_r; reflexivity.
      * destruct (IHplaced j r n0 row Hj Hn0 Hrow) as (n' & Hn' & Hfx & Hfy).
        exists n'. split; [exact Hn'|]. split; [|exact Hfy].
        rewrite Hfx. replace (S i + j + 1) with (i + S j + 1) by lia.
        reflexivity.
    + intros r Hr. rewrite (IHother r).
      * unfold st1, column_loop, forEach. apply pin_loop_other.
        rewrite Hmembers. intros Hin. apply filter_refs_In in Hin.
        destruct Hin as (Hin & n0 & Hn0 & Hcat). apply String.eqb_eq in Hcat.
        destruct Hr as [Hr | Hr]; [contradiction|].
        apply (Hr n0 Hn0). left. now symmetry.
      * destruct Hr as [Hr | Hr]; [now left | right].
        intros n0 Hn0 Hin. apply (Hr n0 Hn0). now right.
Qed.

Lemma createHierarchicalLayout_placed (s : State) (i : ref) (n : Node) :
  let filteredNodes := select_nodes (nodes s) (currentFilter s) in
  let categories := categories_of (nodes s) filteredNodes in
  let members :=
    filter_refs (nodes s) (fun m => category m =? category n) filteredNodes in
  In i filteredNodes -> nth_error (nodes s) i = Some n ->
  exists c row n',
    nth_error categories c = Some (category n) /\
    nth_error members row = Some i /\
    nth_error (nodes (createHierarchicalLayout s)) i = Some n' /\
    category n' = category n /\
    fx n' = Some (IZR (clientWidth s) / INR (length categories + 1)
                  * INR (c + 1))%R /\
    fy n' = Some (IZR (clientHeight s) / INR (length members + 1)
                  * INR (row + 1))%R.
Proof.
  intros filteredNodes categories members Hi Hn.
  assert (Hc : In (category n) categories).
  { apply categories_of_In. now exists i, n. }
  apply In_nth_error in Hc. destruct Hc as [c Hc].
  assert (Hrow : In i members).
  { apply filter_refs_In. split; [exact Hi|]. exists n.
    split; [exact Hn | apply String.eqb_refl]. }
  apply In_nth_error in Hrow. destruct Hrow as [row Hrow].
  destruct (column_loops (IZR (clientWidth s)) (IZR (clientHeight s))
              (length categories) filteredNodes (nodes s) categories
              (select_nodes_NoDup _ _) 0 (nodes s)
              (categories_of_NoDup _ _) eq_refl) as [Hplaced _].
  destruct (Hplaced c i n row Hc Hn Hrow) as (n' & Hn' & Hfx & Hfy).
  exists c, row, n'. rewrite createHierarchicalLayout_nodes.
  repeat split; try assumption.
  pose proof (createHierarchicalLayout_erase s) as He.
  rewrite createHierarchicalLayout_nodes in He.
  destruct (erase_lookup _ _ i n He Hn) as (m & Hm & Hmn).
  fold filteredNodes in Hm. fold categories in Hm. unfold forEach in Hm.
  rewrite Hn' in Hm. injection Hm as ->.
  apply (f_equal category) in Hmn. exact Hmn.
Qed.

Lemma createHierarchicalLayout_unplaced (s : State) (i : ref) :
  ~ In i (select_nodes (nodes s) (currentFilter s)) ->
  nth_error (nodes (createHierarchicalLayout s)) i = nth_error (nodes s) i.
Proof.
  intros Hi. rewrite createHierarchicalLayout_nodes.
  destruct (column_loops (IZR (clientWidth s)) (IZR (clientHeight s))
              (length (categories_of (nodes s)
                         (select_nodes (nodes s) (currentFilter s))))
              (select_nodes (nodes s) (currentFilter s)) (nodes s)
              (categories_of (nodes s) (select_nodes (nodes s) (currentFilter s)))
              (select_nodes_NoDup _ _) 0 (nodes s)
              (categories_of_NoDup _ _) eq_refl) as [_ Hother].
  apply Hother. now left.
Qed.

Lemma row_height_nonzero (h : Z) (m : nat) :
  h <> 0%Z -> (IZR h / INR (m + 1))%R <> 0%R.
Proof.
  intros Hh. unfold Rdiv. apply Rmult_integral_contrapositive_currified.
  - now apply not_0_IZR.
  - apply Rinv_neq_0_compat, not_0_INR. lia.
Qed.

(** [C5], as the code has it: the hierarchical layout numbers the distinct
    categories of the filtered set in first-seen order and pins a node of
    the category with column index c at x = width/(k+1) * (c+1), and the
    member with row index r of a category with m members at
    y = height/(m+1) * (r+1). Nodes sharing a category get the same x;
    when the viewport height is not zero, two different nodes of one
    category get different y. *)
Theorem hierarchical_layout_grid (s : State) :
  let filteredNodes := select_nodes (nodes s) (currentFilter s) in
  let categories := categories_of (nodes s) filteredNodes in
  let k := length categories in
  let members c := filter_refs (nodes s) (fun m => category m =? c) filteredNodes in
  let s' := createHierarchicalLayout s in
  categories = first_seen (map_refs (nodes s) category filteredNodes)
  /\ (forall i n, In i filteredNodes -> nth_error (nodes s) i = Some n ->
        exists c row n',
          nth_error categories c = Some (category n) /\
          nth_error (members (category n)) row = Some i /\
          nth_error (nodes s') i = Some n' /\
          category n' = category n /\
          fx n' = Some (IZR (clientWidth s) / INR (k + 1) * INR (c + 1))%R /\
          fy n' = Some (IZR (clientHeight s)
                        / INR (length (members (category n)) + 1)
                        * INR (row + 1))%R)
  /\ (forall i1 i2 n1 n2, In i1 filteredNodes -> In i2 filteredNodes ->
        nth_error (nodes s') i1 = Some n1 -> nth_error (nodes s') i2 = Some n2 ->
        category n1 = category n2 -> fx n1 = fx n2)
  /\ (clientHeight s <> 0%Z ->
      forall i1 i2 n1 n2, In i1 filteredNodes -> In i2 filteredNodes ->
        i1 <> i2 ->
        nth_error (nodes s') i1 = Some n1 -> nth_error (nodes s') i2 = Some n2 ->
        category n1 = category n2 -> fy n1 <> fy n2).
Proof.
  intros filteredNodes categories k members s'.
  assert (Hplaced : forall i n', In i filteredNodes ->
            nth_error (nodes s') i = Some n' ->
            exists c row,
              nth_error categories c = Some (category n') /\
              nth_error (members (category n')) row = Some i /\
              fx n' = Some (IZR (clientWidth s) / INR (k + 1) * INR (c + 1))%R /\
              fy n' = Some (IZR (clientHeight s)
                            / INR (length (members (category n')) + 1)
                            * INR (row + 1))%R).
  { intros i n' Hi Hn'.
    assert (Hlt : i < length (nodes s)) by now apply select_nodes_valid in Hi.
    apply nth_error_Some in Hlt.
    destruct (nth_error (nodes s) i) as [n|] eqn:Hn; [|congruence].
    destruct (createHierarchicalLayout_placed s i n Hi Hn)
      as (c & row & m & Hc & Hrow & Hm & Hcat & Hfx & Hfy).
    fold s' in Hm. rewrite Hn' in Hm. injection Hm as <-.
    exists c, row. rewrite Hcat. repeat split; assumption. }
  split; [apply array_from_set_first_seen|]. split; [|split].
  - intros i n Hi Hn. now apply createHierarchicalLayout_placed.
  - intros i1 i2 n1 n2 Hi1 Hi2 Hn1 Hn2 Hcat.
    destruct (Hplaced i1 n1 Hi1 Hn1) as (c1 & _ & Hc1 & _ & Hfx1 & _).
    destruct (Hplaced i2 n2 Hi2 Hn2) as (c2 & _ & Hc2 & _ & Hfx2 & _).
    rewrite Hcat in Hc1.
    assert (c1 = c2).
    { apply (proj1 (NoDup_nth_error categories) (categories_of_NoDup _ _)).
      - apply nth_error_Some. congruence.
      - congruence. }
    subst c2. congruence.
  - intros Hheight i1 i2 n1 n2 Hi1 Hi2 Hne Hn1 Hn2 Hcat Hfy.
    destruct (Hplaced i1 n1 Hi1 Hn1) as (_ & row1 & _ & Hrow1 & _ & Hfy1).
    destruct (Hplaced i2 n2 Hi2 Hn2) as (_ & row2 & _ & Hrow2 & _ & Hfy2).
    rewrite Hcat in Hrow1, Hfy1. rewrite Hfy1, Hfy2 in Hfy.
    injection Hfy as Hfy. apply Rmult_eq_reg_l in Hfy;
      [|now apply row_height_nonzero].
    apply INR_eq in Hfy. assert (row1 = row2) by lia. subst row2.
    apply Hne. congruence.
Qed.

Lemma hierarchical_layout_grid_witness :
  clientHeight sample_state <> 0%Z /\
  exists n1 n2,
    nth_error (nodes (createHierarchicalLayout sample_state)) 0 = Some n1 /\
    nth_error (nodes (createHierarchicalLayout sample_state)) 2 = Some n2 /\
    fx n1 = fx n2 /\ fy n1 <> fy n2.
Proof.
  assert (Hheight : clientHeight sample_state <> 0%Z) by discriminate.
  split; [exact Hheight|].
  destruct (hierarchical_layout_grid sample_state) as (_ & Hplaced & Hx & Hy).
  assert (H0 : In 0 (select_nodes (nodes sample_state) (currentFilter sample_state)))
    by (simpl; tauto).
  assert (H2 : In 2 (select_nodes (nodes sample_state) (currentFilter sample_state)))
    by (simpl; tauto).
  destruct (Hplaced 0 _ H0 eq_refl) as (_ & _ & n1 & _ & _ & Hn1 & Hc1 & _).
  destruct (Hplaced 2 _ H2 eq_refl) as (_ & _ & n2 & _ & _ & Hn2 & Hc2 & _).
  assert (Hcat : category n1 = category n2) by (rewrite Hc1, Hc2; reflexivity).
  exists n1, n2. repeat split; try assumption.
  - exact (Hx 0 2 n1 n2 H0 H2 Hn1 Hn2 Hcat).
  - apply (Hy Hheight 0 2 n1 n2 H0 H2); [discriminate | assumption..].
Defined.

(** [C5], as stated, fails in a container of height zero: the two nodes of
    category A of the sample are both pinned at y = 0. *)
Lemma hierarchical_layout_zero_height :
  let s := with_viewport 800 0 sample_state in
  exists n1 n2,
    nth_error (nodes (createHierarchicalLayout s)) 0 = Some n1 /\
    nth_error (nodes (createHierarchicalLayout s)) 2 = Some n2 /\
    category n1 = "A" /\ category n2 = "A" /\
    fy n1 = Some 0%R /\ fy n2 = Some 0%R.
Proof.
  intros s.
  assert (H0 : In 0 (select_nodes (nodes s) (currentFilter s))) by (simpl; tauto).
  assert (H2 : In 2 (select_nodes (nodes s) (currentFilter s))) by (simpl; tauto).
  destruct (createHierarchicalLayout_placed s 0 _ H0 eq_refl)
    as (_ & r1 & n1 & _ & _ & Hn1 & Hc1 & _ & Hy1).
  destruct (createHierarchicalLayout_placed s 2 _ H2 eq_refl)
    as (_ & r2 & n2 & _ & _ & Hn2 & Hc2 & _ & Hy2).
  exists n1, n2. repeat split; try assumption.
  - rewrite Hy1. f_equal. replace (clientHeight s) with 0%Z by reflexivity.
    unfold Rdiv. ring.
  - rewrite Hy2. f_equal. replace (clientHeight s) with 0%Z by reflexivity.
    unfold Rdiv. ring.
Qed.

(** ** Pins across restarts *)

Lemma updateLayout_force_nodes (s : State) :
  currentLayout s = "force" ->
  nodes (updateLayout s)
  = forEach (select_nodes (nodes s) (currentFilter s))
      (fun node _ t => update t node (set_pin None None)) (nodes s).
Proof.
  intros Hmode. rewrite updateLayout_dispatch, Hmode, String.eqb_refl.
  now rewrite createForceLayout_nodes, nodes_stop_simulation,
    currentFilter_stop_simulation.
Qed.

Lemma updateLayout_outside_filter (s : State) (i : ref) :
  ~ In i (select_nodes (nodes s) (currentFilter s)) ->
  nth_error (nodes (updateLayout s)) i = nth_error (nodes s) i.
Proof.
  intros Hi. rewrite updateLayout_dispatch.
  rewrite <- (nodes_stop_simulation s), <- (currentFilter_stop_simulation s) in Hi.
  rewrite <- (nodes_stop_simulation s).
  destruct (currentLayout s =? "force").
  { rewrite createForceLayout_nodes. now apply clear_loop_out. }
  destruct (currentLayout s =? "radial").
  { now apply createRadialLayout_unplaced. }
  destruct (currentLayout s =? "hierarchical").
  { now apply createHierarchicalLayout_unplaced. }
  reflexivity.
Qed.

Lemma updateLayout_layout (s : State) :
  currentLayout (updateLayout s) = currentLayout s.
Proof.
  rewrite updateLayout_dispatch.
  assert (Hm : currentLayout (stop_simulation s) = currentLayout s).
  { unfold stop_simulation. destruct (simulation s); reflexivity. }
  destruct (currentLayout s =? "force"); [exact Hm|].
  destruct (currentLayout s =? "radial").
  - unfold createRadialLayout.
    match goal with |- context [forEach ?xs ?body ?s0] =>
      destruct (random_pin_loop_frame
                  (radial_position (IZR (clientWidth (stop_simulation s)) / 2)
                     (IZR (clientHeight (stop_simulation s)) / 2)
                     (categories_of (nodes (stop_simulation s)) xs)) xs 0 s0)
        as (_ & _ & _ & Hm' & _)
    end.
    exact (eq_trans Hm' Hm).
  - destruct (currentLayout s =? "hierarchical"); exact Hm.
Qed.

Lemma on_layout_change_radial (t : State) :
  on_layout_change "radial" t
  = createRadialLayout (stop_simulation (with_layout "radial" t)).
Proof. unfold on_layout_change. rewrite updateLayout_dispatch. reflexivity. Qed.

Lemma createRadialLayout_pins (s : State) (i : ref) :
  In i (select_nodes (nodes s) (currentFilter s)) ->
  exists n, nth_error (nodes (createRadialLayout s)) i = Some n /\
            fx n <> None /\ fy n <> None.
Proof.
  intros Hi.
  assert (Hlt : i < length (nodes s)) by now apply select_nodes_valid in Hi.
  apply nth_error_Some in Hlt.
  destruct (nth_error (nodes s) i) as [n|] eqn:Hn; [|congruence].
  apply In_nth_error in Hi. destruct Hi as [k Hk].
  rewrite (createRadialLayout_placed s k i Hk), Hn. simpl.
  eexists. split; [reflexivity|]. split; discriminate.
Qed.

Lemma dragstarted_frame (event : DragEvent) (d : ref) (s : State) :
  currentFilter (dragstarted event d s) = currentFilter s /\
  currentLayout (dragstarted event d s) = currentLayout s.
Proof.
  unfold dragstarted, when_idle.
  destruct (active event); [destruct (simulation s)|]; split; reflexivity.
Qed.

Lemma select_nodes_all (st : list Node) : select_nodes st "all" = all_refs st.
Proof. reflexivity. Qed.

(** [C3], as stated, fails on both counts. A node outside the current
    filter keeps the pin of the earlier radial layout across a restart of
    the force layout; and a node whose drag is in progress, pinned at
    (5,7), has lost that pin after a restart caused by a resize. *)
Lemma force_restart_pins_counterexample :
  (exists n, nth_error (nodes sample_after_filter) 0 = Some n /\
             currentLayout sample_after_filter = "force" /\
             fx n <> None /\ fy n <> None)
  /\ (exists held n,
        nth_error (nodes sample_held) 0 = Some held /\
        fx held = Some 5%R /\ fy held = Some 7%R /\
        nth_error (nodes sample_mid_drag) 0 = Some n /\
        fx n = None /\ fy n = None).
Proof.
  split.
  - assert (Hout : ~ In 0 (select_nodes sample_nodes "B")).
    { simpl. intros [H | []]. discriminate. }
    unfold sample_after_filter.
    unfold on_layout_change at 1.
    rewrite updateLayout_outside_filter.
    2:{ rewrite nodes_with_layout, currentFilter_with_layout.
        rewrite on_filter_change_filter.
        rewrite (select_nodes_erase _ _ _ (on_filter_change_erase _ _)).
        rewrite (select_nodes_erase _ _ _ (on_layout_change_erase _ _)).
        now rewrite (select_nodes_erase _ _ _ sample_state_erase). }
    rewrite nodes_with_layout. unfold on_filter_change.
    rewrite updateLayout_outside_filter.
    2:{ rewrite nodes_with_filter.
        replace (currentFilter (with_filter "B" (on_layout_change "radial" sample_state)))
          with "B" by reflexivity.
        rewrite (select_nodes_erase _ _ _ (on_layout_change_erase _ _)).
        now rewrite (select_nodes_erase _ _ _ sample_state_erase). }
    rewrite nodes_with_filter, on_layout_change_radial.
    destruct (createRadialLayout_pins
                (stop_simulation (with_layout "radial" sample_state)) 0)
      as (n & Hn & Hfx & Hfy).
    { rewrite nodes_stop_simulation, currentFilter_stop_simulation,
        nodes_with_layout, currentFilter_with_layout.
      rewrite (select_nodes_erase _ _ _ sample_state_erase).
      simpl. tauto. }
    exists n. split; [exact Hn|]. split; [|split; assumption].
    unfold on_layout_change at 1. now rewrite updateLayout_layout.
  - assert (Hheld : exists held, nth_error (nodes sample_held) 0 = Some held /\
                      fx held = Some 5%R /\ fy held = Some 7%R).
    { unfold sample_held.
      assert (Hlt : 0 < length (nodes (dragstarted (mkDragEvent 0 0 0) 0 sample_state))).
      { rewrite dragstarted_length, (erase_length _ _ sample_state_erase). simpl. lia. }
      apply nth_error_Some in Hlt.
      destruct (nth_error (nodes (dragstarted (mkDragEvent 0 0 0) 0 sample_state)) 0)
        as [n1|] eqn:Hn1; [|congruence].
      eexists. split; [now apply dragged_pins|]. split; reflexivity. }
    destruct Hheld as (held & Hheld & Hfx & Hfy).
    exists held, (set_pin None None held). repeat split; try assumption.
    unfold sample_mid_drag, on_resize.
    assert (Hmode : currentLayout (with_viewport 1024 768 sample_held) = "force").
    { unfold sample_held.
      change (currentLayout (dragstarted (mkDragEvent 0 0 0) 0 sample_state) = "force").
      now rewrite (proj2 (dragstarted_frame _ _ _)). }
    rewrite (updateLayout_force_nodes _ Hmode), nodes_with_viewport.
    rewrite clear_loop_in; [now rewrite Hheld|].
    rewrite currentFilter_with_viewport.
    replace (currentFilter sample_held) with "all".
    + rewrite select_nodes_all. apply all_refs_In.
      apply nth_error_Some. congruence.
    + unfold sample_held.
      change (currentFilter (dragged (mkDragEvent 0 5 7) 0
                (dragstarted (mkDragEvent 0 0 0) 0 sample_state)))
        with (currentFilter (dragstarted (mkDragEvent 0 0 0) 0 sample_state)).
      now rewrite (proj1 (dragstarted_frame _ _ _)).
Qed.

(** ** The properties on the sample data *)

Example sample_links_built :
  sample_links = [mkEdge "1" "2"; mkEdge "1" "3"].
Proof. reflexivity. Qed.

Example dangling_relation_dropped :
  build_links [sample_experiment "1" "A" (Some ["9"; "1"])] = [mkEdge "1" "1"].
Proof. reflexivity. Qed.

Example categories_first_seen :
  categories_of sample_nodes (select_nodes sample_nodes "all") = ["A"; "B"].
Proof. reflexivity. Qed.

Example indexOf_absent : indexOf ["A"; "B"] "C" = (-1)%Z.
Proof. reflexivity. Qed.

Example label_truncated :
  label_text "Growth of Arabidopsis thaliana in microgravity"
  = "Growth of Arabidopsis thaliana...".
Proof. reflexivity. Qed.

Lemma adapter_edges_not_dangling_witness :
  In (mkEdge "1" "3") (build_links sample_experiments) /\
  In "1" (map id (build_nodes sample_experiments)) /\
  In "3" (map id (build_nodes sample_experiments)).
Proof.
  assert (He : In (mkEdge "1" "3") (build_links sample_experiments))
    by (simpl; tauto).
  split; [exact He|].
  destruct (adapter_edges_not_dangling sample_experiments) as [Hall _].
  exact (Hall (mkEdge "1" "3") He).
Defined.

Lemma adapter_defaults_on_falsy_witness :
  let exp := mkExperiment "7" "Experiment 7" "other" "active" "10 days" None
               (JStr "") JNull (Some (mkGraphData (JNum 0%Q) (JNum 0%Q))) None in
  size (node_of_experiment exp) = JNum 15%Q /\
  connections (node_of_experiment exp) = JNum 3%Q /\
  description (node_of_experiment exp) = JStr "No description available.".
Proof.
  intros exp.
  destruct (adapter_defaults_on_falsy exp) as (Hsize & Hconn & Hsum).
  destruct (Hsize _ 0%Q eq_refl eq_refl (Qeq_refl 0%Q)) as [Hs _].
  destruct (Hconn _ 0%Q eq_refl eq_refl (Qeq_refl 0%Q)) as [Hc _].
  destruct (Hsum eq_refl) as (_ & Hd & _).
  split; [exact Hs|]. split; [exact Hc|]. exact (Hd eq_refl).
Defined.

Lemma drag_pin_persists_witness :
  exists n',
    nth_error
      (nodes (dragended (mkDragEvent 0 5 7) 0
                (dragged (mkDragEvent 0 5 7) 0
                   (dragstarted (mkDragEvent 0 0 0) 0 sample_state)))) 0
    = Some n' /\
    fx n' = Some 5%R /\ fy n' = Some 7%R.
Proof.
  destruct (drag_pin_persists sample_state 0 _ (mkDragEvent 0 0 0)
              (mkDragEvent 0 5 7) (mkDragEvent 0 5 7) eq_refl) as [_ H].
  exact H.
Defined.

(** * Further properties *)

(** ** The adapter's edge list, declaratively *)

Lemma forEach_from_ext {A S : Type} (xs : list A) (body body' : A -> nat -> S -> S) :
  (forall a i s, In a xs -> body a i s = body' a i s) ->
  forall i s, forEach_from i xs body s = forEach_from i xs body' s.
Proof.
  induction xs as [|a rest IH]; intros Hext i s; simpl; [reflexivity|].
  rewrite Hext by now left. apply IH. intros b j t Hb. apply Hext. now right.
Qed.

Lemma forEach_from_append {A B : Type} (f : A -> list B) (xs : list A) (i : nat)
  (acc : list B) :
  forEach_from i xs (fun a _ out => out ++ f a) acc = acc ++ flat_map f xs.
Proof.
  revert i acc. induction xs as [|a rest IH]; intros i acc; simpl.
  - now rewrite app_nil_r.
  - now rewrite IH, app_assoc.
Qed.

Lemma js_find_known (experiments : list Experiment) (i : string) :
  match js_find (fun e => String.eqb (exp_id e) i) experiments with
  | Some _ => true
  | None => false
  end = known_id experiments i.
Proof.
  unfold js_find, known_id. induction experiments as [|e rest IH]; simpl.
  - reflexivity.
  - destruct (String.eqb (exp_id e) i); [reflexivity | exact IH].
Qed.

Lemma known_id_In (experiments : list Experiment) (i : string) :
  known_id experiments i = true <-> In i (map exp_id experiments).
Proof.
  unfold known_id. rewrite existsb_exists, in_map_iff. split.
  - intros (e & He & Heq). apply String.eqb_eq in Heq. now exists e.
  - intros (e & Heq & He). exists e. split; [exact He|]. now apply String.eqb_eq.
Qed.

(** The two nested loops of lines 44-52 build, record by record, one edge
    for every related id that some record carries, in the order of the
    related lists. *)
Lemma build_links_flat_map (experiments : list Experiment) :
  build_links experiments
  = flat_map (fun exp =>
      match related_of exp with
      | Some rel =>
          map (mkEdge (exp_id exp)) (filter (known_id experiments) rel)
      | None => []
      end) experiments.
Proof.
  unfold build_links, forEach.
  rewrite <- (app_nil_l (flat_map _ experiments)).
  rewrite <- (forEach_from_append _ experiments 0 []).
  apply forEach_from_ext. intros exp i out _.
  destruct (related_of exp) as [rel|]; [|now rewrite app_nil_r].
  unfold forEach. generalize 0. revert out.
  induction rel as [|r rest IH]; intros out k; simpl.
  - now rewrite app_nil_r.
  - rewrite IH. pose proof (js_find_known experiments r) as Hk.
    destruct (js_find _ experiments); rewrite <- Hk; simpl.
    + now rewrite <- app_assoc.
    + reflexivity.
Qed.

(** [X1] The adapter emits an edge from a to b exactly when some record
    has id a and lists b among its related ids, and b is the id of a
    record of the same input; nothing else is an edge, and every such
    pair is one (self-relations included). *)
Theorem adapter_edges_exact (experiments : list Experiment) (a b : string) :
  In (mkEdge a b) (build_links experiments) <->
  exists exp rel,
    In exp experiments /\ exp_id exp = a /\
    related_of exp = Some rel /\ In b rel /\
    In b (map id (build_nodes experiments)).
Proof.
  rewrite build_links_flat_map, build_nodes_ids, in_flat_map. split.
  - intros (exp & Hexp & He).
    destruct (related_of exp) as [rel|] eqn:Hrel; [|destruct He].
    apply in_map_iff in He. destruct He as (r & Heq & Hr).
    apply filter_In in Hr. destruct Hr as [Hr Hk].
    injection Heq as Ha Hb. subst r.
    exists exp, rel. repeat split; try assumption. now apply known_id_In.
  - intros (exp & rel & Hexp & Ha & Hrel & Hb & Hk).
    exists exp. split; [exact Hexp|]. rewrite Hrel, <- Ha.
    apply in_map. apply filter_In. split; [exact Hb|]. now apply known_id_In.
Qed.

Lemma adapter_edges_exact_witness :
  In (mkEdge "1" "3") (build_links sample_experiments) /\
  ~ In (mkEdge "1" "9")
      (build_links [sample_experiment "1" "A" (Some ["9"; "1"])]).
Proof.
  split.
  - apply (proj2 (adapter_edges_exact sample_experiments "1" "3")).
    exists (sample_experiment "1" "A" (Some ["2"; "3"])), ["2"; "3"].
    simpl. tauto.
  - intros H.
    apply (proj1 (adapter_edges_exact
                    [sample_experiment "1" "A" (Some ["9"; "1"])] "1" "9")) in H.
    destruct H as (exp & rel & _ & _ & _ & _ & Hk). simpl in Hk.
    destruct Hk as [Hk | []]. discriminate.
Defined.

(** ** What no event changes *)

Lemma erase_node_of_experiment (exp : Experiment) :
  erase (node_of_experiment exp) = node_of_experiment exp.
Proof. reflexivity. Qed.

Lemma erase_build_nodes (experiments : list Experiment) :
  map erase (build_nodes experiments) = build_nodes experiments.
Proof.
  unfold build_nodes. rewrite map_map. apply map_ext.
  intros exp. apply erase_node_of_experiment.
Qed.

Lemma map_id_erase (st : list Node) : map id (map erase st) = map id st.
Proof. rewrite map_map. reflexivity. Qed.

Lemma dragstarted_erase (event : DragEvent) (d : ref) (s : State) :
  map erase (nodes (dragstarted event d s)) = map erase (nodes s) /\
  links (dragstarted event d s) = links s.
Proof.
  unfold dragstarted, when_idle. simpl. rewrite update_erase by reflexivity.
  destruct (active event); [destruct (simulation s)|]; split; reflexivity.
Qed.

Lemma dragged_erase (event : DragEvent) (d : ref) (s : State) :
  map erase (nodes (dragged event d s)) = map erase (nodes s) /\
  links (dragged event d s) = links s.
Proof.
  unfold dragged. simpl. rewrite update_erase by reflexivity.
  split; reflexivity.
Qed.

Lemma dragended_links (event : DragEvent) (d : ref) (s : State) :
  links (dragended event d s) = links s.
Proof.
  unfold dragended, when_idle.
  destruct (active event); [destruct (simulation s)|]; reflexivity.
Qed.

Lemma handle_erase (e : Event) (s : State) :
  map erase (nodes (handle e s)) = map erase (nodes s) /\
  links (handle e s) = links s.
Proof.
  destruct e as [v | v | w h | ev d | ev d | ev d]; simpl.
  - split; [apply on_filter_change_erase|].
    unfold on_filter_change. now destruct (updateLayout_filter (with_filter v s)).
  - split; [apply on_layout_change_erase|].
    unfold on_layout_change. now destruct (updateLayout_filter (with_layout v s)).
  - unfold on_resize. split; [now rewrite updateLayout_erase|].
    now destruct (updateLayout_filter (with_viewport w h s)).
  - apply dragstarted_erase.
  - apply dragged_erase.
  - split; [now rewrite dragended_nodes | apply dragended_links].
Qed.

Lemma run_erase (trace : list Event) (s : State) :
  map erase (nodes (run trace s)) = map erase (nodes s) /\
  links (run trace s) = links s.
Proof.
  unfold run. revert s. induction trace as [|e rest IH]; intros s; simpl.
  - split; reflexivity.
  - destruct (IH (handle e s)) as [Hn Hl]. destruct (handle_erase e s) as [Hn' Hl'].
    split; congruence.
Qed.

(** [X2] Whatever filter changes, layout changes, resizes and drag events
    follow the load, the store still holds the nodes the adapter built,
    apart from their pin fields, and the edge array is the one the adapter
    built; so every edge still joins two nodes of the store. *)
Theorem events_keep_the_graph (experiments : list Experiment) (w h : Z)
  (rnd : nat -> R) (trace : list Event) :
  let s := run trace (initializeGraph experiments (initial_state w h rnd)) in
  map erase (nodes s) = build_nodes experiments /\
  links s = build_links experiments /\
  (forall l, In l (links s) ->
     In (source l) (map id (nodes s)) /\ In (target l) (map id (nodes s))).
Proof.
  intros s.
  destruct (run_erase trace (initializeGraph experiments (initial_state w h rnd)))
    as [Hn Hl].
  fold s in Hn, Hl.
  assert (Hnodes : map erase (nodes s) = build_nodes experiments).
  { rewrite Hn. unfold initializeGraph. rewrite createForceLayout_erase.
    apply erase_build_nodes. }
  assert (Hlinks : links s = build_links experiments) by (rewrite Hl; reflexivity).
  split; [exact Hnodes|]. split; [exact Hlinks|].
  intros l Hin. rewrite <- map_id_erase, Hnodes. rewrite Hlinks in Hin.
  pose proof (build_links_flat_map experiments) as Hflat.
  rewrite Hflat in Hin. apply in_flat_map in Hin.
  destruct Hin as (exp & Hexp & Hin). rewrite build_nodes_ids.
  destruct (related_of exp) as [rel|]; [|destruct Hin].
  apply in_map_iff in Hin. destruct Hin as (r & <- & Hr).
  apply filter_In in Hr. destruct Hr as [_ Hk]. simpl. split.
  - now apply in_map.
  - now apply known_id_In.
Qed.

Lemma events_keep_the_graph_witness :
  let s := run [LayoutChange "radial"; FilterChange "B";
                DragMove (mkDragEvent 0 5 7) 0; Resize 1024 768]
             (initializeGraph sample_experiments
                (initial_state 800 600 (fun _ => 0%R))) in
  In (mkEdge "1" "3") (links s) /\
  In "1" (map id (nodes s)) /\ In "3" (map id (nodes s)).
Proof.
  intros s.
  destruct (events_keep_the_graph sample_experiments 800 600 (fun _ => 0%R)
              [LayoutChange "radial"; FilterChange "B";
               DragMove (mkDragEvent 0 5 7) 0; Resize 1024 768])
    as (_ & Hl & Hclosed).
  fold s in Hl, Hclosed.
  assert (Hin : In (mkEdge "1" "3") (links s)).
  { rewrite Hl. simpl. tauto. }
  split; [exact Hin|]. exact (Hclosed _ Hin).
Defined.

(** ** Labels *)

Lemma substring_0_short (n : nat) (t : string) :
  String.length t <= n -> substring 0 n t = t.
Proof.
  revert n. induction t as [|c rest IH]; intros [|n] Hlen; simpl in *;
    try reflexivity; try lia.
  f_equal. apply IH. lia.
Qed.

Lemma substring_0_length (n : nat) (t : string) :
  String.length (substring 0 n t) = Nat.min n (String.length t).
Proof.
  revert n. induction t as [|c rest IH]; intros [|n]; simpl; try reflexivity.
  now rewrite IH.
Qed.

Lemma string_length_append (a b : string) :
  String.length (a ++ b) = String.length a + String.length b.
Proof. induction a as [|c rest IH]; simpl; [reflexivity | now rewrite IH]. Qed.

Lemma string_append_empty (a : string) : (a ++ "")%string = a.
Proof. induction a as [|c rest IH]; simpl; [reflexivity | now rewrite IH]. Qed.

(** [X3] A label is the title itself when the title has at most 30
    characters, and otherwise its first 30 characters followed by three
    dots: a label never has more than 33 characters. *)
Theorem label_text_bounded (t : string) :
  (String.length t <= 30 -> label_text t = t) /\
  (30 < String.length t ->
     label_text t = (substring 0 30 t ++ "...")%string /\
     String.length (label_text t) = 33) /\
  String.length (label_text t) <= 33.
Proof.
  unfold label_text.
  destruct (Nat.ltb_spec 30 (String.length t)) as [Hlong | Hshort].
  - assert (Hlen : String.length (substring 0 30 t ++ "...") = 33).
    { rewrite string_length_append, substring_0_length.
      rewrite Nat.min_l by lia. reflexivity. }
    split; [lia|]. split; [intros _; split; [reflexivity | exact Hlen]|].
    rewrite Hlen. lia.
  - rewrite string_append_empty, substring_0_short by exact Hshort.
    split; [reflexivity|]. split; [lia|]. lia.
Qed.

Lemma label_text_bounded_witness :
  label_text "Bone loss in mice" = "Bone loss in mice" /\
  String.length
    (label_text "Growth of Arabidopsis thaliana in microgravity") = 33.
Proof.
  split.
  - apply (proj1 (label_text_bounded "Bone loss in mice")). simpl. lia.
  - apply (proj1 (proj2 (label_text_bounded
             "Growth of Arabidopsis thaliana in microgravity"))).
    simpl. lia.
Defined.

(** ** The simulation handle across layout changes *)

Lemma createRadialLayout_frame (s : State) :
  simulation (createRadialLayout s) = simulation s /\
  random_source (createRadialLayout s) = random_source s /\
  random_calls (createRadialLayout s)
    = random_calls s + length (select_nodes (nodes s) (currentFilter s)).
Proof.
  unfold createRadialLayout.
  match goal with |- context [forEach ?xs ?body ?s0] =>
    destruct (random_pin_loop_frame
                (radial_position (IZR (clientWidth s) / 2) (IZR (clientHeight s) / 2)
                   (categories_of (nodes s) xs)) xs 0 s0)
      as (_ & _ & _ & _ & Hsim & Hsrc & Hcalls & _)
  end.
  split; [exact Hsim|]. split; [exact Hsrc | exact Hcalls].
Qed.

Lemma stop_simulation_handle (s : State) :
  simulation (stop_simulation s) = option_map sim_stop (simulation s).
Proof.
  unfold stop_simulation. destruct (simulation s) eqn:Hsim; [reflexivity|].
  exact Hsim.
Qed.

Lemma stop_simulation_viewport (s : State) :
  clientWidth (stop_simulation s) = clientWidth s /\
  clientHeight (stop_simulation s) = clientHeight s /\
  links (stop_simulation s) = links s /\
  g (stop_simulation s) = g s.
Proof. unfold stop_simulation. destruct (simulation s); repeat split. Qed.

(** [X4] After [updateLayout], only a simulation created by that very call
    can be running. In force mode the handle is a new running simulation
    over the filtered nodes, centred in the container, with target
    temperature 0, and under the filter "all" its links are the [links]
    array itself; in every other mode no simulation is created, and the
    previous one, if there was one, is kept with its fields unchanged
    except that it is stopped. *)
Theorem layout_change_stops_simulation (s : State) :
  let s' := updateLayout s in
  (currentLayout s = "force" ->
     exists sim,
       simulation s' = Some sim /\
       sim_nodes sim = select_nodes (nodes s) (currentFilter s) /\
       sim_center sim = (IZR (clientWidth s) / 2, IZR (clientHeight s) / 2)%R /\
       sim_alphaTarget sim = 0%R /\ sim_running sim = true /\
       (currentFilter s = "all" -> sim_links sim = links s))
  /\ (currentLayout s <> "force" ->
        simulation s' = option_map sim_stop (simulation s) /\
        forall sim, simulation s' = Some sim -> sim_running sim = false).
Proof.
  intros s'. unfold s'. rewrite updateLayout_dispatch. split.
  - intros ->. rewrite String.eqb_refl, createForceLayout_simulation.
    destruct (stop_simulation_viewport s) as (-> & -> & Hlinks & _).
    rewrite nodes_stop_simulation, currentFilter_stop_simulation.
    eexists. split; [reflexivity|]. simpl.
    split; [reflexivity|]. split; [reflexivity|]. split; [reflexivity|].
    split; [reflexivity|].
    intros ->. rewrite Hlinks. reflexivity.
  - intros Hmode. apply String.eqb_neq in Hmode. rewrite Hmode.
    assert (Hkept : simulation
              (if currentLayout s =? "radial"
               then createRadialLayout (stop_simulation s)
               else if currentLayout s =? "hierarchical"
                    then createHierarchicalLayout (stop_simulation s)
                    else stop_simulation s)
            = option_map sim_stop (simulation s)).
    { destruct (currentLayout s =? "radial").
      - destruct (createRadialLayout_frame (stop_simulation s)) as [-> _].
        apply stop_simulation_handle.
      - destruct (currentLayout s =? "hierarchical");
          apply stop_simulation_handle. }
    split; [exact Hkept|]. intros sim. rewrite Hkept.
    destruct (simulation s) as [old|]; simpl; [|discriminate].
    intros [= <-]. reflexivity.
Qed.

Lemma layout_change_stops_simulation_witness :
  (exists sim,
     simulation (on_layout_change "hierarchical" sample_state) = Some sim /\
     sim_running sim = false /\ sim_nodes sim = [0; 1; 2]) /\
  (exists sim,
     simulation (on_layout_change "force" sample_state) = Some sim /\
     sim_running sim = true /\ sim_nodes sim = [0; 1; 2] /\
     sim_links sim = links sample_state).
Proof.
  unfold on_layout_change. split.
  - assert (Hmode : currentLayout (with_layout "hierarchical" sample_state)
                    <> "force") by discriminate.
    destruct (proj2 (layout_change_stops_simulation
                       (with_layout "hierarchical" sample_state)) Hmode)
      as [Hkept _].
    eexists. split; [rewrite Hkept; reflexivity|]. split; reflexivity.
  - destruct (proj1 (layout_change_stops_simulation
                       (with_layout "force" sample_state)) eq_refl)
      as (sim & Hsim & Hnodes & _ & _ & Hrunning & Hlinks).
    exists sim. split; [exact Hsim|]. split; [exact Hrunning|].
    split; [rewrite Hnodes; reflexivity|].
    rewrite (Hlinks eq_refl). reflexivity.
Defined.

(** [X5] A layout value that is none of force, radial and hierarchical
    makes [updateLayout] a stop of the simulation and nothing more: the
    store, the rendered scene, the edges, the filter and the cursor of
    [Math.random] are as before, so the previous drawing stays on screen. *)
Theorem unknown_layout_keeps_scene (s : State) :
  currentLayout s <> "force" -> currentLayout s <> "radial" ->
  currentLayout s <> "hierarchical" ->
  updateLayout s = stop_simulation s /\
  nodes (updateLayout s) = nodes s /\ g (updateLayout s) = g s /\
  links (updateLayout s) = links s /\
  currentFilter (updateLayout s) = currentFilter s /\
  random_calls (updateLayout s) = random_calls s.
Proof.
  intros Hf Hr Hh. rewrite updateLayout_dispatch.
  apply String.eqb_neq in Hf, Hr, Hh. rewrite Hf, Hr, Hh.
  destruct (stop_simulation_frame s) as (Hn & Hl & Hflt & _ & _ & _ & Hc).
  destruct (stop_simulation_viewport s) as (_ & _ & _ & Hg).
  repeat split; assumption.
Qed.

Lemma unknown_layout_keeps_scene_witness :
  g (on_layout_change "grid" sample_state) = g sample_state /\
  nodes (on_layout_change "grid" sample_state) = nodes sample_state.
Proof.
  unfold on_layout_change.
  destruct (unknown_layout_keeps_scene (with_layout "grid" sample_state))
    as (_ & Hn & Hg & _); try discriminate.
  split; [exact Hg | exact Hn].
Defined.

(** [X6] The radial layout calls [Math.random] exactly once for each
    filtered node and nothing else does: after [updateLayout] the cursor
    has advanced by the number of filtered nodes in radial mode and has
    not moved in any other mode. *)
Theorem random_draws_per_layout (s : State) :
  let s' := updateLayout s in
  random_source s' = random_source s /\
  (currentLayout s = "radial" ->
     random_calls s'
     = random_calls s + length (select_nodes (nodes s) (currentFilter s))) /\
  (currentLayout s <> "radial" -> random_calls s' = random_calls s).
Proof.
  intros s'. unfold s'. rewrite updateLayout_dispatch.
  destruct (stop_simulation_frame s) as (Hn & _ & Hflt & _ & _ & Hsrc & Hcalls).
  destruct (createRadialLayout_frame (stop_simulation s)) as (_ & Rsrc & Rcalls).
  rewrite Hn, Hflt, Hcalls in Rcalls. rewrite Hsrc in Rsrc.
  split; [|split].
  - destruct (currentLayout s =? "force"); [exact Hsrc|].
    destruct (currentLayout s =? "radial"); [exact Rsrc|].
    destruct (currentLayout s =? "hierarchical"); exact Hsrc.
  - intros ->. simpl. exact Rcalls.
  - intros Hmode. apply String.eqb_neq in Hmode. rewrite Hmode.
    destruct (currentLayout s =? "force"); [exact Hcalls|].
    destruct (currentLayout s =? "hierarchical"); exact Hcalls.
Qed.

Lemma random_draws_per_layout_witness :
  random_calls (on_layout_change "radial" sample_state) = 3 /\
  random_calls (on_layout_change "hierarchical" sample_state) = 0.
Proof.
  unfold on_layout_change. split.
  - rewrite (proj1 (proj2 (random_draws_per_layout
                             (with_layout "radial" sample_state))) eq_refl).
    reflexivity.
  - rewrite (proj2 (proj2 (random_draws_per_layout
                             (with_layout "hierarchical" sample_state))));
      [reflexivity | discriminate].
Defined.

(** ** A drag gesture *)

Lemma when_idle_simulation (event : DragEvent) (f : Simulation -> Simulation)
  (s : State) :
  active event = 0 ->
  simulation (when_idle event f s) = option_map f (simulation s).
Proof.
  intros H. unfold when_idle. rewrite H.
  destruct (simulation s) eqn:Hsim; [reflexivity | exact Hsim].
Qed.

Lemma when_idle_frame (event : DragEvent) (f : Simulation -> Simulation)
  (s : State) :
  nodes (when_idle event f s) = nodes s /\ links (when_idle event f s) = links s /\
  g (when_idle event f s) = g s /\
  currentFilter (when_idle event f s) = currentFilter s /\
  currentLayout (when_idle event f s) = currentLayout s.
Proof.
  unfold when_idle. destruct (active event); [destruct (simulation s)|];
    repeat split.
Qed.

(** [X7] A drag gesture that is the only one in progress raises the
    simulation's target temperature to 0.3 and restarts it at drag-start,
    and sets the target back to 0 at drag-end, leaving the simulation
    running; when there is no simulation none is created. The gesture
    writes the pin of the dragged node only: every other node, the edges,
    the scene, the filter and the layout mode are as before. *)
Theorem drag_gesture_frame (s : State) (d : ref) (start move release : DragEvent) :
  active start = 0 -> active release = 0 ->
  let s1 := dragstarted start d s in
  let s3 := dragended release d (dragged move d s1) in
  simulation s1
    = option_map (fun sim => mkSimulation (sim_nodes sim) (sim_links sim)
                               (sim_center sim) (3 / 10)%R true) (simulation s)
  /\ simulation s3
     = option_map (fun sim => mkSimulation (sim_nodes sim) (sim_links sim)
                                (sim_center sim) 0%R true) (simulation s)
  /\ (forall i, i <> d -> nth_error (nodes s3) i = nth_error (nodes s) i)
  /\ links s3 = links s /\ g s3 = g s
  /\ currentFilter s3 = currentFilter s /\ currentLayout s3 = currentLayout s.
Proof.
  intros Hstart Hrelease s1 s3.
  assert (H1 : simulation s1
            = option_map (fun sim => mkSimulation (sim_nodes sim) (sim_links sim)
                                       (sim_center sim) (3 / 10)%R true)
                (simulation s)).
  { unfold s1, dragstarted.
    change (simulation (with_nodes ?st ?t)) with (simulation t).
    now rewrite when_idle_simulation. }
  destruct (when_idle_frame start
              (fun sim => sim_restart (sim_set_alphaTarget (3 / 10)%R sim)) s)
    as (Sn & Sl & Sg & Sf & Sm).
  destruct (when_idle_frame release (sim_set_alphaTarget 0%R) (dragged move d s1))
    as (En & El & Eg & Ef & Em).
  split; [exact H1|]. split; [|split; [|repeat split]].
  - unfold s3, dragended. rewrite when_idle_simulation by exact Hrelease.
    change (simulation (dragged move d s1)) with (simulation s1).
    rewrite H1. now destruct (simulation s).
  - intros i Hi. unfold s3, dragended. rewrite En. unfold dragged. simpl.
    rewrite update_other by congruence. unfold s1, dragstarted. simpl.
    rewrite update_other by congruence. now rewrite Sn.
  - unfold s3, dragended. rewrite El. exact Sl.
  - unfold s3, dragended. rewrite Eg. exact Sg.
  - unfold s3, dragended. rewrite Ef. exact Sf.
  - unfold s3, dragended. rewrite Em. exact Sm.
Qed.

Lemma drag_gesture_frame_witness :
  exists sim,
    simulation (dragended (mkDragEvent 0 5 7) 0
                  (dragged (mkDragEvent 0 5 7) 0
                     (dragstarted (mkDragEvent 0 0 0) 0 sample_state))) = Some sim /\
    sim_alphaTarget sim = 0%R /\ sim_running sim = true.
Proof.
  destruct (drag_gesture_frame sample_state 0 (mkDragEvent 0 0 0)
              (mkDragEvent 0 5 7) (mkDragEvent 0 5 7) eq_refl eq_refl)
    as (_ & Hsim & _).
  eexists. split; [rewrite Hsim; reflexivity|]. split; reflexivity.
Defined.

(** ** The scene and the filtered nodes *)

Lemma enter_nodes_In_iff (st : list Node) (mk : ref -> Node -> Element)
  (xs : list ref) (e : Element) :
  In e (enter_nodes st mk xs) <->
  exists i d, In i xs /\ nth_error st i = Some d /\ e = mk i d.
Proof.
  unfold enter_nodes. rewrite in_flat_map. split.
  - intros (i & Hi & He). destruct (nth_error st i) as [d|] eqn:Hd; [|destruct He].
    destruct He as [<- | []]. now exists i, d.
  - intros (i & d & Hi & Hd & ->). exists i. split; [exact Hi|].
    rewrite Hd. now left.
Qed.

Lemma data_of_enter_nodes {A : Type} (proj : Element -> list A) (st : list Node)
  (mk : ref -> Node -> Element) (xs : list ref) (f : ref -> list A) :
  (forall i d, proj (mk i d) = f i) ->
  (forall i, In i xs -> i < length st) ->
  flat_map proj (enter_nodes st mk xs) = flat_map f xs.
Proof.
  intros Hproj. induction xs as [|a rest IH]; intros Hvalid; simpl; [reflexivity|].
  assert (Ha : a < length st) by (apply Hvalid; now left).
  apply nth_error_Some in Ha. destruct (nth_error st a) as [d|]; [|congruence].
  simpl. rewrite Hproj. f_equal. apply IH.
  intros i Hi. apply Hvalid. now right.
Qed.

Lemma flat_map_singleton {A : Type} (xs : list A) :
  flat_map (fun a => [a]) xs = xs.
Proof. induction xs as [|a rest IH]; simpl; [reflexivity | now rewrite IH]. Qed.

Lemma flat_map_nil {A B : Type} (xs : list A) :
  flat_map (fun _ => @nil B) xs = [].
Proof. induction xs as [|a rest IH]; simpl; [reflexivity | exact IH]. Qed.

Lemma data_of_lines {A : Type} (proj : Element -> list A) (ls : list Edge) :
  (forall l, proj (Line l) = []) -> flat_map proj (map Line ls) = [].
Proof.
  intros H. induction ls as [|l rest IH]; simpl; [reflexivity|].
  now rewrite H, IH.
Qed.

Lemma createHierarchicalLayout_pins (s : State) (i : ref) :
  In i (select_nodes (nodes s) (currentFilter s)) ->
  exists n, nth_error (nodes (createHierarchicalLayout s)) i = Some n /\
            fx n <> None /\ fy n <> None.
Proof.
  intros Hi.
  assert (Hlt : i < length (nodes s)) by now apply select_nodes_valid in Hi.
  apply nth_error_Some in Hlt.
  destruct (nth_error (nodes s) i) as [n|] eqn:Hn; [|congruence].
  destruct (createHierarchicalLayout_placed s i n Hi Hn)
    as (c & row & n' & _ & _ & Hn' & _ & Hfx & Hfy).
  exists n'. split; [exact Hn'|]. rewrite Hfx, Hfy. split; discriminate.
Qed.

(** The scene of a static layout, read against the store it was drawn
    from. *)
Lemma static_scene_shows (st : list Node) (xs : list ref) :
  (forall i, In i xs -> exists n, nth_error st i = Some n /\
                                  fx n <> None /\ fy n <> None) ->
  let sc := [ enter_nodes st (fun i d => Circle i (size d) (fx d) (fy d) false) xs;
              enter_nodes st (fun i d => Text i (label_text (title d)) (fx d) (fy d)) xs ] in
  flat_map circle_datum (elements sc) = xs /\
  flat_map text_datum (elements sc) = xs /\
  (forall d r cx cy drag, In (Circle d r cx cy drag) (elements sc) ->
     exists n, nth_error st d = Some n /\ r = size n /\ drag = false /\
               cx = fx n /\ cy = fy n /\ cx <> None /\ cy <> None) /\
  (forall d t tx ty, In (Text d t tx ty) (elements sc) ->
     exists n, nth_error st d = Some n /\ t = label_text (title n) /\
               tx = fx n /\ ty = fy n).
Proof.
  intros Hpinned sc.
  assert (Hvalid : forall i, In i xs -> i < length st).
  { intros i Hi. destruct (Hpinned i Hi) as (n & Hn & _).
    apply nth_error_Some. congruence. }
  unfold sc, elements. simpl. rewrite app_nil_r, !flat_map_app.
  rewrite (data_of_enter_nodes circle_datum st _ xs (fun i => [i])),
    (data_of_enter_nodes circle_datum st _ xs (fun _ => [])),
    (data_of_enter_nodes text_datum st _ xs (fun _ => [])),
    (data_of_enter_nodes text_datum st _ xs (fun i => [i]))
    by (reflexivity || assumption).
  rewrite flat_map_singleton, flat_map_nil, app_nil_r.
  split; [reflexivity|]. split; [reflexivity|]. split.
  - intros d r cx cy drag [Hin | Hin]%in_app_iff;
      apply enter_nodes_In_iff in Hin; destruct Hin as (i & n & Hi & Hn & Heq);
      [|discriminate].
    injection Heq as -> -> -> -> ->.
    destruct (Hpinned i Hi) as (m & Hm & Hfx & Hfy).
    rewrite Hn in Hm. injection Hm as <-. exists n. repeat split; assumption.
  - intros d t tx ty [Hin | Hin]%in_app_iff;
      apply enter_nodes_In_iff in Hin; destruct Hin as (i & n & Hi & Hn & Heq);
      [discriminate|].
    injection Heq as -> -> -> ->. exists n. repeat split. exact Hn.
Qed.

Lemma force_scene_shows (s : State) :
  let xs := select_nodes (nodes s) (currentFilter s) in
  let s' := createForceLayout s in
  flat_map circle_datum (elements (g s')) = xs /\
  flat_map text_datum (elements (g s')) = xs /\
  flat_map line_datum (elements (g s'))
    = select_links (nodes s) (links s) (currentFilter s) /\
  (forall d r cx cy drag, In (Circle d r cx cy drag) (elements (g s')) ->
     exists n, nth_error (nodes s') d = Some n /\ r = size n /\ drag = true /\
               cx = None /\ cy = None) /\
  (forall d t tx ty, In (Text d t tx ty) (elements (g s')) ->
     exists n, nth_error (nodes s') d = Some n /\ t = label_text (title n) /\
               tx = None /\ ty = None).
Proof.
  intros xs s'.
  assert (Hvalid : forall i, In i xs -> i < length (nodes s')).
  { intros i Hi. unfold s'. rewrite createForceLayout_length.
    now apply select_nodes_valid in Hi. }
  unfold s' in *. rewrite createForceLayout_scene. fold xs.
  unfold elements. simpl. rewrite app_nil_r, !flat_map_app.
  rewrite (data_of_lines circle_datum), (data_of_lines text_datum) by reflexivity.
  rewrite (data_of_enter_nodes circle_datum _ _ xs (fun i => [i])),
    (data_of_enter_nodes circle_datum _ _ xs (fun _ => [])),
    (data_of_enter_nodes text_datum _ _ xs (fun _ => [])),
    (data_of_enter_nodes text_datum _ _ xs (fun i => [i])),
    (data_of_enter_nodes line_datum _ _ xs (fun _ => [])),
    (data_of_enter_nodes line_datum _ _ xs (fun _ => []))
    by (reflexivity || assumption).
  rewrite flat_map_singleton, !flat_map_nil, !app_nil_r. simpl.
  split; [reflexivity|]. split; [reflexivity|]. split; [|split].
  - rewrite flat_map_concat_map, map_map. simpl.
    rewrite <- flat_map_concat_map. apply flat_map_singleton.
  - intros d r cx cy drag [Hin | [Hin | Hin]%in_app_iff]%in_app_iff.
    + apply in_map_iff in Hin. destruct Hin as (l & Heq & _). discriminate.
    + apply enter_nodes_In_iff in Hin. destruct Hin as (i & n & Hi & Hn & Heq).
      injection Heq as -> -> -> -> ->. exists n. repeat split. exact Hn.
    + apply enter_nodes_In_iff in Hin. destruct Hin as (i & n & Hi & Hn & Heq).
      discriminate.
  - intros d t tx ty [Hin | [Hin | Hin]%in_app_iff]%in_app_iff.
    + apply in_map_iff in Hin. destruct Hin as (l & Heq & _). discriminate.
    + apply enter_nodes_In_iff in Hin. destruct Hin as (i & n & Hi & Hn & Heq).
      discriminate.
    + apply enter_nodes_In_iff in Hin. destruct Hin as (i & n & Hi & Hn & Heq).
      injection Heq as -> -> -> ->. exists n. repeat split. exact Hn.
Qed.

(** [X8] After [updateLayout] in one of the three layout modes the scene
    holds one circle and one label for each filtered node, in the order
    of the filtered array, and none for any other node. Each circle has
    the radius [size] of its node and each label the truncated title. In
    the force layout the circles carry the drag behaviour and no position
    yet (the tick handler issues it); in the radial and hierarchical
    layouts no circle can be dragged, and every circle and label sits at
    the pinned position of its node, which is set. *)
Theorem scene_shows_filtered_nodes (s : State) :
  currentLayout s = "force" \/ currentLayout s = "radial" \/
  currentLayout s = "hierarchical" ->
  let s' := updateLayout s in
  let xs := select_nodes (nodes s) (currentFilter s) in
  flat_map circle_datum (elements (g s')) = xs /\
  flat_map text_datum (elements (g s')) = xs /\
  (forall d r cx cy drag, In (Circle d r cx cy drag) (elements (g s')) ->
     exists n, nth_error (nodes s') d = Some n /\ r = size n /\
       drag = (currentLayout s =? "force") /\
       if currentLayout s =? "force"
       then cx = None /\ cy = None
       else cx = fx n /\ cy = fy n /\ cx <> None /\ cy <> None) /\
  (forall d t tx ty, In (Text d t tx ty) (elements (g s')) ->
     exists n, nth_error (nodes s') d = Some n /\ t = label_text (title n) /\
       if currentLayout s =? "force"
       then tx = None /\ ty = None
       else tx = fx n /\ ty = fy n).
Proof.
  intros Hmode s' xs. unfold s', xs. rewrite updateLayout_dispatch.
  rewrite <- (nodes_stop_simulation s), <- (currentFilter_stop_simulation s).
  generalize (stop_simulation s). intros t.
  destruct Hmode as [-> | [-> | ->]].
  - rewrite !String.eqb_refl.
    destruct (force_scene_shows t) as (Hc & Ht & _ & Hcircle & Htext).
    split; [exact Hc|]. split; [exact Ht|]. split.
    + intros d r cx cy drag Hin.
      destruct (Hcircle d r cx cy drag Hin) as (n & Hn & Hr & Hd & Hx & Hy).
      exists n. repeat split; assumption.
    + intros d l tx ty Hin.
      destruct (Htext d l tx ty Hin) as (n & Hn & Hl & Hx & Hy).
      exists n. repeat split; assumption.
  - replace ("radial" =? "force") with false by reflexivity.
    rewrite String.eqb_refl. cbv iota.
    rewrite createRadialLayout_scene.
    destruct (static_scene_shows (nodes (createRadialLayout t))
                (select_nodes (nodes t) (currentFilter t))
                (createRadialLayout_pins t)) as (Hc & Ht & Hcircle & Htext).
    split; [exact Hc|]. split; [exact Ht|]. split.
    + intros d r cx cy drag Hin.
      destruct (Hcircle d r cx cy drag Hin) as (n & Hn & Hr & Hd & Hx & Hy & Hnx & Hny).
      exists n. repeat split; assumption.
    + intros d l tx ty Hin.
      destruct (Htext d l tx ty Hin) as (n & Hn & Hl & Hx & Hy).
      exists n. repeat split; assumption.
  - replace ("hierarchical" =? "force") with false by reflexivity.
    replace ("hierarchical" =? "radial") with false by reflexivity.
    rewrite String.eqb_refl. cbv iota.
    rewrite createHierarchicalLayout_scene.
    destruct (static_scene_shows (nodes (createHierarchicalLayout t))
                (select_nodes (nodes t) (currentFilter t))
                (createHierarchicalLayout_pins t)) as (Hc & Ht & Hcircle & Htext).
    split; [exact Hc|]. split; [exact Ht|]. split.
    + intros d r cx cy drag Hin.
      destruct (Hcircle d r cx cy drag Hin) as (n & Hn & Hr & Hd & Hx & Hy & Hnx & Hny).
      exists n. repeat split; assumption.
    + intros d l tx ty Hin.
      destruct (Htext d l tx ty Hin) as (n & Hn & Hl & Hx & Hy).
      exists n. repeat split; assumption.
Qed.

Lemma scene_shows_filtered_nodes_witness :
  let s := with_filter "A" (with_layout "hierarchical" sample_state) in
  flat_map circle_datum (elements (g (updateLayout s))) = [0; 2] /\
  flat_map text_datum (elements (g (updateLayout s))) = [0; 2].
Proof.
  intros s.
  destruct (scene_shows_filtered_nodes s (or_intror (or_intror eq_refl)))
    as (Hc & Ht & _).
  split; [rewrite Hc | rewrite Ht]; reflexivity.
Defined.

(** ** Where the static layouts put the nodes *)

(** [X9] In the radial layout every filtered node is pinned on a circle
    around the centre of the container. The radius of the circle is the
    number line 137 computes for the node, 200 + r * 100 for the value r
    that [Math.random] returned for it, and it lies between 200 and 300,
    both included (the sum of line 137 keeps these bounds when it is
    rounded, and can reach 300). *)
Theorem radial_nodes_in_annulus (s : State) :
  (forall m, (0 <= random_source s m < 1)%R) ->
  forall i, In i (select_nodes (nodes s) (currentFilter s)) ->
  exists n px py k radius,
    nth_error (nodes (createRadialLayout s)) i = Some n /\
    fx n = Some px /\ fy n = Some py /\
    nth_error (select_nodes (nodes s) (currentFilter s)) k = Some i /\
    radius = (200 + random_source s (random_calls s + k) * 100)%R /\
    (200 <= radius <= 300)%R /\
    let dx := (px - IZR (clientWidth s) / 2)%R in
    let dy := (py - IZR (clientHeight s) / 2)%R in
    (dx * dx + dy * dy = radius * radius)%R.
Proof.
  intros Hrandom i Hi.
  assert (Hlt : i < length (nodes s)) by now apply select_nodes_valid in Hi.
  apply nth_error_Some in Hlt.
  destruct (nth_error (nodes s) i) as [n|] eqn:Hn; [|congruence].
  apply In_nth_error in Hi. destruct Hi as [k Hk].
  pose proof (createRadialLayout_placed s k i Hk) as Hplaced.
  rewrite Hn in Hplaced. simpl in Hplaced.
  eexists. eexists. eexists. exists k. eexists. split; [exact Hplaced|].
  split; [reflexivity|]. split; [reflexivity|]. split; [exact Hk|].
  split; [reflexivity|]. simpl.
  set (a := radial_angle _ n).
  set (rnd := random_source s (random_calls s + k)).
  assert (Hr : (0 <= rnd < 1)%R) by apply Hrandom.
  split; [lra|].
  pose proof (sin2_cos2 a) as Hunit. unfold Rsqr in Hunit.
  replace ((IZR (clientWidth s) / 2 + (200 + rnd * 100) * cos a
            - IZR (clientWidth s) / 2)
           * (IZR (clientWidth s) / 2 + (200 + rnd * 100) * cos a
              - IZR (clientWidth s) / 2)
           + (IZR (clientHeight s) / 2 + (200 + rnd * 100) * sin a
              - IZR (clientHeight s) / 2)
             * (IZR (clientHeight s) / 2 + (200 + rnd * 100) * sin a
                - IZR (clientHeight s) / 2))%R
    with ((200 + rnd * 100) * (200 + rnd * 100)
          * (sin a * sin a + cos a * cos a))%R by ring.
  rewrite Hunit. ring.
Qed.

Lemma radial_nodes_in_annulus_witness :
  exists n px py k radius,
    nth_error (nodes (createRadialLayout sample_state)) 1 = Some n /\
    fx n = Some px /\ fy n = Some py /\
    nth_error (select_nodes (nodes sample_state) (currentFilter sample_state)) k
    = Some 1 /\
    radius
    = (200 + random_source sample_state (random_calls sample_state + k) * 100)%R /\
    (200 <= radius <= 300)%R /\
    ((px - IZR (clientWidth sample_state) / 2)
     * (px - IZR (clientWidth sample_state) / 2)
     + (py - IZR (clientHeight sample_state) / 2)
       * (py - IZR (clientHeight sample_state) / 2)
     = radius * radius)%R.
Proof.
  assert (Hrandom : forall m, (0 <= random_source sample_state m < 1)%R).
  { intros m. replace (random_source sample_state m) with 0%R by reflexivity. lra. }
  assert (H1 : In 1 (select_nodes (nodes sample_state) (currentFilter sample_state)))
    by (simpl; tauto).
  exact (radial_nodes_in_annulus sample_state Hrandom 1 H1).
Defined.

Lemma fraction_inside (a : R) (c k : nat) :
  (0 < a)%R -> c < k ->
  (0 < a / INR (k + 1) * INR (c + 1) < a)%R.
Proof.
  intros Ha Hck.
  assert (HK : (0 < INR (k + 1))%R) by (apply lt_0_INR; lia).
  assert (HC : (0 < INR (c + 1))%R) by (apply lt_0_INR; lia).
  assert (HCK : (INR (c + 1) < INR (k + 1))%R) by (apply lt_INR; lia).
  assert (Hq : (0 < / INR (k + 1))%R) by now apply Rinv_0_lt_compat.
  assert (Hone : (INR (k + 1) * / INR (k + 1) = 1)%R)
    by (apply Rinv_r; lra).
  unfold Rdiv. split.
  - apply Rmult_lt_0_compat; [apply Rmult_lt_0_compat|]; assumption.
  - assert (Hfrac : (INR (c + 1) * / INR (k + 1) < 1)%R) by nra.
    replace (a * / INR (k + 1) * INR (c + 1))%R
      with (a * (INR (c + 1) * / INR (k + 1)))%R by ring.
    nra.
Qed.

Lemma nth_error_lt {A : Type} (l : list A) (k : nat) (a : A) :
  nth_error l k = Some a -> k < length l.
Proof. intros H. apply nth_error_Some. congruence. Qed.

(** [X10] In a container of positive width and height the hierarchical
    layout pins every filtered node strictly inside the container:
    0 < x < width and 0 < y < height. *)
Theorem hierarchical_nodes_inside_viewport (s : State) :
  (0 < clientWidth s)%Z -> (0 < clientHeight s)%Z ->
  forall i, In i (select_nodes (nodes s) (currentFilter s)) ->
  exists n px py,
    nth_error (nodes (createHierarchicalLayout s)) i = Some n /\
    fx n = Some px /\ fy n = Some py /\
    (0 < px < IZR (clientWidth s))%R /\ (0 < py < IZR (clientHeight s))%R.
Proof.
  intros Hw Hh i Hi.
  assert (Hlt : i < length (nodes s)) by now apply select_nodes_valid in Hi.
  apply nth_error_Some in Hlt.
  destruct (nth_error (nodes s) i) as [n|] eqn:Hn; [|congruence].
  destruct (createHierarchicalLayout_placed s i n Hi Hn)
    as (c & row & n' & Hc & Hrow & Hn' & _ & Hfx & Hfy).
  exists n'. eexists. eexists. split; [exact Hn'|].
  split; [exact Hfx|]. split; [exact Hfy|]. split.
  - apply fraction_inside; [now apply IZR_lt | now apply nth_error_lt in Hc].
  - apply fraction_inside; [now apply IZR_lt | now apply nth_error_lt in Hrow].
Qed.

Lemma hierarchical_nodes_inside_viewport_witness :
  exists n px py,
    nth_error (nodes (createHierarchicalLayout sample_state)) 2 = Some n /\
    fx n = Some px /\ fy n = Some py /\
    (0 < px < IZR (clientWidth sample_state))%R /\
    (0 < py < IZR (clientHeight sample_state))%R.
Proof.
  assert (H2 : In 2 (select_nodes (nodes sample_state) (currentFilter sample_state)))
    by (simpl; tauto).
  exact (hierarchical_nodes_inside_viewport sample_state eq_refl eq_refl 2 H2).
Defined.

(** [X11] In the hierarchical layout nodes of different categories never
    share a column when the container width is not zero; with a positive
    width the category seen first lies to the left. *)
Theorem hierarchical_columns_apart (s : State) :
  let filteredNodes := select_nodes (nodes s) (currentFilter s) in
  let categories := categories_of (nodes s) filteredNodes in
  let s' := createHierarchicalLayout s in
  forall i1 i2 n1 n2 c1 c2 x1 x2,
    In i1 filteredNodes -> In i2 filteredNodes ->
    nth_error (nodes s') i1 = Some n1 -> nth_error (nodes s') i2 = Some n2 ->
    nth_error categories c1 = Some (category n1) ->
    nth_error categories c2 = Some (category n2) ->
    fx n1 = Some x1 -> fx n2 = Some x2 ->
    (clientWidth s <> 0%Z -> category n1 <> category n2 -> x1 <> x2) /\
    ((0 < clientWidth s)%Z -> c1 < c2 -> (x1 < x2)%R).
Proof.
  intros filteredNodes categories s' i1 i2 n1 n2 c1 c2 x1 x2
    Hi1 Hi2 Hn1 Hn2 Hc1 Hc2 Hx1 Hx2.
  assert (Hcolumn : forall i n c x, In i filteredNodes ->
            nth_error (nodes s') i = Some n ->
            nth_error categories c = Some (category n) -> fx n = Some x ->
            x = (IZR (clientWidth s) / INR (length categories + 1) * INR (c + 1))%R).
  { intros i n c x Hi Hn Hc Hx.
    assert (Hlt : i < length (nodes s)) by now apply select_nodes_valid in Hi.
    apply nth_error_Some in Hlt.
    destruct (nth_error (nodes s) i) as [n0|] eqn:Hn0; [|congruence].
    destruct (createHierarchicalLayout_placed s i n0 Hi Hn0)
      as (c' & _ & n' & Hc' & _ & Hn' & Hcat & Hfx & _).
    fold s' in Hn'. rewrite Hn in Hn'. injection Hn' as <-.
    rewrite <- Hcat in Hc'. fold filteredNodes in Hc'. fold categories in Hc'.
    assert (c' = c).
    { apply (proj1 (NoDup_nth_error categories) (categories_of_NoDup _ _)).
      - now apply nth_error_lt in Hc'.
      - congruence. }
    subst c'. fold filteredNodes in Hfx. fold categories in Hfx. congruence. }
  rewrite (Hcolumn i1 n1 c1 x1 Hi1 Hn1 Hc1 Hx1).
  rewrite (Hcolumn i2 n2 c2 x2 Hi2 Hn2 Hc2 Hx2).
  assert (HK : (0 < INR (length categories + 1))%R) by (apply lt_0_INR; lia).
  split.
  - intros Hw Hcat Heq. apply Rmult_eq_reg_l in Heq.
    + apply INR_eq in Heq. apply Hcat. assert (c1 = c2) by lia. congruence.
    + unfold Rdiv. apply Rmult_integral_contrapositive_currified.
      * now apply not_0_IZR.
      * apply Rinv_neq_0_compat. lra.
  - intros Hw Hlt. apply Rmult_lt_compat_l.
    + apply Rdiv_lt_0_compat; [now apply IZR_lt | exact HK].
    + apply lt_INR. lia.
Qed.

Lemma hierarchical_columns_apart_witness :
  exists n1 n2 x1 x2,
    nth_error (nodes (createHierarchicalLayout sample_state)) 0 = Some n1 /\
    nth_error (nodes (createHierarchicalLayout sample_state)) 1 = Some n2 /\
    fx n1 = Some x1 /\ fx n2 = Some x2 /\ (x1 < x2)%R.
Proof.
  assert (H0 : In 0 (select_nodes (nodes sample_state) (currentFilter sample_state)))
    by (simpl; tauto).
  assert (H1 : In 1 (select_nodes (nodes sample_state) (currentFilter sample_state)))
    by (simpl; tauto).
  destruct (createHierarchicalLayout_placed sample_state 0 _ H0 eq_refl)
    as (c1 & _ & n1 & Hc1 & _ & Hn1 & Hcat1 & Hx1 & _).
  destruct (createHierarchicalLayout_placed sample_state 1 _ H1 eq_refl)
    as (c2 & _ & n2 & Hc2 & _ & Hn2 & Hcat2 & Hx2 & _).
  exists n1, n2. eexists. eexists.
  split; [exact Hn1|]. split; [exact Hn2|]. split; [exact Hx1|]. split; [exact Hx2|].
  rewrite <- Hcat1 in Hc1. rewrite <- Hcat2 in Hc2.
  refine (proj2 (hierarchical_columns_apart sample_state 0 1 n1 n2 c1 c2 _ _
                   H0 H1 Hn1 Hn2 Hc1 Hc2 Hx1 Hx2) eq_refl _).
  rewrite Hcat1 in Hc1. rewrite Hcat2 in Hc2.
  destruct c1 as [|[|c1]]; destruct c2 as [|[|c2]]; simpl in Hc1, Hc2;
    try discriminate; try lia; destruct c1; discriminate.
Defined.

(** ** Layouts under a category filter *)

Lemma first_seen_In (xs : list string) (a : string) :
  In a (first_seen xs) <-> In a xs.
Proof. rewrite <- array_from_set_first_seen. apply array_from_set_In. Qed.

Lemma first_seen_constant (xs : list string) (c : string) :
  xs <> [] -> (forall a, In a xs -> a = c) -> first_seen xs = [c].
Proof.
  destruct xs as [|a rest]; [congruence|]. intros _ Hall. simpl.
  assert (Ha : a = c) by (apply Hall; now left). subst a.
  f_equal. apply filter_none.
  intros b Hb. apply (proj1 (first_seen_In _ _)) in Hb.
  assert (Hbc : b = c) by (apply Hall; now right). subst b.
  now rewrite String.eqb_refl.
Qed.

Lemma filtered_category (st : list Node) (flt : string) (i : ref) (n : Node) :
  flt <> "all" -> In i (select_nodes st flt) -> nth_error st i = Some n ->
  category n = flt.
Proof.
  intros Hflt Hi Hn. apply String.eqb_neq in Hflt.
  unfold select_nodes in Hi. rewrite Hflt in Hi. simpl in Hi.
  apply filter_refs_In in Hi. destruct Hi as (_ & m & Hm & Hcat).
  rewrite Hn in Hm. injection Hm as <-. now apply String.eqb_eq.
Qed.

(** Under a category filter with at least one node, the category array
    of the layouts is that category alone. *)
Lemma categories_single (st : list Node) (flt : string) :
  flt <> "all" -> select_nodes st flt <> [] ->
  categories_of st (select_nodes st flt) = [flt].
Proof.
  intros Hflt Hne. unfold categories_of. rewrite array_from_set_first_seen.
  apply first_seen_constant.
  - destruct (select_nodes st flt) as [|i rest] eqn:Hsel; [congruence|].
    assert (Hi : i < length st).
    { apply (select_nodes_valid st flt). rewrite Hsel. now left. }
    apply nth_error_Some in Hi. simpl.
    destruct (nth_error st i); [discriminate | congruence].
  - intros a Ha. apply map_refs_In in Ha. destruct Ha as (i & n & Hi & Hn & ->).
    now apply (filtered_category st flt i n).
Qed.

(** [X12] Under a category filter the radial layout has one category,
    hence one angle, 0: every filtered node is pinned on the horizontal
    ray to the right of the centre, at y = height/2 and
    x = width/2 + 200 + jitter with jitter in [0,100). *)
Theorem radial_category_filter_one_ray (s : State) :
  currentFilter s <> "all" ->
  (forall m, (0 <= random_source s m < 1)%R) ->
  forall i, In i (select_nodes (nodes s) (currentFilter s)) ->
  exists n jitter,
    nth_error (nodes (createRadialLayout s)) i = Some n /\
    (0 <= jitter < 100)%R /\
    fx n = Some (IZR (clientWidth s) / 2 + (200 + jitter))%R /\
    fy n = Some (IZR (clientHeight s) / 2)%R.
Proof.
  intros Hflt Hrandom i Hi.
  assert (Hne : select_nodes (nodes s) (currentFilter s) <> []).
  { intros Hnil. rewrite Hnil in Hi. destruct Hi. }
  assert (Hlt : i < length (nodes s)) by now apply select_nodes_valid in Hi.
  apply nth_error_Some in Hlt.
  destruct (nth_error (nodes s) i) as [n|] eqn:Hn; [|congruence].
  pose proof (filtered_category _ _ i n Hflt Hi Hn) as Hcat.
  apply In_nth_error in Hi. destruct Hi as [k Hk].
  pose proof (createRadialLayout_placed s k i Hk) as Hplaced.
  rewrite Hn, (categories_single _ _ Hflt Hne) in Hplaced. simpl in Hplaced.
  assert (Hangle : radial_angle [currentFilter s] n = 0%R).
  { unfold radial_angle, indexOf. simpl. rewrite Hcat, String.eqb_refl. ring. }
  eexists. exists (random_source s (random_calls s + k) * 100)%R.
  split; [exact Hplaced|]. split.
  - specialize (Hrandom (random_calls s + k)). lra.
  - simpl. rewrite Hangle, cos_0, sin_0. split; f_equal; ring.
Qed.

Lemma radial_category_filter_one_ray_witness :
  let s := with_filter "A" sample_state in
  exists n jitter,
    nth_error (nodes (createRadialLayout s)) 2 = Some n /\
    (0 <= jitter < 100)%R /\
    fy n = Some (IZR (clientHeight s) / 2)%R.
Proof.
  intros s.
  assert (Hrandom : forall m, (0 <= random_source s m < 1)%R).
  { intros m. replace (random_source s m) with 0%R by reflexivity. lra. }
  assert (Hflt : currentFilter s <> "all") by discriminate.
  assert (H2 : In 2 (select_nodes (nodes s) (currentFilter s))) by (simpl; tauto).
  destruct (radial_category_filter_one_ray s Hflt Hrandom 2 H2)
    as (n & jitter & Hn & Hj & _ & Hy).
  exists n, jitter. split; [exact Hn|]. split; [exact Hj | exact Hy].
Defined.

(** [X13] Under a category filter the hierarchical layout is a single
    column in the middle of the container: the filtered node at position
    j of the m filtered nodes is pinned at x = width/2 and
    y = height/(m+1) * (j+1). *)
Theorem hierarchical_category_filter_one_column (s : State) :
  currentFilter s <> "all" ->
  let filteredNodes := select_nodes (nodes s) (currentFilter s) in
  forall j i, nth_error filteredNodes j = Some i ->
  exists n,
    nth_error (nodes (createHierarchicalLayout s)) i = Some n /\
    fx n = Some (IZR (clientWidth s) / 2)%R /\
    fy n = Some (IZR (clientHeight s) / INR (length filteredNodes + 1)
                 * INR (j + 1))%R.
Proof.
  intros Hflt filteredNodes j i Hj.
  assert (Hi : In i filteredNodes) by (eapply nth_error_In, Hj).
  assert (Hne : filteredNodes <> []).
  { intros Hnil. rewrite Hnil in Hi. destruct Hi. }
  assert (Hlt : i < length (nodes s)) by now apply select_nodes_valid in Hi.
  apply nth_error_Some in Hlt.
  destruct (nth_error (nodes s) i) as [n|] eqn:Hn; [|congruence].
  pose proof (filtered_category _ _ i n Hflt Hi Hn) as Hcat.
  destruct (createHierarchicalLayout_placed s i n Hi Hn)
    as (c & row & n' & Hc & Hrow & Hn' & _ & Hfx & Hfy).
  fold filteredNodes in Hc, Hrow, Hfx, Hfy.
  unfold filteredNodes in Hc, Hfx.
  rewrite (categories_single _ _ Hflt Hne) in Hc, Hfx.
  fold filteredNodes in Hc, Hfx.
  assert (Hmembers : filter_refs (nodes s) (fun m => category m =? category n)
                       filteredNodes = filteredNodes).
  { unfold filter_refs. apply filter_all. intros a Ha.
    assert (Halt : a < length (nodes s)) by now apply select_nodes_valid in Ha.
    apply nth_error_Some in Halt.
    destruct (nth_error (nodes s) a) as [m|] eqn:Hm; [|congruence].
    rewrite (filtered_category _ _ a m Hflt Ha Hm), Hcat.
    apply String.eqb_refl. }
  rewrite Hmembers in Hrow, Hfy.
  assert (row = j).
  { apply (proj1 (NoDup_nth_error filteredNodes) (select_nodes_NoDup _ _)).
    - now apply nth_error_lt in Hrow.
    - congruence. }
  subst row.
  destruct c as [|c]; [|destruct c; discriminate].
  exists n'. split; [exact Hn'|]. split; [|exact Hfy].
  rewrite Hfx. f_equal. simpl. field.
Qed.

Lemma hierarchical_category_filter_one_column_witness :
  let s := with_filter "A" sample_state in
  exists n,
    nth_error (nodes (createHierarchicalLayout s)) 2 = Some n /\
    fx n = Some (IZR (clientWidth s) / 2)%R.
Proof.
  intros s.
  assert (Hflt : currentFilter s <> "all") by discriminate.
  destruct (hierarchical_category_filter_one_column s Hflt 1 2 eq_refl)
    as (n & Hn & Hx & _).
  exists n. split; [exact Hn | exact Hx].
Defined.

(** ** Laying out twice *)

Lemma state_ext (s t : State) :
  nodes s = nodes t -> links s = links t ->
  currentFilter s = currentFilter t -> currentLayout s = currentLayout t ->
  simulation s = simulation t -> g s = g t ->
  clientWidth s = clientWidth t -> clientHeight s = clientHeight t ->
  random_source s = random_source t -> random_calls s = random_calls t ->
  s = t.
Proof.
  destruct s, t. simpl. intros. subst. reflexivity.
Qed.

Lemma node_ext (a b : Node) :
  erase a = erase b -> fx a = fx b -> fy a = fy b -> a = b.
Proof.
  destruct a, b. unfold erase, set_pin. simpl. intros [=] -> ->.
  subst. reflexivity.
Qed.

Lemma map_refs_erase {A : Type} (st st' : list Node) (f : Node -> A)
  (xs : list ref) :
  map erase st = map erase st' ->
  (forall a b, erase a = erase b -> f a = f b) ->
  map_refs st f xs = map_refs st' f xs.
Proof.
  intros H Hf. unfold map_refs. apply flat_map_ext. intros i.
  pose proof (erase_nth st st' i H) as Hi.
  destruct (nth_error st i) as [a|], (nth_error st' i) as [b|];
    simpl in Hi; try discriminate; [|reflexivity].
  f_equal. apply Hf. congruence.
Qed.

Lemma select_links_erase (st st' : list Node) (ls : list Edge) (flt : string) :
  map erase st = map erase st' -> select_links st ls flt = select_links st' ls flt.
Proof.
  intros H. unfold select_links. destruct (negb (flt =? "all")); [|reflexivity].
  unfold all_refs. rewrite (erase_length _ _ H).
  rewrite (filter_refs_erase st st' _ _ H (category_erase flt)).
  rewrite (map_refs_erase st st' id _ H); [reflexivity|].
  intros a b Hab. apply (f_equal id) in Hab. exact Hab.
Qed.

Lemma enter_nodes_same (st st' : list Node) (mk : ref -> Node -> Element)
  (xs : list ref) :
  st = st' -> enter_nodes st mk xs = enter_nodes st' mk xs.
Proof. intros ->. reflexivity. Qed.

Lemma clear_loop_twice (xs : list ref) (st : list Node) :
  forEach xs (fun node _ t => update t node (set_pin None None))
    (forEach xs (fun node _ t => update t node (set_pin None None)) st)
  = forEach xs (fun node _ t => update t node (set_pin None None)) st.
Proof.
  apply nth_error_ext. intros i.
  destruct (in_dec Nat.eq_dec i xs) as [Hin | Hout].
  - rewrite !clear_loop_in by exact Hin. now destruct (nth_error st i).
  - now rewrite !clear_loop_out by exact Hout.
Qed.

Lemma createForceLayout_twice (t u : State) :
  nodes u = nodes (createForceLayout t) -> links u = links t ->
  currentFilter u = currentFilter t -> currentLayout u = currentLayout t ->
  clientWidth u = clientWidth t -> clientHeight u = clientHeight t ->
  random_source u = random_source t -> random_calls u = random_calls t ->
  createForceLayout u = createForceLayout t.
Proof.
  intros Hn Hl Hf Hm Hw Hh Hsrc Hcalls.
  assert (He : map erase (nodes u) = map erase (nodes t)).
  { rewrite Hn. apply createForceLayout_erase. }
  assert (Hsel : select_nodes (nodes u) (currentFilter u)
                 = select_nodes (nodes t) (currentFilter t)).
  { rewrite Hf. now apply select_nodes_erase. }
  assert (Hlinks : select_links (nodes u) (links u) (currentFilter u)
                   = select_links (nodes t) (links t) (currentFilter t)).
  { rewrite Hf, Hl. now apply select_links_erase. }
  assert (Hnodes : nodes (createForceLayout u) = nodes (createForceLayout t)).
  { rewrite (createForceLayout_nodes u), Hsel, Hn, (createForceLayout_nodes t).
    apply clear_loop_twice. }
  apply state_ext; try assumption.
  - rewrite !createForceLayout_simulation. now rewrite Hsel, Hlinks, Hw, Hh.
  - rewrite !createForceLayout_scene. cbv zeta. now rewrite Hsel, Hlinks, Hnodes.
Qed.

(** The hierarchical layout of a state whose store already is the
    hierarchical layout of [t] for the same filter and container. *)
Lemma createHierarchicalLayout_twice_nodes (t u : State) :
  nodes u = nodes (createHierarchicalLayout t) ->
  currentFilter u = currentFilter t ->
  clientWidth u = clientWidth t -> clientHeight u = clientHeight t ->
  nodes (createHierarchicalLayout u) = nodes u.
Proof.
  intros Hn Hf Hw Hh.
  assert (He : map erase (nodes u) = map erase (nodes t)).
  { rewrite Hn. apply createHierarchicalLayout_erase. }
  assert (Hsel : select_nodes (nodes u) (currentFilter u)
                 = select_nodes (nodes t) (currentFilter t)).
  { rewrite Hf. now apply select_nodes_erase. }
  apply nth_error_ext. intros i.
  destruct (in_dec Nat.eq_dec i (select_nodes (nodes u) (currentFilter u)))
    as [Hin | Hout]; [|now apply createHierarchicalLayout_unplaced].
  assert (Hlt : i < length (nodes t)).
  { rewrite Hsel in Hin. now apply select_nodes_valid in Hin. }
  apply nth_error_Some in Hlt.
  destruct (nth_error (nodes t) i) as [n0|] eqn:Hn0; [|congruence].
  destruct (createHierarchicalLayout_placed t i n0) as
    (c & row & n1 & Hc & Hrow & Hn1 & Hcat1 & Hfx1 & Hfy1);
    [now rewrite <- Hsel | exact Hn0 |].
  rewrite <- Hn in Hn1.
  destruct (createHierarchicalLayout_placed u i n1 Hin Hn1) as
    (c' & row' & n2 & Hc' & Hrow' & Hn2 & Hcat2 & Hfx2 & Hfy2).
  rewrite Hsel, Hw, Hh in *.
  assert (Hcats : categories_of (nodes u) (select_nodes (nodes t) (currentFilter t))
                  = categories_of (nodes t) (select_nodes (nodes t) (currentFilter t))).
  { unfold categories_of. f_equal. apply map_refs_erase; [exact He|].
    intros a b Hab. apply (f_equal category) in Hab. exact Hab. }
  assert (Hmembers :
            filter_refs (nodes u) (fun m => category m =? category n1)
              (select_nodes (nodes t) (currentFilter t))
            = filter_refs (nodes t) (fun m => category m =? category n0)
                (select_nodes (nodes t) (currentFilter t))).
  { rewrite Hcat1. apply filter_refs_erase; [exact He | apply category_erase]. }
  rewrite Hcats in Hc', Hfx2. rewrite Hmembers in Hrow', Hfy2.
  rewrite Hcat1 in Hc'.
  assert (c' = c).
  { apply (proj1 (NoDup_nth_error _) (categories_of_NoDup (nodes t)
             (select_nodes (nodes t) (currentFilter t)))).
    - now apply nth_error_lt in Hc'.
    - congruence. }
  assert (row' = row).
  { apply (proj1 (NoDup_nth_error _)
             (filter_refs_NoDup (nodes t) (fun m => category m =? category n0) _
                (select_nodes_NoDup (nodes t) (currentFilter t)))).
    - now apply nth_error_lt in Hrow'.
    - congruence. }
  subst c' row'. rewrite Hn2, Hn1. f_equal. apply node_ext.
  - destruct (erase_lookup _ _ i n1 (createHierarchicalLayout_erase u) Hn1)
      as (m & Hm & Hmn). rewrite Hn2 in Hm. injection Hm as <-. exact Hmn.
  - congruence.
  - congruence.
Qed.

Lemma sim_stop_twice (o : option Simulation) :
  option_map sim_stop (option_map sim_stop o) = option_map sim_stop o.
Proof. destruct o; reflexivity. Qed.

Lemma stop_simulation_twice (s : State) :
  stop_simulation (stop_simulation s) = stop_simulation s.
Proof.
  unfold stop_simulation at 1.
  destruct (simulation (stop_simulation s)) as [sim|] eqn:Hsim; [|reflexivity].
  rewrite stop_simulation_handle in Hsim.
  unfold stop_simulation. destruct (simulation s) as [old|]; [|discriminate].
  simpl in Hsim. injection Hsim as <-. reflexivity.
Qed.

Lemma createHierarchicalLayout_fields (t : State) :
  links (createHierarchicalLayout t) = links t /\
  currentFilter (createHierarchicalLayout t) = currentFilter t /\
  currentLayout (createHierarchicalLayout t) = currentLayout t /\
  simulation (createHierarchicalLayout t) = simulation t /\
  clientWidth (createHierarchicalLayout t) = clientWidth t /\
  clientHeight (createHierarchicalLayout t) = clientHeight t /\
  random_source (createHierarchicalLayout t) = random_source t /\
  random_calls (createHierarchicalLayout t) = random_calls t.
Proof. repeat split. Qed.

Lemma createForceLayout_fields (t : State) :
  links (createForceLayout t) = links t /\
  currentFilter (createForceLayout t) = currentFilter t /\
  currentLayout (createForceLayout t) = currentLayout t /\
  clientWidth (createForceLayout t) = clientWidth t /\
  clientHeight (createForceLayout t) = clientHeight t /\
  random_source (createForceLayout t) = random_source t /\
  random_calls (createForceLayout t) = random_calls t.
Proof. repeat split. Qed.

Lemma stop_simulation_fields (t : State) :
  nodes (stop_simulation t) = nodes t /\ links (stop_simulation t) = links t /\
  currentFilter (stop_simulation t) = currentFilter t /\
  currentLayout (stop_simulation t) = currentLayout t /\
  g (stop_simulation t) = g t /\
  clientWidth (stop_simulation t) = clientWidth t /\
  clientHeight (stop_simulation t) = clientHeight t /\
  random_source (stop_simulation t) = random_source t /\
  random_calls (stop_simulation t) = random_calls t.
Proof. unfold stop_simulation. destruct (simulation t); repeat split. Qed.

(** [X14] Outside the radial mode [updateLayout] is idempotent: running it
    a second time, as a resize to the same size or a re-selection of the
    same option does, gives the very same state: the same pins, scene and
    simulation handle. *)
Theorem relayout_idempotent (s : State) :
  currentLayout s <> "radial" ->
  updateLayout (updateLayout s) = updateLayout s.
Proof.
  intros Hmode. apply String.eqb_neq in Hmode.
  assert (Hlayout : currentLayout (updateLayout s) = currentLayout s)
    by apply updateLayout_layout.
  rewrite (updateLayout_dispatch (updateLayout s)), Hlayout, Hmode.
  rewrite (updateLayout_dispatch s), Hmode.
  destruct (stop_simulation_fields s) as (Sn & Sl & Sf & Sm & Sg & Sw & Sh & Ssrc & Sc).
  destruct (currentLayout s =? "force") eqn:Hforce.
  - set (t := stop_simulation s).
    destruct (createForceLayout_fields t) as (Fl & Ff & Fm & Fw & Fh & Fsrc & Fc).
    destruct (stop_simulation_fields (createForceLayout t))
      as (Un & Ul & Uf & Um & _ & Uw & Uh & Usrc & Uc).
    apply createForceLayout_twice; congruence.
  - destruct (currentLayout s =? "hierarchical") eqn:Hhier;
      [|apply stop_simulation_twice].
    set (t := stop_simulation s).
    destruct (createHierarchicalLayout_fields t)
      as (Hl & Hf & Hm & Hsim & Hw & Hh & Hsrc & Hc).
    destruct (stop_simulation_fields (createHierarchicalLayout t))
      as (Un & Ul & Uf & Um & _ & Uw & Uh & Usrc & Uc).
    set (u := stop_simulation (createHierarchicalLayout t)) in *.
    assert (Hnodes : nodes (createHierarchicalLayout u) = nodes u).
    { apply (createHierarchicalLayout_twice_nodes t u); congruence. }
    assert (Hsel : select_nodes (nodes u) (currentFilter u)
                   = select_nodes (nodes t) (currentFilter t)).
    { rewrite Uf, Hf, Un. apply select_nodes_erase, createHierarchicalLayout_erase. }
    destruct (createHierarchicalLayout_fields u)
      as (Vl & Vf & Vm & Vsim & Vw & Vh & Vsrc & Vc).
    apply state_ext; try congruence.
    + rewrite Vsim, Hsim. unfold u. rewrite stop_simulation_handle, Hsim.
      unfold t. rewrite stop_simulation_handle. apply sim_stop_twice.
    + rewrite !createHierarchicalLayout_scene. cbv zeta.
      now rewrite Hsel, Hnodes, Un.
Qed.

Lemma relayout_idempotent_witness :
  let s := with_layout "hierarchical" sample_state in
  currentLayout s <> "radial" /\
  updateLayout (updateLayout s) = updateLayout s.
Proof.
  intros s.
  assert (Hmode : currentLayout s <> "radial") by discriminate.
  split; [exact Hmode|]. exact (relayout_idempotent s Hmode).
Defined.

(** * The edge objects under the category filter *)

Lemma update_link_same (store : list LinkObject) (r : ref) (l : LinkObject) :
  nth_error store r = Some l -> update_link store r (fun _ => l) = store.
Proof.
  revert r. induction store as [|x rest IH]; intros [|r] H; simpl in *;
    try discriminate.
  - now injection H as ->.
  - now rewrite IH.
Qed.

Lemma update_link_middle (pre suf : list LinkObject) (l : LinkObject)
  (f : LinkObject -> LinkObject) :
  update_link (pre ++ l :: suf) (length pre) f = pre ++ f l :: suf.
Proof. induction pre as [|x pre IH]; simpl; [reflexivity | now rewrite IH]. Qed.

Lemma nth_error_middle {A : Type} (pre suf : list A) (l : A) :
  nth_error (pre ++ l :: suf) (length pre) = Some l.
Proof. induction pre as [|x pre IH]; simpl; [reflexivity | exact IH]. Qed.

Lemma resolved_value (l : LinkObject) :
  resolved l = true ->
  exists a b, l = mkLinkObject (NodeObject a) (NodeObject b).
Proof.
  destruct l as [[i|a] [j|b]]; simpl; try discriminate. eauto.
Qed.

(** On objects d3 has resolved, the filter expression keeps nothing. *)
Lemma resolved_select_nothing (st : list Node) (store : list LinkObject)
  (flt : string) :
  Forall (fun l => resolved l = true) store -> flt <> "all" ->
  select_link_objects st store flt = [].
Proof.
  intros Hres Hflt. apply String.eqb_neq in Hflt.
  unfold select_link_objects. rewrite Hflt. simpl.
  apply filter_none. intros r _.
  destruct (nth_error store r) as [l|] eqn:Hl; [|reflexivity].
  apply nth_error_In in Hl. rewrite Forall_forall in Hres.
  destruct (resolved_value l (Hres l Hl)) as (a & b & ->). reflexivity.
Qed.

(** A later [d3.forceLink] leaves resolved objects as they are. *)
Lemma forceLink_resolved (st : list Node) (simNodes filteredLinks : list ref)
  (store : list LinkObject) :
  Forall (fun l => resolved l = true) store ->
  forceLink st simNodes filteredLinks store = Some store.
Proof.
  intros Hres. unfold forceLink.
  induction filteredLinks as [|r rest IH]; simpl; [reflexivity|].
  destruct (nth_error store r) as [l|] eqn:Hl; [|exact IH].
  pose proof Hl as Hin. apply nth_error_In in Hin.
  pose proof (proj1 (Forall_forall _ _) Hres l Hin) as Hl'.
  destruct (resolved_value l Hl') as (a & b & ->). simpl.
  rewrite (update_link_same store r _ Hl). exact IH.
Qed.

Lemma node_by_id_found (st : list Node) (i : string) :
  In i (map id st) ->
  exists r n,
    node_by_id st (all_refs st) i = Some r /\
    nth_error st r = Some n /\ id n = i.
Proof.
  intros Hin. unfold node_by_id.
  match goal with |- context [find ?f ?l] =>
    destruct (find f l) as [r|] eqn:Hfind
  end.
  - apply find_some in Hfind. destruct Hfind as [_ Hr].
    destruct (nth_error st r) as [n|] eqn:Hn; [|discriminate].
    exists r, n. split; [reflexivity|]. split; [exact Hn|].
    now apply String.eqb_eq.
  - exfalso. apply in_map_iff in Hin. destruct Hin as (n & Hid & Hn).
    apply In_nth_error in Hn. destruct Hn as [r Hr].
    assert (Hlt : r < length st) by (apply nth_error_Some; congruence).
    pose proof (find_none _ _ Hfind r) as Hnone.
    rewrite <- in_rev, all_refs_In in Hnone. specialize (Hnone Hlt).
    rewrite Hr, Hid, String.eqb_refl in Hnone. discriminate.
Qed.

Lemma build_links_endpoints (experiments : list Experiment) (e : Edge) :
  In e (build_links experiments) ->
  In (source e) (map id (build_nodes experiments)) /\
  In (target e) (map id (build_nodes experiments)).
Proof.
  rewrite build_links_flat_map, build_nodes_ids, in_flat_map.
  intros (exp & Hexp & He).
  destruct (related_of exp) as [rel|]; [|destruct He].
  apply in_map_iff in He. destruct He as (r & <- & Hr).
  apply filter_In in Hr. destruct Hr as [_ Hk]. simpl. split.
  - now apply in_map.
  - now apply known_id_In.
Qed.

(** The first [d3.forceLink], over every object and every node. *)
Lemma forceLink_load (st : list Node) (edges : list Edge) (pre : list LinkObject) :
  (forall e, In e edges ->
     In (source e) (map id st) /\ In (target e) (map id st)) ->
  exists objs,
    fold_left (forceLink_step st (all_refs st))
      (seq (length pre) (length edges)) (Some (pre ++ map link_object edges))
    = Some (pre ++ objs) /\
    Forall2 (resolved_as st) objs edges.
Proof.
  revert pre. induction edges as [|e rest IH]; intros pre Hends.
  - exists []. split; [reflexivity | constructor].
  - destruct (Hends e (or_introl eq_refl)) as [Hs Ht].
    destruct (node_by_id_found st (source e) Hs) as (a & na & Ha & Hna & Hida).
    destruct (node_by_id_found st (target e) Ht) as (b & nb & Hb & Hnb & Hidb).
    destruct (IH (pre ++ [mkLinkObject (NodeObject a) (NodeObject b)]))
      as (objs & Hfold & Hall).
    { intros e' He'. apply Hends. now right. }
    exists (mkLinkObject (NodeObject a) (NodeObject b) :: objs). split.
    + cbn [length seq map fold_left]. unfold forceLink_step at 2.
      rewrite nth_error_middle.
      change (source_value (link_object e)) with (IdString (source e)).
      change (target_value (link_object e)) with (IdString (target e)).
      unfold resolve. rewrite Ha, Hb. cbn [option_map].
      rewrite update_link_middle.
      rewrite length_app, Nat.add_1_r in Hfold.
      rewrite <- app_assoc in Hfold. cbn [app] in Hfold.
      rewrite Hfold. now rewrite <- app_assoc.
    + constructor; [|exact Hall]. exists a, b, na, nb. repeat split; assumption.
Qed.

Lemma resolved_as_resolved (st : list Node) (objs : list LinkObject)
  (edges : list Edge) :
  Forall2 (resolved_as st) objs edges ->
  Forall (fun l => resolved l = true) objs.
Proof.
  induction 1 as [|l e objs edges (a & b & _ & _ & -> & _) _ IH];
    constructor; [reflexivity | exact IH].
Qed.

Lemma handle_links_resolved (e : Event) (s : State) (store : list LinkObject) :
  Forall (fun l => resolved l = true) store ->
  handle_links e s store = Some store.
Proof.
  intros Hres.
  assert (Hlayout : forall t, updateLayout_links t store = Some store).
  { intros t. unfold updateLayout_links.
    destruct (currentLayout (stop_simulation t) =? "force"); [|reflexivity].
    now apply forceLink_resolved. }
  destruct e; simpl; auto.
Qed.

Lemma run_links_resolved (trace : list Event) (s : State)
  (store : list LinkObject) :
  Forall (fun l => resolved l = true) store ->
  run_links trace s store = Some store.
Proof.
  intros Hres. revert s. induction trace as [|e rest IH]; intros s; simpl;
    [reflexivity|].
  rewrite (handle_links_resolved e s store Hres). apply IH.
Qed.

(** [C1] The selection of nodes is as the filter says, and so is the
    selection of edges under "all", but under a category filter the
    script selects no edge at all. The load runs the force layout under
    "all", where [d3.forceLink] replaces both endpoints of every edge
    object by the node objects with those ids; nothing the user does
    afterwards changes the objects again; and the filter expression of
    lines 79-80, which looks the endpoints up in a set of id strings,
    then finds neither endpoint of any edge, also when both nodes
    survive the filter. *)
Theorem category_filter_selects_no_edge (experiments : list Experiment)
  (w h : Z) (rnd : nat -> R) (trace : list Event) :
  let loaded := initializeGraph experiments (initial_state w h rnd) in
  let s := run trace loaded in
  exists store,
    initializeGraph_links experiments (initial_state w h rnd) = Some store /\
    Forall2 (resolved_as (build_nodes experiments)) store
      (build_links experiments) /\
    run_links trace loaded store = Some store /\
    select_link_objects (nodes s) store "all" = all_link_refs store /\
    forall flt, flt <> "all" -> select_link_objects (nodes s) store flt = [].
Proof.
  intros loaded s.
  destruct (forceLink_load (build_nodes experiments) (build_links experiments) []
              (build_links_endpoints experiments))
    as (store & Hfold & Hall).
  pose proof (resolved_as_resolved _ _ _ Hall) as Hres.
  exists store. split.
  - unfold initializeGraph_links, createForceLayout_links, forceLink,
      select_link_objects, select_nodes, all_link_refs.
    cbn [nodes currentFilter with_scene with_links with_nodes initial_state].
    replace ("all" =? "all") with true by reflexivity. cbn [negb].
    rewrite length_map. exact Hfold.
  - split; [exact Hall|]. split; [now apply run_links_resolved|].
    split; [reflexivity|]. intros flt Hflt.
    now apply resolved_select_nothing.
Qed.

Lemma category_filter_selects_no_edge_witness :
  exists store,
    initializeGraph_links sample_experiments (initial_state 800 600 (fun _ => 0%R))
    = Some store /\
    store = [mkLinkObject (NodeObject 0) (NodeObject 1);
             mkLinkObject (NodeObject 0) (NodeObject 2)] /\
    select_links sample_nodes sample_links "A" = [mkEdge "1" "3"] /\
    select_link_objects
      (nodes (run [FilterChange "A"]
                (initializeGraph sample_experiments
                   (initial_state 800 600 (fun _ => 0%R)))))
      store "A" = [].
Proof.
  destruct (category_filter_selects_no_edge sample_experiments 800 600
              (fun _ => 0%R) [FilterChange "A"])
    as (store & Hload & _ & _ & _ & Hnone).
  exists store. split; [exact Hload|]. split.
  - assert (Hrun : initializeGraph_links sample_experiments
                     (initial_state 800 600 (fun _ => 0%R))
                   = Some [mkLinkObject (NodeObject 0) (NodeObject 1);
                           mkLinkObject (NodeObject 0) (NodeObject 2)])
      by reflexivity.
    rewrite Hrun in Hload. now injection Hload as <-.
  - split; [reflexivity|]. apply Hnone. discriminate.
Defined.

(** * The research list page: properties *)

Module ResearchFacts.

Import Research.

(** ** Pages of a list *)

Lemma firstn_add_skipn {A : Type} (a b : nat) (l : list A) :
  firstn (a + b) l = firstn a l ++ firstn b (skipn a l).
Proof.
  revert l. induction a as [|a IH]; intros l; simpl; [reflexivity|].
  destruct l as [|x rest]; simpl.
  - now rewrite firstn_nil.
  - now rewrite IH.
Qed.

(** The slice of page number [p + 1]. *)
Lemma slice_page {A : Type} (l : list A) (p : nat) :
  js_slice l (Z.of_nat p * itemsPerPage)%Z
    (Z.of_nat p * itemsPerPage + itemsPerPage)%Z
  = firstn 8 (skipn (p * 8) l).
Proof.
  unfold js_slice, itemsPerPage.
  destruct (Z.ltb_spec (Z.of_nat p * 8) 0); [lia|].
  destruct (Z.ltb_spec (Z.of_nat p * 8 + 8) 0); [lia|].
  destruct (Nat.le_gt_cases (length l) (p * 8)) as [Hout | Hin].
  - rewrite (skipn_all2 (n := p * 8)) by exact Hout.
    rewrite skipn_all2 by lia. now rewrite !firstn_nil.
  - replace (Z.to_nat (Z.min (Z.of_nat p * 8) (Z.of_nat (length l)))) with (p * 8)
      by lia.
    destruct (Nat.le_gt_cases (p * 8 + 8) (length l)) as [Hfull | Hlast].
    + f_equal. lia.
    + rewrite (firstn_all2 (n := 8)) by (rewrite length_skipn; lia).
      apply firstn_all2. rewrite length_skipn. lia.
Qed.

Lemma pages_concat {A : Type} (l : list A) (n : nat) :
  concat (map (fun p => firstn 8 (skipn (p * 8) l)) (seq 0 n)) = firstn (n * 8) l.
Proof.
  induction n as [|n IH]; [reflexivity|].
  rewrite seq_S, map_app, concat_app, IH. cbn [map concat Nat.add].
  rewrite app_nil_r.
  replace (S n * 8) with (n * 8 + 8) by lia.
  now rewrite firstn_add_skipn.
Qed.

Lemma ceil_div_spec (n : nat) :
  (0 <= ceil_div n)%Z /\
  n <= Z.to_nat (ceil_div n) * 8 /\
  (n = 0 <-> ceil_div n = 0%Z) /\
  (0 < n -> (Z.to_nat (ceil_div n) - 1) * 8 < n).
Proof.
  unfold ceil_div, itemsPerPage.
  assert (Hdiv : (Z.of_nat n + (8 - 1) = 8 * ((Z.of_nat n + (8 - 1)) / 8)
                  + (Z.of_nat n + (8 - 1)) mod 8)%Z) by (apply Z.div_mod; lia).
  assert (Hmod : (0 <= (Z.of_nat n + (8 - 1)) mod 8 < 8)%Z)
    by (apply Z.mod_pos_bound; lia).
  assert (Hnonneg : (0 <= (Z.of_nat n + (8 - 1)) / 8)%Z)
    by (apply Z.div_pos; lia).
  repeat split; try lia.
Qed.

Lemma pages_upto_shift (total : Z) :
  pages_upto total = map (fun p => (Z.of_nat p + 1)%Z) (seq 0 (Z.to_nat total)).
Proof.
  unfold pages_upto. rewrite <- seq_shift, map_map. apply map_ext.
  intros p. lia.
Qed.

Lemma slice_of_page {A : Type} (l : list A) (page : Z) :
  (1 <= page)%Z ->
  js_slice l ((page - 1) * itemsPerPage)%Z
    ((page - 1) * itemsPerPage + itemsPerPage)%Z
  = firstn 8 (skipn (Z.to_nat (page - 1) * 8) l).
Proof.
  intros Hp. rewrite <- slice_page. unfold itemsPerPage. f_equal; lia.
Qed.

Lemma slice_nonempty {A : Type} (l : list A) (page : Z) :
  (1 <= page <= ceil_div (length l))%Z ->
  js_slice l ((page - 1) * itemsPerPage)%Z
    ((page - 1) * itemsPerPage + itemsPerPage)%Z <> [].
Proof.
  intros Hp Hnil. rewrite slice_of_page in Hnil by lia.
  destruct (ceil_div_spec (length l)) as (Hnonneg & Hcover & Hzero & Hlast).
  apply (f_equal (@length A)) in Hnil.
  rewrite length_firstn, length_skipn in Hnil. cbn [length] in Hnil.
  assert (Hpos : 0 < length l).
  { destruct (Nat.eq_dec (length l) 0) as [Hz | Hz]; [|lia].
    apply (proj1 Hzero) in Hz. lia. }
  specialize (Hlast Hpos).
  assert (Z.to_nat (page - 1) * 8 <= (Z.to_nat (ceil_div (length l)) - 1) * 8)
    by nia.
  lia.
Qed.

Lemma slice_beyond {A : Type} (l : list A) (page : Z) :
  (1 <= page)%Z -> (ceil_div (length l) < page)%Z ->
  js_slice l ((page - 1) * itemsPerPage)%Z
    ((page - 1) * itemsPerPage + itemsPerPage)%Z = [].
Proof.
  intros Hp Hbeyond. rewrite slice_of_page by lia.
  destruct (ceil_div_spec (length l)) as (Hnonneg & Hcover & _).
  rewrite skipn_all2; [apply firstn_nil|].
  assert (Z.to_nat (ceil_div (length l)) * 8 <= Z.to_nat (page - 1) * 8) by nia.
  lia.
Qed.

(** [X15] The pages cut a result list into consecutive pieces: the slices
    that [renderExperiments] takes for the page numbers 1 to
    ceil(length/8), put one after the other, are the list itself; each
    holds at most 8 records and none of them is empty, and the slice of
    any later page number is empty. *)
Theorem pages_partition_results (l : list Exp) :
  let totalPages := ceil_div (length l) in
  let slice_of page :=
    js_slice l ((page - 1) * itemsPerPage)%Z
      ((page - 1) * itemsPerPage + itemsPerPage)%Z in
  concat (map slice_of (pages_upto totalPages)) = l /\
  (forall page, (1 <= page)%Z -> length (slice_of page) <= 8) /\
  (forall page, (1 <= page <= totalPages)%Z -> slice_of page <> []) /\
  (forall page, (totalPages < page)%Z -> slice_of page = []).
Proof.
  intros totalPages slice_of.
  destruct (ceil_div_spec (length l)) as (Hnonneg & Hcover & _).
  fold totalPages in Hnonneg, Hcover.
  split; [|split; [|split]].
  - rewrite pages_upto_shift, map_map.
    rewrite (map_ext _ (fun p => firstn 8 (skipn (p * 8) l))).
    + rewrite pages_concat. apply firstn_all2. exact Hcover.
    + intros p. unfold slice_of.
      replace (Z.of_nat p + 1 - 1)%Z with (Z.of_nat p) by lia. apply slice_page.
  - intros page Hp. unfold slice_of. rewrite slice_of_page by exact Hp.
    rewrite length_firstn. lia.
  - intros page Hp. now apply slice_nonempty.
  - intros page Hp. apply slice_beyond; [lia | exact Hp].
Qed.

Lemma pages_partition_results_witness :
  js_slice sample_list ((2 - 1) * itemsPerPage)%Z
    ((2 - 1) * itemsPerPage + itemsPerPage)%Z <> [] /\
  js_slice sample_list ((3 - 1) * itemsPerPage)%Z
    ((3 - 1) * itemsPerPage + itemsPerPage)%Z = [].
Proof.
  destruct (pages_partition_results sample_list) as (_ & _ & Hin & Hout).
  split; [apply Hin | apply Hout]; vm_compute; split; discriminate || reflexivity.
Defined.

(** ** What rendering writes *)

Lemma renderPagination_vars (s : State) :
  currentPage (renderPagination s) = currentPage s /\
  allExperiments (renderPagination s) = allExperiments s /\
  filteredExperiments (renderPagination s) = filteredExperiments s /\
  researchGrid (renderPagination s) = researchGrid s /\
  resultsCount (renderPagination s) = resultsCount s /\
  researchSearchInput (renderPagination s) = researchSearchInput s /\
  categoryFilter (renderPagination s) = categoryFilter s /\
  organismFilter (renderPagination s) = organismFilter s /\
  missionFilter (renderPagination s) = missionFilter s /\
  statusFilter (renderPagination s) = statusFilter s /\
  sortSelect (renderPagination s) = sortSelect s.
Proof.
  unfold renderPagination. destruct (pagination s); [|repeat split].
  destruct (ceil_div _ <=? 1)%Z; repeat split.
Qed.

Lemma renderExperiments_vars (s : State) :
  currentPage (renderExperiments s) = currentPage s /\
  allExperiments (renderExperiments s) = allExperiments s /\
  filteredExperiments (renderExperiments s) = filteredExperiments s /\
  resultsCount (renderExperiments s) = resultsCount s /\
  researchSearchInput (renderExperiments s) = researchSearchInput s /\
  categoryFilter (renderExperiments s) = categoryFilter s /\
  organismFilter (renderExperiments s) = organismFilter s /\
  missionFilter (renderExperiments s) = missionFilter s /\
  statusFilter (renderExperiments s) = statusFilter s /\
  sortSelect (renderExperiments s) = sortSelect s.
Proof.
  unfold renderExperiments. destruct (researchGrid s); [|repeat split].
  destruct (Nat.eqb _ 0).
  - simpl. destruct (pagination s); repeat split.
  - destruct (renderPagination_vars
                (with_grid (Cards (js_slice (filteredExperiments s)
                   ((currentPage s - 1) * itemsPerPage)%Z
                   ((currentPage s - 1) * itemsPerPage + itemsPerPage)%Z)) s))
      as (H1 & H2 & H3 & _ & H5 & H6 & H7 & H8 & H9 & H10 & H11).
    repeat split; assumption.
Qed.

Lemma updateResultsCount_vars (s : State) :
  currentPage (updateResultsCount s) = currentPage s /\
  allExperiments (updateResultsCount s) = allExperiments s /\
  filteredExperiments (updateResultsCount s) = filteredExperiments s /\
  researchGrid (updateResultsCount s) = researchGrid s /\
  pagination (updateResultsCount s) = pagination s /\
  researchSearchInput (updateResultsCount s) = researchSearchInput s /\
  categoryFilter (updateResultsCount s) = categoryFilter s /\
  organismFilter (updateResultsCount s) = organismFilter s /\
  missionFilter (updateResultsCount s) = missionFilter s /\
  statusFilter (updateResultsCount s) = statusFilter s /\
  sortSelect (updateResultsCount s) = sortSelect s.
Proof. unfold updateResultsCount. destruct (resultsCount s); repeat split. Qed.

(** The shown contents depend on the variables only. *)
Lemma shown_ext (s t : State) :
  currentPage s = currentPage t -> filteredExperiments s = filteredExperiments t ->
  grid_shown s = grid_shown t /\ pagination_shown s = pagination_shown t /\
  count_shown s = count_shown t.
Proof.
  intros Hp Hf. unfold grid_shown, pagination_shown, count_shown, page_of.
  rewrite Hp, Hf. repeat split.
Qed.

Lemma length_zero_nil {A : Type} (l : list A) :
  Nat.eqb (length l) 0 = true <-> l = [].
Proof. destruct l; simpl; split; congruence. Qed.

Lemma renderExperiments_writes (s : State) :
  (forall c, researchGrid (renderExperiments s) = Some c -> c = grid_shown s) /\
  (forall items, pagination (renderExperiments s) = Some items ->
     researchGrid s <> None -> items = pagination_shown s) /\
  (researchGrid (renderExperiments s) = None <-> researchGrid s = None).
Proof.
  unfold renderExperiments, grid_shown, pagination_shown, page_of.
  destruct (researchGrid s) as [old|] eqn:Hgrid.
  2:{ rewrite Hgrid. split; [discriminate|]. split; [congruence | tauto]. }
  set (page := js_slice _ _ _).
  destruct page as [|e rest] eqn:Hpage; cbn [length Nat.eqb].
  - simpl. destruct (pagination s) as [p|] eqn:Hpag; simpl.
    + split; [congruence|]. split; [congruence|]. split; discriminate.
    + rewrite Hpag. split; [congruence|]. split; [discriminate|]. split; discriminate.
  - unfold renderPagination. simpl.
    destruct (pagination s) as [p|] eqn:Hpag; simpl.
    + destruct (ceil_div _ <=? 1)%Z; simpl;
        (split; [congruence|]; split; [congruence|]; split; discriminate).
    + rewrite Hpag. split; [congruence|]. split; [discriminate|]. split; discriminate.
Qed.

Lemma sync_after_render (s : State) :
  in_sync (updateResultsCount (renderExperiments s)).
Proof.
  destruct (renderExperiments_vars s) as (Rp & _ & Rf & _).
  destruct (updateResultsCount_vars (renderExperiments s))
    as (Up & _ & Uf & Ug & Upag & _).
  destruct (shown_ext (updateResultsCount (renderExperiments s)) s)
    as (Hg & Hp & Hc); [congruence | congruence |].
  destruct (renderExperiments_writes s) as (Wg & Wp & Wnone).
  unfold in_sync. rewrite Ug, Upag, Hg, Hp, Hc. split; [exact Wg|]. split.
  - intros items Hitems Hgrid. apply Wp; [exact Hitems|].
    intros Hnone. apply Hgrid. now apply Wnone.
  - unfold updateResultsCount, count_shown.
    destruct (resultsCount (renderExperiments s)) as [old|] eqn:Hcount; simpl.
    + intros text [= <-]. rewrite Rf.
      now destruct (Nat.eqb (length (filteredExperiments s)) 1).
    + rewrite Hcount. discriminate.
Qed.

Lemma sync_after_rerender (s : State) (t : State) :
  in_sync s ->
  resultsCount t = resultsCount s ->
  length (filteredExperiments t) = length (filteredExperiments s) ->
  in_sync (renderExperiments t).
Proof.
  intros (_ & _ & Hcount) Hsame Hlen.
  destruct (renderExperiments_vars t) as (Rp & _ & Rf & Rc & _).
  destruct (shown_ext (renderExperiments t) t) as (Hg & Hp & Hc);
    [congruence | congruence |].
  destruct (renderExperiments_writes t) as (Wg & Wp & Wnone).
  unfold in_sync. rewrite Hg, Hp, Hc. split; [exact Wg|]. split.
  - intros items Hitems Hgrid. apply Wp; [exact Hitems|].
    intros Hnone. apply Hgrid. now apply Wnone.
  - intros text Htext. rewrite Rc, Hsame in Htext.
    rewrite (Hcount text Htext). unfold count_shown. now rewrite Hlen.
Qed.

(** ** Sorting *)

Lemma sort_insert_perm {A : Type} (after : A -> A -> bool) (a : A) (xs : list A) :
  Permutation (sort_insert after a xs) (a :: xs).
Proof.
  induction xs as [|b rest IH]; simpl; [reflexivity|].
  destruct (after a b); [|reflexivity].
  rewrite IH. apply perm_swap.
Qed.

Lemma js_sort_perm {A : Type} (after : A -> A -> bool) (xs : list A) :
  Permutation (js_sort after xs) xs.
Proof.
  induction xs as [|a rest IH]; simpl; [reflexivity|].
  rewrite sort_insert_perm. now constructor.
Qed.

Lemma js_sort_length {A : Type} (after : A -> A -> bool) (xs : list A) :
  length (js_sort after xs) = length xs.
Proof. apply Permutation_length, js_sort_perm. Qed.

(** ** The handlers and the variables *)

Lemma filter_if {A : Type} (b : bool) (f : A -> bool) (l : list A) :
  (if b then filter f l else l) = filter (fun a => negb b || f a) l.
Proof.
  destruct b; simpl; [reflexivity|]. symmetry. apply filter_all. reflexivity.
Qed.

(** The tail of [applyFilters] and of [resetFilters]. *)
Lemma finish_vars (src : list Exp) (s : State) :
  let t := updateResultsCount (renderExperiments (with_page 1 (with_filtered src s))) in
  currentPage t = 1%Z /\ allExperiments t = allExperiments s /\
  filteredExperiments t = src /\
  researchSearchInput t = researchSearchInput s /\
  categoryFilter t = categoryFilter s /\ organismFilter t = organismFilter s /\
  missionFilter t = missionFilter s /\ statusFilter t = statusFilter s /\
  sortSelect t = sortSelect s.
Proof.
  intros t. unfold t.
  destruct (updateResultsCount_vars
              (renderExperiments (with_page 1 (with_filtered src s))))
    as (U1 & U2 & U3 & _ & _ & U6 & U7 & U8 & U9 & U10 & U11).
  destruct (renderExperiments_vars (with_page 1 (with_filtered src s)))
    as (R1 & R2 & R3 & _ & R5 & R6 & R7 & R8 & R9 & R10).
  rewrite U1, U2, U3, U6, U7, U8, U9, U10, U11.
  rewrite R1, R2, R3, R5, R6, R7, R8, R9, R10. repeat split.
Qed.

Lemma applyFilters_results (fromSearch : bool) (s : State) :
  filteredExperiments (applyFilters fromSearch s)
  = filter (passes s)
      (if fromSearch then filteredExperiments s else allExperiments s).
Proof.
  unfold applyFilters. cbv zeta.
  match goal with |- filteredExperiments
      (updateResultsCount (renderExperiments (with_page 1 (with_filtered ?src s)))) = _ =>
    destruct (finish_vars src s) as (_ & _ & -> & _)
  end.
  rewrite !filter_if, !filter_filter. apply filter_ext. intros exp.
  unfold passes, group_ok. now rewrite !andb_assoc.
Qed.

Lemma applyFilters_vars (fromSearch : bool) (s : State) :
  currentPage (applyFilters fromSearch s) = 1%Z /\
  allExperiments (applyFilters fromSearch s) = allExperiments s /\
  researchSearchInput (applyFilters fromSearch s) = researchSearchInput s /\
  categoryFilter (applyFilters fromSearch s) = categoryFilter s /\
  organismFilter (applyFilters fromSearch s) = organismFilter s /\
  missionFilter (applyFilters fromSearch s) = missionFilter s /\
  statusFilter (applyFilters fromSearch s) = statusFilter s /\
  sortSelect (applyFilters fromSearch s) = sortSelect s.
Proof.
  unfold applyFilters. cbv zeta.
  match goal with |- context [with_filtered ?src s] =>
    destruct (finish_vars src s) as (H1 & H2 & _ & H4 & H5 & H6 & H7 & H8 & H9)
  end.
  repeat split; assumption.
Qed.

Lemma applyFilters_sync (fromSearch : bool) (s : State) :
  in_sync (applyFilters fromSearch s).
Proof. unfold applyFilters. cbv zeta. apply sync_after_render. Qed.

Lemma handleSearch_results (toLowerCase : string -> string) (s : State) :
  filteredExperiments (handleSearch toLowerCase s)
  = filter (fun exp => matches_term toLowerCase (searchTerm toLowerCase s) exp
                       && passes s exp) (allExperiments s).
Proof.
  unfold handleSearch. rewrite applyFilters_results. cbn [filteredExperiments with_filtered].
  rewrite filter_filter. apply filter_ext. intros exp. reflexivity.
Qed.

Lemma resetFilters_vars (s : State) :
  currentPage (resetFilters s) = 1%Z /\
  allExperiments (resetFilters s) = allExperiments s /\
  filteredExperiments (resetFilters s) = allExperiments s /\
  researchSearchInput (resetFilters s)
    = option_map (fun _ => "") (researchSearchInput s) /\
  categoryFilter (resetFilters s) = uncheck (categoryFilter s) /\
  organismFilter (resetFilters s) = uncheck (organismFilter s) /\
  missionFilter (resetFilters s) = uncheck (missionFilter s) /\
  statusFilter (resetFilters s) = uncheck (statusFilter s) /\
  sortSelect (resetFilters s) = sortSelect s.
Proof.
  unfold resetFilters. cbv zeta.
  change (researchSearchInput
            (with_boxes (uncheck (categoryFilter s)) (uncheck (organismFilter s))
               (uncheck (missionFilter s)) (uncheck (statusFilter s)) s))
    with (researchSearchInput s).
  destruct (researchSearchInput s) as [text|] eqn:Hin;
    match goal with |- context [with_filtered ?src ?t] =>
      destruct (finish_vars src t) as (H1 & H2 & H3 & H4 & H5 & H6 & H7 & H8 & H9)
    end;
    rewrite H1, H2, H3, H4, H5, H6, H7, H8, H9; cbn; rewrite ?Hin;
    repeat split.
Qed.

Lemma changePage_cases (page : Z) (s : State) :
  ((page < 1 \/ ceil_div (length (filteredExperiments s)) < page)%Z /\
   changePage page s = s)
  \/ ((1 <= page <= ceil_div (length (filteredExperiments s)))%Z /\
      changePage page s = renderExperiments (with_page page s)).
Proof.
  unfold changePage.
  destruct (Z.ltb_spec page 1); [left; split; [lia | reflexivity]|].
  destruct (Z.ltb_spec (ceil_div (length (filteredExperiments s))) page); simpl.
  - left. split; [lia | reflexivity].
  - right. split; [lia | reflexivity].
Qed.

Lemma handleSort_vars (localeCompare : string -> string -> Z) (s : State) :
  currentPage (handleSort localeCompare s) = currentPage s /\
  allExperiments (handleSort localeCompare s) = allExperiments s /\
  Permutation (filteredExperiments (handleSort localeCompare s))
    (filteredExperiments s) /\
  resultsCount (handleSort localeCompare s) = resultsCount s.
Proof.
  unfold handleSort.
  match goal with |- context [with_filtered ?sorted s] =>
    destruct (renderExperiments_vars (with_filtered sorted s))
      as (R1 & R2 & R3 & R4 & _);
    assert (Hperm : Permutation sorted (filteredExperiments s))
  end.
  { destruct (sortSelect s) as [v|]; [|apply js_sort_perm].
    destruct (v =? "year-desc")%string; [apply js_sort_perm|].
    destruct (v =? "year-asc")%string; [apply js_sort_perm|].
    destruct (v =? "title")%string; apply js_sort_perm. }
  rewrite R1, R2, R3, R4. repeat split. exact Hperm.
Qed.

(** ** The document follows the variables *)

Lemma js_slice_nil {A : Type} (start stop : Z) : js_slice (@nil A) start stop = [].
Proof. unfold js_slice. now rewrite skipn_nil, firstn_nil. Qed.

Lemma page_of_empty_iff (s : State) :
  in_range s -> (page_of s = [] <-> filteredExperiments s = []).
Proof.
  intros [Hlow Hhigh]. unfold page_of. split.
  - intros Hnil. destruct (filteredExperiments s) as [|e rest] eqn:Hf; [reflexivity|].
    exfalso. revert Hnil. apply slice_nonempty.
    destruct (ceil_div_spec (length (e :: rest))) as (Hnonneg & _ & Hzero & _).
    assert (ceil_div (length (e :: rest)) <> 0%Z).
    { intros Hz. apply (proj2 Hzero) in Hz. discriminate. }
    lia.
  - intros ->. apply js_slice_nil.
Qed.

Lemma in_sync_ext (s t : State) :
  currentPage t = currentPage s -> filteredExperiments t = filteredExperiments s ->
  researchGrid t = researchGrid s -> pagination t = pagination s ->
  resultsCount t = resultsCount s ->
  in_sync s -> in_sync t.
Proof.
  intros Hp Hf Hg Hpag Hc (Sg & Sp & Sc).
  destruct (shown_ext t s Hp Hf) as (Eg & Ep & Ec).
  unfold in_sync. rewrite Hg, Hpag, Hc, Eg, Ep, Ec. repeat split; assumption.
Qed.

Section HostFacts.

Variable toLowerCase : string -> string.
Variable localeCompare : string -> string -> Z.

Lemma handleSort_sync (s : State) :
  in_sync s -> in_range s ->
  in_sync (handleSort localeCompare s) /\ in_range (handleSort localeCompare s).
Proof.
  intros Hsync Hrange.
  destruct (handleSort_vars localeCompare s) as (Sp & _ & Sperm & _).
  split.
  - unfold handleSort.
    match goal with |- in_sync (renderExperiments (with_filtered ?sorted s)) =>
      apply (sync_after_rerender s (with_filtered sorted s) Hsync);
        [reflexivity|];
      assert (Hperm : Permutation sorted (filteredExperiments s))
    end.
    { unfold sort_by_relevance. destruct (sortSelect s) as [w|]; [|apply js_sort_perm].
      destruct (w =? "year-desc")%string; [apply js_sort_perm|].
      destruct (w =? "year-asc")%string; [apply js_sort_perm|].
      destruct (w =? "title")%string; apply js_sort_perm. }
    apply Permutation_length. exact Hperm.
  - unfold in_range. rewrite Sp, (Permutation_length Sperm). exact Hrange.
Qed.

Lemma handle_keeps_sync (e : Event) (s : State) :
  in_sync s -> in_range s ->
  in_sync (handle toLowerCase localeCompare e s) /\
  in_range (handle toLowerCase localeCompare e s).
Proof.
  intros Hsync Hrange. destruct e as [text | grp i | | v | page]; simpl.
  - destruct (researchSearchInput s); [|split; assumption].
    split; [apply applyFilters_sync|]. unfold in_range, handleSearch.
    match goal with |- context [applyFilters true ?t] =>
      destruct (applyFilters_vars true t) as (-> & _)
    end.
    split; [lia | now left].
  - destruct (Nat.ltb i (length (boxes_of grp s))); [|split; assumption].
    split; [apply applyFilters_sync|]. unfold in_range.
    destruct (applyFilters_vars false (toggle grp i s)) as (-> & _).
    split; [lia | now left].
  - split.
    + unfold resetFilters. cbv zeta. apply sync_after_render.
    + unfold in_range. destruct (resetFilters_vars s) as (-> & _).
      split; [lia | now left].
  - destruct (sortSelect s); [|split; assumption].
    apply handleSort_sync.
    + apply (in_sync_ext s); try reflexivity. exact Hsync.
    + exact Hrange.
  - destruct (changePage_cases page s) as [[_ ->] | [Hp ->]];
      [split; assumption|].
    destruct (renderExperiments_vars (with_page page s)) as (Rp & _ & Rf & _).
    split.
    + apply (sync_after_rerender s (with_page page s) Hsync); reflexivity.
    + unfold in_range. rewrite Rp, Rf. simpl. split; [lia | right; lia].
Qed.

Lemma run_keeps_sync (trace : list Event) (s : State) :
  in_sync s -> in_range s ->
  in_sync (run toLowerCase localeCompare trace s) /\
  in_range (run toLowerCase localeCompare trace s).
Proof.
  unfold run. revert s. induction trace as [|e rest IH]; intros s Hsync Hrange;
    simpl; [split; assumption|].
  destruct (handle_keeps_sync e s Hsync Hrange) as [Hs Hr]. now apply IH.
Qed.

Lemma load_in_sync (response : option (option (list Exp))) (doc : State) :
  in_sync (load response doc) /\ in_range (load response doc).
Proof.
  split; [apply sync_after_render|]. unfold in_range, load.
  destruct (updateResultsCount_vars
              (renderExperiments (fetchExperiments response (initial doc))))
    as (-> & _).
  destruct (renderExperiments_vars (fetchExperiments response (initial doc)))
    as (-> & _).
  destruct response as [[xs|]|]; simpl; split; (lia || now left).
Qed.

(** [X16] After the load, and after any sequence of typing, checkbox
    changes, resets, sort choices and page clicks, the document shows the
    script's variables: the grid, when it exists, holds the cards of the
    current page of the current result list, the pagination bar the
    controls for that page, and the counter the number of results. The
    page number is 1 or a page of the result list, so the grid shows the
    no-results message exactly when the result list is empty. *)
Theorem document_follows_variables (response : option (option (list Exp)))
  (doc : State) (trace : list Event) :
  let s := run toLowerCase localeCompare trace (load response doc) in
  in_sync s /\ in_range s /\
  (forall c, researchGrid s = Some c ->
     (c = NoResults <-> filteredExperiments s = [])).
Proof.
  intros s. destruct (load_in_sync response doc) as [Hs0 Hr0].
  destruct (run_keeps_sync trace _ Hs0 Hr0) as [Hsync Hrange].
  fold s in Hsync, Hrange. split; [exact Hsync|]. split; [exact Hrange|].
  intros c Hc. destruct Hsync as (Hgrid & _).
  rewrite (Hgrid c Hc). unfold grid_shown.
  rewrite <- (page_of_empty_iff s Hrange).
  destruct (page_of s); split; congruence.
Qed.

End HostFacts.

(** ** Checkbox filters and search *)

Lemma group_ok_spec (boxes : list Checkbox) (v : string) :
  group_ok boxes v = true <->
  checked_values boxes = [] \/ In v (checked_values boxes).
Proof.
  unfold group_ok, array_includes.
  rewrite orb_true_iff, negb_true_iff, existsb_exists. split.
  - intros [H | (x & Hin & Heq)].
    + left. destruct (checked_values boxes); [reflexivity | discriminate].
    + right. apply String.eqb_eq in Heq. now subst.
  - intros [H | H].
    + left. now rewrite H.
    + right. exists v. split; [exact H | apply String.eqb_refl].
Qed.

Lemma passes_spec (s : State) (exp : Exp) :
  passes s exp = true <->
  forall grp, checked_values (boxes_of grp s) = [] \/
              In (field_of grp exp) (checked_values (boxes_of grp s)).
Proof.
  unfold passes. rewrite !andb_true_iff, !group_ok_spec. split.
  - intros [[[H1 H2] H3] H4] grp. destruct grp; assumption.
  - intros H. split; [split; [split|]|].
    + exact (H CategoryGroup).
    + exact (H OrganismGroup).
    + exact (H MissionGroup).
    + exact (H StatusGroup).
Qed.

Lemma passes_boxes (a b : State) :
  (forall grp, boxes_of grp a = boxes_of grp b) ->
  forall exp, passes a exp = passes b exp.
Proof.
  intros H exp. unfold passes.
  pose proof (H CategoryGroup) as H1. pose proof (H OrganismGroup) as H2.
  pose proof (H MissionGroup) as H3. pose proof (H StatusGroup) as H4.
  simpl in H1, H2, H3, H4. now rewrite H1, H2, H3, H4.
Qed.

Lemma applyFilters_boxes (fromSearch : bool) (s : State) (grp : Group) :
  boxes_of grp (applyFilters fromSearch s) = boxes_of grp s.
Proof.
  destruct (applyFilters_vars fromSearch s) as (_ & _ & _ & B1 & B2 & B3 & B4 & _).
  destruct grp; assumption.
Qed.

(** [X17] A change of a checkbox keeps, in the order of the loaded list,
    the loaded records that pass every group of checkboxes: a group lets a
    record through when none of its boxes is checked or the record's field
    is the value of a checked box. It goes back to page 1 and leaves the
    loaded list and the checkboxes as they are. *)
Theorem checkbox_filters_conjunction (s : State) :
  let t := applyFilters false s in
  filteredExperiments t = filter (passes s) (allExperiments s) /\
  (forall exp, In exp (filteredExperiments t) <->
     In exp (allExperiments s) /\
     forall grp, checked_values (boxes_of grp s) = [] \/
                 In (field_of grp exp) (checked_values (boxes_of grp s))) /\
  currentPage t = 1%Z /\ allExperiments t = allExperiments s /\
  (forall grp, boxes_of grp t = boxes_of grp s).
Proof.
  intros t. unfold t.
  destruct (applyFilters_vars false s) as (Hp & Ha & _).
  split; [apply applyFilters_results|].
  split.
  - intros exp. rewrite applyFilters_results, filter_In, passes_spec. reflexivity.
  - split; [exact Hp|]. split; [exact Ha|]. intros grp. apply applyFilters_boxes.
Qed.

Lemma includes_empty (s : string) : includes s "" = true.
Proof. unfold includes. destruct s; reflexivity. Qed.

Lemma filter_true {A : Type} (f : A -> bool) (l : list A) :
  (forall a, f a = true) -> filter f l = l.
Proof.
  intros H. induction l as [|a l IH]; simpl; [reflexivity|].
  now rewrite H, IH.
Qed.

Section SearchFacts.

Variable toLowerCase : string -> string.
Variable localeCompare : string -> string -> Z.

Lemma matches_term_spec (term : string) (exp : Exp) :
  matches_term toLowerCase term exp = true <->
  includes (toLowerCase (title exp)) term = true \/
  includes (toLowerCase (description exp)) term = true \/
  includes (toLowerCase (organism exp)) term = true \/
  includes (toLowerCase (mission exp)) term = true \/
  exists tag, In tag (tags exp) /\ includes (toLowerCase tag) term = true.
Proof.
  unfold matches_term. rewrite !orb_true_iff, existsb_exists. tauto.
Qed.

(** [X18] A search keeps, in the order of the loaded list, the loaded
    records in which the lower-cased text of the search box occurs (in the
    lower-cased title, description, organism, mission or one of the tags)
    and which pass the checkboxes; it goes back to page 1 and leaves the
    loaded list, the text of the box and the checkboxes as they are. *)
Theorem search_results_match_term_and_filters (s : State) :
  let t := handleSearch toLowerCase s in
  let term := searchTerm toLowerCase s in
  filteredExperiments t
  = filter (fun exp => matches_term toLowerCase term exp && passes s exp)
      (allExperiments s) /\
  (forall exp, In exp (filteredExperiments t) <->
     In exp (allExperiments s) /\
     (includes (toLowerCase (title exp)) term = true \/
      includes (toLowerCase (description exp)) term = true \/
      includes (toLowerCase (organism exp)) term = true \/
      includes (toLowerCase (mission exp)) term = true \/
      exists tag, In tag (tags exp) /\ includes (toLowerCase tag) term = true) /\
     forall grp, checked_values (boxes_of grp s) = [] \/
                 In (field_of grp exp) (checked_values (boxes_of grp s))) /\
  currentPage t = 1%Z /\ allExperiments t = allExperiments s /\
  researchSearchInput t = researchSearchInput s /\
  (forall grp, boxes_of grp t = boxes_of grp s).
Proof.
  intros t term. unfold t, term.
  split; [apply handleSearch_results|]. split.
  - intros exp.
    rewrite handleSearch_results, filter_In, andb_true_iff, passes_spec,
      matches_term_spec. reflexivity.
  - unfold handleSearch.
    match goal with |- context [applyFilters true ?u] =>
      destruct (applyFilters_vars true u) as (Hp & Ha & Hi & _);
      pose proof (applyFilters_boxes true u) as Hb
    end.
    split; [exact Hp|]. split; [exact Ha|]. split; [exact Hi|]. exact Hb.
Qed.

(** [X19] A search with an empty term is a plain run of the checkbox
    filters: when the lower-cased text of the search box is empty (or the
    box is missing), [handleSearch] leaves the page in the state
    [applyFilters()] leaves it in. *)
Theorem empty_search_is_filtering (s : State) :
  searchTerm toLowerCase s = "" ->
  handleSearch toLowerCase s = applyFilters false s.
Proof.
  intros Hterm. unfold handleSearch. rewrite Hterm.
  rewrite (filter_true (matches_term toLowerCase "")).
  - reflexivity.
  - intros exp. unfold matches_term. now rewrite includes_empty.
Qed.

Lemma toggle_boxes (a b : State) (grp : Group) (i : nat) :
  (forall g, boxes_of g a = boxes_of g b) ->
  forall g, boxes_of g (toggle grp i a) = boxes_of g (toggle grp i b).
Proof.
  intros H g.
  pose proof (H CategoryGroup) as H1. pose proof (H OrganismGroup) as H2.
  pose proof (H MissionGroup) as H3. pose proof (H StatusGroup) as H4.
  simpl in H1, H2, H3, H4.
  destruct grp, g; simpl; congruence.
Qed.

Lemma toggle_vars (grp : Group) (i : nat) (s : State) :
  currentPage (toggle grp i s) = currentPage s /\
  allExperiments (toggle grp i s) = allExperiments s /\
  filteredExperiments (toggle grp i s) = filteredExperiments s /\
  researchSearchInput (toggle grp i s) = researchSearchInput s /\
  sortSelect (toggle grp i s) = sortSelect s.
Proof. destruct grp; repeat split. Qed.

(** [X20] A change of a checkbox forgets the search: the listener calls
    [applyFilters()] without the flag, which filters the loaded list. After
    a search for any text, a change of a checkbox gives the result list
    the same change gives without the search, while the search box still
    shows the text. *)
Theorem checkbox_change_forgets_search (s : State) (text : string)
  (grp : Group) (i : nat) :
  researchSearchInput s <> None -> i < length (boxes_of grp s) ->
  let typed := handle toLowerCase localeCompare (Typed text) s in
  let t := handle toLowerCase localeCompare (Toggled grp i) typed in
  researchSearchInput t = Some text /\
  filteredExperiments t
  = filteredExperiments (handle toLowerCase localeCompare (Toggled grp i) s) /\
  filteredExperiments t = filter (passes t) (allExperiments s).
Proof.
  intros Hinput Hi typed t.
  assert (Htyped : researchSearchInput typed = Some text /\
                   allExperiments typed = allExperiments s /\
                   forall g, boxes_of g typed = boxes_of g s).
  { unfold typed. simpl. destruct (researchSearchInput s) as [old|] eqn:Hold;
      [|congruence].
    unfold handleSearch.
    match goal with |- context [applyFilters true ?u] =>
      destruct (applyFilters_vars true u) as (_ & Ha & Hin & _);
      pose proof (applyFilters_boxes true u) as Hb
    end.
    split; [exact Hin|]. split; [exact Ha|]. intros g. rewrite Hb.
    destruct g; reflexivity. }
  destruct Htyped as (Tin & Tall & Tboxes).
  assert (Hlt : Nat.ltb i (length (boxes_of grp typed)) = true).
  { rewrite Tboxes. now apply Nat.ltb_lt. }
  assert (Hlt' : Nat.ltb i (length (boxes_of grp s)) = true)
    by now apply Nat.ltb_lt.
  assert (Ht : t = applyFilters false (toggle grp i typed)).
  { unfold t. simpl. now rewrite Hlt. }
  destruct (toggle_vars grp i typed) as (_ & Gall & _ & Gin & _).
  destruct (toggle_vars grp i s) as (_ & Gall' & _).
  destruct (applyFilters_vars false (toggle grp i typed)) as (_ & _ & Ain & _).
  assert (Hres : filteredExperiments t
                 = filter (passes (toggle grp i s)) (allExperiments s)).
  { rewrite Ht, applyFilters_results, Gall, Tall.
    apply filter_ext. apply passes_boxes. now apply toggle_boxes. }
  split; [rewrite Ht, Ain, Gin; exact Tin|]. split.
  - rewrite Hres. simpl. rewrite Hlt'.
    now rewrite applyFilters_results, Gall'.
  - rewrite Hres. apply filter_ext. intros exp. apply passes_boxes.
    intros g. rewrite Ht, applyFilters_boxes. symmetry.
    now apply toggle_boxes.
Qed.

End SearchFacts.

Lemma empty_search_is_filtering_witness :
  searchTerm (fun v => v) sample_page = "" /\
  handleSearch (fun v => v) sample_page = applyFilters false sample_page.
Proof.
  split; [reflexivity|].
  apply (empty_search_is_filtering (fun v => v) sample_page). reflexivity.
Defined.

Lemma checkbox_change_forgets_search_witness :
  let t := handle (fun v => v) (fun _ _ => 0%Z) (Toggled CategoryGroup 0)
             (handle (fun v => v) (fun _ _ => 0%Z) (Typed "wheat") sample_page) in
  researchSearchInput t = Some "wheat" /\
  filteredExperiments t
  = filteredExperiments
      (handle (fun v => v) (fun _ _ => 0%Z) (Toggled CategoryGroup 0) sample_page) /\
  filteredExperiments t = filter (passes t) (allExperiments sample_page).
Proof.
  apply (checkbox_change_forgets_search (fun v => v) (fun _ _ => 0%Z)
           sample_page "wheat" CategoryGroup 0).
  - discriminate.
  - simpl. lia.
Defined.

(** ** Reset *)

Lemma checked_uncheck (boxes : list Checkbox) : checked_values (uncheck boxes) = [].
Proof.
  unfold checked_values, uncheck.
  induction boxes as [|cb rest IH]; simpl; [reflexivity | exact IH].
Qed.

Lemma value_uncheck (boxes : list Checkbox) :
  map value (uncheck boxes) = map value boxes.
Proof. unfold uncheck. rewrite map_map. reflexivity. Qed.

Lemma resetFilters_boxes (s : State) (grp : Group) :
  boxes_of grp (resetFilters s) = uncheck (boxes_of grp s).
Proof.
  destruct (resetFilters_vars s) as (_ & _ & _ & _ & B1 & B2 & B3 & B4 & _).
  destruct grp; assumption.
Qed.

(** [X21] The reset button clears every criterion: afterwards every
    checkbox is unchecked (with its value kept), the search box, if there
    is one, is empty, the result list is the loaded list, the page is 1,
    and every record passes the checkboxes. The sort menu keeps its value
    although the result list is back in the order of the loaded list. *)
Theorem reset_clears_every_criterion (s : State) :
  let t := resetFilters s in
  (forall grp cb, In cb (boxes_of grp t) -> checked cb = false) /\
  (forall grp, map value (boxes_of grp t) = map value (boxes_of grp s)) /\
  researchSearchInput t = option_map (fun _ => "") (researchSearchInput s) /\
  filteredExperiments t = allExperiments s /\
  allExperiments t = allExperiments s /\
  currentPage t = 1%Z /\
  sortSelect t = sortSelect s /\
  (forall exp, passes t exp = true).
Proof.
  intros t. unfold t.
  destruct (resetFilters_vars s) as (Hp & Ha & Hf & Hin & _ & _ & _ & _ & Hs).
  split.
  { intros grp cb. rewrite resetFilters_boxes. unfold uncheck.
    rewrite in_map_iff. intros (cb0 & <- & _). reflexivity. }
  split.
  { intros grp. rewrite resetFilters_boxes. apply value_uncheck. }
  split; [exact Hin|]. split; [exact Hf|]. split; [exact Ha|].
  split; [exact Hp|]. split; [exact Hs|].
  intros exp. apply passes_spec. intros grp. left.
  rewrite resetFilters_boxes. apply checked_uncheck.
Qed.

(** ** Changing the page *)

Lemma js_slice_length {A : Type} (l : list A) (page : Z) :
  (1 <= page)%Z ->
  length (js_slice l ((page - 1) * itemsPerPage)%Z
            ((page - 1) * itemsPerPage + itemsPerPage)%Z) <= 8.
Proof.
  intros Hp. rewrite (slice_of_page l page Hp). rewrite length_firstn. lia.
Qed.

(** [X22] [changePage] ignores a page number outside 1..totalPages: the
    state is unchanged. A page number inside sets the current page and
    leaves the lists alone, and the grid, if there is one, then shows the
    cards of that page: between one and eight records. *)
Theorem changePage_bounds (page : Z) (s : State) :
  let totalPages := ceil_div (length (filteredExperiments s)) in
  ((page < 1 \/ totalPages < page)%Z -> changePage page s = s) /\
  ((1 <= page <= totalPages)%Z ->
     let t := changePage page s in
     currentPage t = page /\
     filteredExperiments t = filteredExperiments s /\
     allExperiments t = allExperiments s /\
     (researchGrid s <> None ->
        exists records,
          researchGrid t = Some (Cards records) /\ records = page_of t /\
          1 <= length records <= 8)).
Proof.
  intros totalPages. unfold totalPages. split.
  - intros Hout. destruct (changePage_cases page s) as [[_ E] | [Hin _]];
      [exact E | lia].
  - intros Hin. cbv zeta.
    destruct (changePage_cases page s) as [[Hout _] | [_ E]]; [lia|].
    rewrite E.
    destruct (renderExperiments_vars (with_page page s)) as (Rp & Ra & Rf & _).
    split; [exact Rp|]. split; [exact Rf|]. split; [exact Ra|].
    intros Hgrid.
    destruct (renderExperiments_writes (with_page page s)) as (Wg & _ & Wn).
    destruct (researchGrid (renderExperiments (with_page page s))) as [c|] eqn:Hc.
    2:{ exfalso. apply Hgrid. apply (proj1 Wn). reflexivity. }
    pose proof (Wg c eq_refl) as Hshown.
    assert (Hpage : page_of (renderExperiments (with_page page s))
                    = page_of (with_page page s)).
    { unfold page_of. now rewrite Rp, Rf. }
    assert (Hne : page_of (with_page page s) <> []).
    { unfold page_of. simpl. now apply slice_nonempty. }
    assert (Hlen : length (page_of (with_page page s)) <= 8).
    { unfold page_of. simpl. apply js_slice_length. lia. }
    exists (page_of (with_page page s)). split.
    + rewrite Hshown. unfold grid_shown.
      destruct (page_of (with_page page s)); [congruence | reflexivity].
    + split; [now rewrite Hpage|]. split; [|exact Hlen].
      destruct (page_of (with_page page s)); [congruence | simpl; lia].
Qed.

Lemma changePage_bounds_witness :
  changePage 3 sample_page = sample_page /\
  currentPage (changePage 2 sample_page) = 2%Z.
Proof.
  split.
  - apply (proj1 (changePage_bounds 3 sample_page)). right. vm_compute. reflexivity.
  - apply (proj2 (changePage_bounds 2 sample_page)). vm_compute.
    split; discriminate.
Defined.

(** ** The pagination bar *)

Lemma pages_upto_In (total i : Z) :
  In i (pages_upto total) <-> (1 <= i <= total)%Z.
Proof.
  unfold pages_upto. rewrite in_map_iff. split.
  - intros (n & <- & Hn). apply in_seq in Hn. lia.
  - intros Hi. exists (Z.to_nat i). split; [lia|]. apply in_seq. lia.
Qed.

Lemma page_items_button (cur total i : Z) (a : bool) (p : Z) :
  In (PageButton a p) (page_items cur total i) <->
  p = i /\ a = (i =? cur)%Z /\
  (i = 1 \/ i = total \/ cur - 1 <= i <= cur + 1)%Z.
Proof.
  unfold page_items.
  destruct ((i =? 1) || (i =? total) || ((cur - 1 <=? i) && (i <=? cur + 1)))%Z
    eqn:Hshow.
  - simpl. split.
    + intros [E | []]. injection E as <- <-. split; [reflexivity|].
      split; [reflexivity | lia].
    + intros (-> & -> & _). now left.
  - destruct ((i =? cur - 2) || (i =? cur + 2))%Z; simpl.
    + split; [intros [E | []]; discriminate | lia].
    + split; [intros [] | lia].
Qed.

Lemma page_items_ellipsis (cur total i : Z) :
  In Ellipsis (page_items cur total i) <->
  (i <> 1 /\ i <> total /\ (i = cur - 2 \/ i = cur + 2))%Z.
Proof.
  unfold page_items.
  destruct ((i =? 1) || (i =? total) || ((cur - 1 <=? i) && (i <=? cur + 1)))%Z
    eqn:Hshow.
  - simpl. split; [intros [E | []]; discriminate | lia].
  - destruct ((i =? cur - 2) || (i =? cur + 2))%Z eqn:Hdots; simpl.
    + split; [lia | now left].
    + split; [intros [] | lia].
Qed.

Lemma page_items_kinds (cur total i : Z) (item : PagItem) :
  In item (page_items cur total i) ->
  item = Ellipsis \/ exists a p, item = PageButton a p.
Proof.
  unfold page_items.
  destruct ((i =? 1) || (i =? total) || ((cur - 1 <=? i) && (i <=? cur + 1)))%Z.
  - intros [<- | []]. right. eauto.
  - destruct ((i =? cur - 2) || (i =? cur + 2))%Z; [|intros []].
    intros [<- | []]. now left.
Qed.

(** [X23] The pagination bar, when there is more than one page, is the
    Previous button, the items of the pages and the Next button. A button
    of page [p] is shown exactly for the first page, the last page and the
    pages next to the current one, and it is marked active exactly when
    [p] is the current page; an ellipsis appears exactly when the page two
    before or two after the current one lies strictly between the first
    and the last page. Previous is disabled exactly on page 1, Next
    exactly on the last page. With at most one page the bar is emptied. *)
Theorem pagination_bar_structure (s : State) (old : list PagItem) :
  pagination s = Some old ->
  let total := ceil_div (length (filteredExperiments s)) in
  let cur := currentPage s in
  ((total <= 1)%Z -> pagination (renderPagination s) = Some []) /\
  ((1 < total)%Z ->
   exists middle,
     pagination (renderPagination s)
     = Some (Previous (cur =? 1)%Z (cur - 1)%Z
             :: middle ++ [Next (cur =? total)%Z (cur + 1)%Z]) /\
     (forall a p, In (PageButton a p) middle <->
        (1 <= p <= total)%Z /\
        (p = 1 \/ p = total \/ cur - 1 <= p <= cur + 1)%Z /\
        a = (p =? cur)%Z) /\
     (In Ellipsis middle <->
        (1 < cur - 2 < total \/ 1 < cur + 2 < total)%Z) /\
     (forall item, In item middle ->
        item = Ellipsis \/ exists a p, item = PageButton a p)).
Proof.
  intros Hpag total cur. unfold renderPagination. rewrite Hpag. fold total cur.
  split.
  - intros Hle. apply Z.leb_le in Hle. now rewrite Hle.
  - intros Hlt. assert (Hle : (total <=? 1)%Z = false) by (apply Z.leb_gt; lia).
    rewrite Hle.
    exists (flat_map (page_items cur total) (pages_upto total)).
    split; [reflexivity|]. split; [|split].
    + intros a p. rewrite in_flat_map. split.
      * intros (i & Hi & Hin). apply pages_upto_In in Hi.
        apply page_items_button in Hin. destruct Hin as (-> & -> & Hshow).
        split; [exact Hi|]. split; [exact Hshow | reflexivity].
      * intros (Hp & Hshow & ->). exists p. split; [now apply pages_upto_In|].
        apply page_items_button. split; [reflexivity|]. split; [reflexivity|].
        exact Hshow.
    + rewrite in_flat_map. split.
      * intros (i & Hi & Hin). apply pages_upto_In in Hi.
        apply page_items_ellipsis in Hin. lia.
      * intros [Hbefore | Hafter].
        -- exists (cur - 2)%Z. split; [apply pages_upto_In; lia|].
           apply page_items_ellipsis. lia.
        -- exists (cur + 2)%Z. split; [apply pages_upto_In; lia|].
           apply page_items_ellipsis. lia.
    + intros item Hin. apply in_flat_map in Hin. destruct Hin as (i & _ & Hin).
      now apply page_items_kinds in Hin.
Qed.

Lemma pagination_bar_structure_witness :
  exists middle,
    pagination (renderPagination sample_page)
    = Some (Previous true 0 :: middle ++ [Next false 2]) /\
    (forall a p, In (PageButton a p) middle <->
       (1 <= p <= 2)%Z /\ (p = 1 \/ p = 2 \/ 1 - 1 <= p <= 1 + 1)%Z /\
       a = (p =? 1)%Z).
Proof.
  destruct (proj2 (pagination_bar_structure sample_page
                     [Previous true 0; PageButton true 1; PageButton false 2;
                      Next false 2] eq_refl))
    as (middle & Hbar & Hbuttons & _).
  - vm_compute. reflexivity.
  - exists middle. split; [exact Hbar | exact Hbuttons].
Defined.

(** ** Sorting *)

Lemma sort_insert_sorted {A : Type} (le : A -> A -> Prop) (after : A -> A -> bool) :
  (forall a b, after a b = false -> le a b) ->
  (forall a b, after a b = true -> le b a) ->
  (forall a b c, le a b -> le b c -> le a c) ->
  forall a xs, StronglySorted le xs -> StronglySorted le (sort_insert after a xs).
Proof.
  intros Hstay Hmove Htrans a xs. induction xs as [|b rest IH]; intros Hsorted.
  - simpl. constructor; constructor.
  - apply StronglySorted_inv in Hsorted. destruct Hsorted as [Hrest Hall].
    simpl. destruct (after a b) eqn:Hab.
    + constructor; [now apply IH|].
      apply (Permutation_Forall (Permutation_sym (sort_insert_perm after a rest))).
      constructor; [now apply Hmove | exact Hall].
    + constructor; [now constructor|].
      constructor; [now apply Hstay|].
      apply Forall_forall. intros c Hc. rewrite Forall_forall in Hall.
      apply (Htrans a b c); [now apply Hstay | now apply Hall].
Qed.

Lemma js_sort_sorted {A : Type} (le : A -> A -> Prop) (after : A -> A -> bool) :
  (forall a b, after a b = false -> le a b) ->
  (forall a b, after a b = true -> le b a) ->
  (forall a b c, le a b -> le b c -> le a c) ->
  forall xs, StronglySorted le (js_sort after xs).
Proof.
  intros Hstay Hmove Htrans xs. induction xs as [|a rest IH]; simpl.
  - constructor.
  - now apply (sort_insert_sorted le after).
Qed.

Lemma handleSort_results (localeCompare : string -> string -> Z) (s : State) :
  filteredExperiments (handleSort localeCompare s)
  = match sortSelect s with
    | Some sortValue =>
        if (sortValue =? "year-desc")%string
        then js_sort (fun a b => (0 <? year b - year a)%Z) (filteredExperiments s)
        else if (sortValue =? "year-asc")%string
        then js_sort (fun a b => (0 <? year a - year b)%Z) (filteredExperiments s)
        else if (sortValue =? "title")%string
        then js_sort (fun a b => (0 <? localeCompare (title a) (title b))%Z)
               (filteredExperiments s)
        else sort_by_relevance (filteredExperiments s)
    | None => sort_by_relevance (filteredExperiments s)
    end.
Proof.
  unfold handleSort.
  match goal with |- context [with_filtered ?sorted s] =>
    destruct (renderExperiments_vars (with_filtered sorted s)) as (_ & _ & -> & _)
  end.
  reflexivity.
Qed.

Lemma sort_by_relevance_sorted (xs : list Exp) :
  StronglySorted (fun a b => (relevance b <= relevance a)%Q) (sort_by_relevance xs).
Proof.
  unfold sort_by_relevance. apply js_sort_sorted.
  - intros a b H. apply negb_false_iff in H. apply Qle_bool_iff in H.
    apply (Qplus_le_l _ _ (- relevance a)%Q). rewrite Qplus_opp_r. exact H.
  - intros a b H. apply negb_true_iff in H.
    destruct (Qlt_le_dec 0%Q (relevance b - relevance a)%Q) as [Hlt | Hle].
    + apply Qlt_le_weak.
      apply (Qplus_lt_l _ _ (- relevance a)%Q). rewrite Qplus_opp_r. exact Hlt.
    + apply Qle_bool_iff in Hle. congruence.
  - intros a b c Hab Hbc. now apply (Qle_trans _ (relevance b)).
Qed.

(** [X24] Sorting reorders the result list and nothing else: the sorted
    list is a permutation of the result list, and the current page, the
    loaded list and the counter are unchanged. With the value "year-asc"
    the years are in ascending order, with "year-desc" in descending
    order, and with "relevance", any other value but "title", or no sort
    menu, the relevance scores (a missing score counting as 0) are in
    descending order. *)
Theorem sort_reorders_results (localeCompare : string -> string -> Z) (s : State) :
  let t := handleSort localeCompare s in
  Permutation (filteredExperiments t) (filteredExperiments s) /\
  currentPage t = currentPage s /\
  allExperiments t = allExperiments s /\
  resultsCount t = resultsCount s /\
  (sortSelect s = Some "year-asc" ->
     StronglySorted (fun a b => (year a <= year b)%Z) (filteredExperiments t)) /\
  (sortSelect s = Some "year-desc" ->
     StronglySorted (fun a b => (year b <= year a)%Z) (filteredExperiments t)) /\
  ((forall v, sortSelect s = Some v ->
      v <> "year-desc" /\ v <> "year-asc" /\ v <> "title") ->
     StronglySorted (fun a b => (relevance b <= relevance a)%Q)
       (filteredExperiments t)).
Proof.
  intros t. unfold t.
  destruct (handleSort_vars localeCompare s) as (Hp & Ha & Hperm & Hc).
  split; [exact Hperm|]. split; [exact Hp|]. split; [exact Ha|].
  split; [exact Hc|]. rewrite handleSort_results. split; [|split].
  - intros ->. replace ("year-asc" =? "year-desc")%string with false by reflexivity.
    rewrite String.eqb_refl. apply js_sort_sorted.
    + intros a b H. apply Z.ltb_ge in H. lia.
    + intros a b H. apply Z.ltb_lt in H. lia.
    + intros a b c. lia.
  - intros ->. rewrite String.eqb_refl. apply js_sort_sorted.
    + intros a b H. apply Z.ltb_ge in H. lia.
    + intros a b H. apply Z.ltb_lt in H. lia.
    + intros a b c. lia.
  - intros Hother. destruct (sortSelect s) as [v|];
      [|apply sort_by_relevance_sorted].
    destruct (Hother v eq_refl) as (H1 & H2 & H3).
    apply String.eqb_neq in H1, H2, H3. rewrite H1, H2, H3.
    apply sort_by_relevance_sorted.
Qed.

Lemma sort_reorders_results_witness :
  sortSelect (with_sort (Some "year-asc") sample_page) = Some "year-asc" /\
  StronglySorted (fun a b => (year a <= year b)%Z)
    (filteredExperiments
       (handleSort (fun _ _ => 0%Z) (with_sort (Some "year-asc") sample_page))).
Proof.
  split; [reflexivity|].
  destruct (sort_reorders_results (fun _ _ => 0%Z)
              (with_sort (Some "year-asc") sample_page))
    as (_ & _ & _ & _ & Hasc & _).
  apply Hasc. reflexivity.
Defined.

(** ** The result list and the loaded list *)

Section SelectionFacts.

Variable toLowerCase : string -> string.
Variable localeCompare : string -> string -> Z.

Lemma handle_keeps_selection (all : list Exp) (e : Event) (s : State) :
  selection_of all s -> selection_of all (handle toLowerCase localeCompare e s).
Proof.
  intros [Hall (keep & Hperm)]. destruct e as [text | grp i | | v | page]; simpl.
  - destruct (researchSearchInput s); [|split; eauto].
    unfold selection_of. rewrite handleSearch_results.
    unfold handleSearch.
    match goal with |- context [applyFilters true ?u] =>
      destruct (applyFilters_vars true u) as (_ & -> & _)
    end.
    simpl. split; [exact Hall|]. rewrite Hall. eexists. apply Permutation_refl.
  - destruct (Nat.ltb i (length (boxes_of grp s))); [|split; eauto].
    unfold selection_of. rewrite applyFilters_results.
    destruct (applyFilters_vars false (toggle grp i s)) as (_ & -> & _).
    destruct (toggle_vars grp i s) as (_ & -> & _).
    split; [exact Hall|]. rewrite Hall. eexists. apply Permutation_refl.
  - destruct (resetFilters_vars s) as (_ & Ha & Hf & _).
    unfold selection_of. rewrite Ha, Hf. split; [exact Hall|].
    exists (fun _ => true). rewrite Hall, filter_true by reflexivity.
    apply Permutation_refl.
  - destruct (sortSelect s); [|split; eauto].
    match goal with |- selection_of all (handleSort localeCompare ?u) =>
      destruct (handleSort_vars localeCompare u) as (_ & Ha & Hsorted & _)
    end.
    unfold selection_of. rewrite Ha. split; [exact Hall|].
    exists keep. apply (Permutation_trans Hsorted). exact Hperm.
  - destruct (changePage_cases page s) as [[_ ->] | [_ ->]]; [split; eauto|].
    destruct (renderExperiments_vars (with_page page s)) as (_ & Ra & Rf & _).
    unfold selection_of. rewrite Ra, Rf. split; [exact Hall|]. eauto.
Qed.

Lemma run_keeps_selection (all : list Exp) (trace : list Event) (s : State) :
  selection_of all s -> selection_of all (run toLowerCase localeCompare trace s).
Proof.
  unfold run. revert s. induction trace as [|e rest IH]; intros s Hsel; simpl;
    [exact Hsel|].
  apply IH. now apply handle_keeps_selection.
Qed.

Lemma load_selection (response : option (option (list Exp))) (doc : State) :
  selection_of (loaded response) (load response doc).
Proof.
  unfold selection_of, load.
  destruct (updateResultsCount_vars
              (renderExperiments (fetchExperiments response (initial doc))))
    as (_ & -> & -> & _).
  destruct (renderExperiments_vars (fetchExperiments response (initial doc)))
    as (_ & -> & -> & _).
  assert (Hfetch : allExperiments (fetchExperiments response (initial doc))
                   = loaded response /\
                   filteredExperiments (fetchExperiments response (initial doc))
                   = loaded response).
  { destruct response as [[xs|]|]; split; reflexivity. }
  destruct Hfetch as [-> ->]. split; [reflexivity|].
  exists (fun _ => true). rewrite filter_true by reflexivity.
  apply Permutation_refl.
Qed.

(** [X25] Whatever the user does after the load, the loaded list is never
    changed, and the result list is a selection of it, possibly
    reordered: it holds loaded records only, each at most as often as the
    loaded list does, so it is never longer than the loaded list. *)
Theorem results_are_loaded_records (response : option (option (list Exp)))
  (doc : State) (trace : list Event) :
  let s := run toLowerCase localeCompare trace (load response doc) in
  allExperiments s = loaded response /\
  (exists keep, Permutation (filteredExperiments s) (filter keep (loaded response))) /\
  (forall exp, In exp (filteredExperiments s) -> In exp (loaded response)) /\
  length (filteredExperiments s) <= length (loaded response).
Proof.
  intros s.
  destruct (run_keeps_selection (loaded response) trace _
              (load_selection response doc)) as [Hall (keep & Hperm)].
  fold s in Hall, Hperm. split; [exact Hall|]. split; [eauto|]. split.
  - intros exp Hin. apply (Permutation_in _ Hperm) in Hin.
    apply filter_In in Hin. tauto.
  - rewrite (Permutation_length Hperm). apply filter_length_le.
Qed.

(** [X26] When the request fails, or the response has no list of
    experiments, the page stays empty whatever the user does: the result
    list is empty, the grid, if there is one, shows the no-results
    message, the pagination bar under it is empty and the counter, if
    there is one, reads "Showing 0 experiments". *)
Theorem failed_load_stays_empty (response : option (option (list Exp)))
  (doc : State) (trace : list Event) :
  response = None \/ response = Some None ->
  let s := run toLowerCase localeCompare trace (load response doc) in
  filteredExperiments s = [] /\ allExperiments s = [] /\
  (forall c, researchGrid s = Some c -> c = NoResults) /\
  (forall items, pagination s = Some items -> researchGrid s <> None ->
     items = []) /\
  (forall text, resultsCount s = Some text -> text = "Showing 0 experiments").
Proof.
  intros Hfail s.
  assert (Hloaded : loaded response = []) by (destruct Hfail; subst; reflexivity).
  destruct (run_keeps_selection (loaded response) trace _
              (load_selection response doc)) as [Hall (keep & Hperm)].
  fold s in Hall, Hperm. rewrite Hloaded in Hall, Hperm. simpl in Hperm.
  apply Permutation_sym, Permutation_nil in Hperm.
  destruct (load_in_sync response doc) as [Hs0 Hr0].
  destruct (run_keeps_sync toLowerCase localeCompare trace _ Hs0 Hr0)
    as [(Hgrid & Hpag & Hcount) Hrange].
  fold s in Hgrid, Hpag, Hcount, Hrange.
  assert (Hpage : page_of s = []) by now apply page_of_empty_iff.
  split; [exact Hperm|]. split; [exact Hall|]. split; [|split].
  - intros c Hc. rewrite (Hgrid c Hc). unfold grid_shown. now rewrite Hpage.
  - intros items Hitems Hg. rewrite (Hpag items Hitems Hg).
    unfold pagination_shown. now rewrite Hpage.
  - intros text Htext. rewrite (Hcount text Htext). unfold count_shown.
    rewrite Hperm. reflexivity.
Qed.

End SelectionFacts.

Lemma failed_load_stays_empty_witness :
  let s := run (fun v => v) (fun _ _ => 0%Z)
             [Typed "wheat"; ResetClicked; PageClicked 2]
             (load None sample_doc) in
  filteredExperiments s = [] /\
  (forall c, researchGrid s = Some c -> c = NoResults) /\
  (forall text, resultsCount s = Some text -> text = "Showing 0 experiments").
Proof.
  destruct (failed_load_stays_empty (fun v => v) (fun _ _ => 0%Z) None sample_doc
              [Typed "wheat"; ResetClicked; PageClicked 2] (or_introl eq_refl))
    as (Hempty & _ & Hgrid & _ & Hcount).
  split; [exact Hempty|]. split; [exact Hgrid | exact Hcount].
Defined.

(** ** The card's link *)

(** [X27] The button of a card and the link of the graph's detail view
    resolve the link of a record in the same way: for a node that carries
    the links of the record, the card has a button exactly when the detail
    view's link action is enabled with a URL other than "#", and the
    button opens that URL. *)
Theorem card_button_agrees_with_detail_view (exp : Exp) (node : Node) :
  links_of node = match links exp with Some l => l | None => empty_links end ->
  card_button exp
  = match btn_onclick (showNodeDetails node) with
    | Some (JStr u) => if (u =? "#")%string then None else Some (JStr u)
    | other => other
    end.
Proof.
  intros Hlinks.
  assert (Hcard : card_linkToOpen exp = js_or (linkToOpen node) (JStr "#")).
  { unfold card_linkToOpen, linkToOpen. rewrite Hlinks.
    destruct (links exp); reflexivity. }
  unfold card_button. rewrite Hcard. unfold showNodeDetails, js_or.
  assert (Hkind : linkToOpen node = JUndefined \/ exists u, linkToOpen node = JStr u).
  { unfold linkToOpen, js_or, first_entry.
    destruct (publications (links_of node)) as [[|u ?]|];
      destruct (datasets (links_of node)) as [[|v ?]|]; simpl;
      try (now left);
      try (destruct (negb (u =? "")%string)); eauto. }
  destruct Hkind as [-> | (u & ->)]; [reflexivity|].
  destruct (truthy (JStr u)) eqn:Htruthy; simpl; reflexivity.
Qed.

Lemma card_button_agrees_with_detail_view_witness :
  card_button (mkExp "T" "D" "S" "O" "M" "1 day" [] "C" "Done" 2020%Z None
                 (Some (mkLinks (Some ["#"]) (Some ["https://d"]) None)))
  = None.
Proof.
  exact (card_button_agrees_with_detail_view
           (mkExp "T" "D" "S" "O" "M" "1 day" [] "C" "Done" 2020%Z None
              (Some (mkLinks (Some ["#"]) (Some ["https://d"]) None)))
           (mkNode "1" "T" "C" "Done" "1 day" None JUndefined JUndefined
              JUndefined (mkLinks (Some ["#"]) (Some ["https://d"]) None)
              None None None None) eq_refl).
Defined.

End ResearchFacts.
